(** * Customer analytics and customer report loaders: a shallow embedding

    The development follows the two route modules of the app:
    the analytics route ([Analytics]: date-range normaliser, capped
    customer walk, order-window scanner) and the report route
    ([Report]: CSV escaping, histogram buckets, uncapped customer walk,
    filter and sort).  The host language's built-ins that the routes call
    (Date arithmetic, truthiness, [Array.prototype.sort], ...) are collected
    in [Js]. *)

From Stdlib Require Import ZArith QArith List Bool Ascii String Lia Lqa.
From Stdlib Require Import Permutation Sorted DecimalString.
Import ListNotations.

Open Scope string_scope.
Open Scope Z_scope.

#[local] Set Warnings "-register-all".

(* ================================================================== *)
(** * Host built-ins *)

(** Built-ins whose result depends on the engine or on locale data are taken
    as an interface; the routes are written against it. *)
Class Host := {
  (** [new Date(s).getTime()]: the time value in milliseconds since the
      epoch, [None] for an Invalid Date (NaN). *)
  Date_parse : string -> option Z;
  (** [s.toLowerCase()] *)
  String_toLowerCase : string -> string;
  (** [a.localeCompare(b)]: negative, zero or positive. *)
  String_localeCompare : string -> string -> Z;
  (** [String(n)] on a number *)
  Number_toString : Q -> string
}.

Module Js.

(** ** Values and truthiness *)

(** JSON-like values as [response.json()] delivers them. *)
Inductive JsValue : Type :=
| JsUndefined
| JsNull
| JsBool (b : bool)
| JsNumber (q : Q)
| JsString (s : string)
| JsArray (items : list JsValue)
| JsObject (fields : list (string * JsValue)).

Definition string_truthy (s : string) : bool :=
  match s with EmptyString => false | String _ _ => true end.

(** ToBoolean: arrays and objects are truthy whatever they hold. *)
Definition truthy (v : JsValue) : bool :=
  match v with
  | JsUndefined | JsNull => false
  | JsBool b => b
  | JsNumber q => negb (Qeq_bool q 0)
  | JsString s => string_truthy s
  | JsArray _ | JsObject _ => true
  end.

(** [s || fallback] on a nullable string. *)
Definition str_or (s : option string) (fallback : string) : string :=
  match s with
  | Some v => if string_truthy v then v else fallback
  | None => fallback
  end.

(** [s || null] on a nullable string. *)
Definition str_or_null (s : option string) : option string :=
  match s with
  | Some v => if string_truthy v then Some v else None
  | None => None
  end.

(** Numbers are exact rationals: the amounts are decimal strings and the
    counts are integers, and the routes only add, subtract and compare
    them.  The one quotient the routes take is [Number_div]. *)

(** [n || 0] on a nullable number. *)
Definition num_or_zero (n : option Q) : Q :=
  match n with Some q => q | None => 0%Q end.

(** [a || b] on numbers: [b] when [a] is zero. *)
Definition num_or (a b : Q) : Q := if Qeq_bool a 0 then b else a.

(** The sign test [Array.prototype.sort] applies to a comparator's result. *)
Definition Number_positive (q : Q) : bool := 0 <? Qnum q.

(** [a / b]; [None] when the quotient is not a finite number (zero divisor:
    NaN or an infinity). *)
Definition Number_div (a b : Q) : option Q :=
  if Qeq_bool b 0 then None else Some (a / b)%Q.

(** ** Completions *)

Inductive Exception : Type :=
| UpstreamError (errors : JsValue)  (* new Error(JSON.stringify(json.errors)) *)
| TypeError                         (* property read on undefined or null *)
| RangeError.                       (* toISOString of an Invalid Date *)

(** Result of a synchronous call. *)
Inductive Completion (A : Type) : Type :=
| Normal (a : A)
| Throw (e : Exception).
Arguments Normal {A} a.
Arguments Throw {A} e.

(** [Unserved]: the script of upstream responses ran out before the loop
    stopped asking; the awaited call never resolves. *)
Inductive Outcome (A : Type) : Type :=
| Returned (a : A)
| Thrown (e : Exception)
| Unserved.
Arguments Returned {A} a.
Arguments Thrown {A} e.
Arguments Unserved {A}.

Definition bind {A B : Type} (m : Outcome A) (k : A -> Outcome B) : Outcome B :=
  match m with
  | Returned a => k a
  | Thrown e => Thrown e
  | Unserved => Unserved
  end.

(** ** Cursor pagination

    The three walks of the routes share one shape:
    [while (more) { json = await graphql(after); body }].  The upstream is
    the list of responses it serves, one per call, in order. *)

Section Paginate.
Context {Resp St : Type}.
Variable more : St -> bool.
Variable body : Resp -> St -> Completion St.

Fixpoint paginate (upstream : list Resp) (st : St) : Outcome St :=
  if more st then
    match upstream with
    | [] => Unserved
    | json :: rest =>
        match body json st with
        | Throw e => Thrown e
        | Normal st' => paginate rest st'
        end
    end
  else Returned st.

(** The responses the loop awaited before it stopped. *)
Fixpoint awaited (upstream : list Resp) (st : St) : list Resp :=
  if more st then
    match upstream with
    | [] => []
    | json :: rest =>
        json :: match body json st with
                | Throw _ => []
                | Normal st' => awaited rest st'
                end
    end
  else [].
End Paginate.

(** ** Arrays *)

Section ArraySort.
Context {A : Type}.
(** comparator: positive when the first argument goes after the second *)
Variable cmp : A -> A -> Q.

Fixpoint sort_insert (x : A) (l : list A) : list A :=
  match l with
  | [] => [x]
  | y :: l' => if Number_positive (cmp x y) then y :: sort_insert x l'
               else x :: l
  end.

(** [Array.prototype.sort(cmp)]: stable; an element moves behind another
    only when the comparator is positive on the pair. *)
Fixpoint Array_sort (l : list A) : list A :=
  match l with
  | [] => []
  | x :: l' => sort_insert x (Array_sort l')
  end.
End ArraySort.

(** [arr.slice(0, n)] *)
Definition Array_slice0 {A : Type} (n : nat) (l : list A) : list A := firstn n l.

(** [arr[i]] for a numeric index; [None] is [undefined]. *)
Definition Array_get {A : Type} (l : list A) (i : Z) : option A :=
  if i <? 0 then None else nth_error l (Z.to_nat i).

(** [arr.findIndex(p)] where [p] receives the element and its index. *)
Fixpoint findIndex_from {A : Type} (p : A -> Z -> bool) (i : Z) (l : list A) : Z :=
  match l with
  | [] => -1
  | x :: l' => if p x i then i else findIndex_from p (i + 1) l'
  end.

Definition Array_findIndex {A : Type} (p : A -> Z -> bool) (l : list A) : Z :=
  findIndex_from p 0 l.

(** ** Strings *)

Fixpoint String_startsWith (p s : string) : bool :=
  match p, s with
  | EmptyString, _ => true
  | String a p', String b s' => Ascii.eqb a b && String_startsWith p' s'
  | String _ _, EmptyString => false
  end.

(** [s.includes(q)] *)
Fixpoint String_includes (s q : string) : bool :=
  String_startsWith q s ||
  match s with
  | EmptyString => false
  | String _ s' => String_includes s' q
  end.

(** ** Dates (ECMAScript time values, milliseconds since the epoch) *)

Definition msPerDay : Z := 86400000.
Definition maxTime : Z := 8640000000000000.

Definition Day (t : Z) : Z := t / msPerDay.
Definition TimeWithinDay (t : Z) : Z := t mod msPerDay.

Definition isLeapYear (y : Z) : bool :=
  ((y mod 4 =? 0) && negb (y mod 100 =? 0)) || (y mod 400 =? 0).

Definition DayFromYear (y : Z) : Z :=
  365 * (y - 1970) + (y - 1969) / 4 - (y - 1901) / 100 + (y - 1601) / 400.

(** The largest [y] with [DayFromYear y <= Day t], found from the mean year
    length and one step of adjustment. *)
Definition YearFromTime (t : Z) : Z :=
  let d := Day t in
  let y0 := 1970 + (d * 10000) / 3652425 in
  if DayFromYear (y0 + 1) <=? d then y0 + 1
  else if DayFromYear y0 <=? d then y0
  else y0 - 1.

Definition InLeapYear (t : Z) : Z :=
  if isLeapYear (YearFromTime t) then 1 else 0.

Definition DayWithinYear (t : Z) : Z := Day t - DayFromYear (YearFromTime t).

(** Day number within the year of the first day of month [m] (0..11). *)
Definition monthStart (m leap : Z) : Z :=
  match m with
  | 0 => 0
  | 1 => 31
  | 2 => 59 + leap
  | 3 => 90 + leap
  | 4 => 120 + leap
  | 5 => 151 + leap
  | 6 => 181 + leap
  | 7 => 212 + leap
  | 8 => 243 + leap
  | 9 => 273 + leap
  | 10 => 304 + leap
  | _ => 334 + leap
  end.

Definition MonthFromTime (t : Z) : Z :=
  let d := DayWithinYear t in
  let l := InLeapYear t in
  if d <? 31 then 0
  else if d <? 59 + l then 1
  else if d <? 90 + l then 2
  else if d <? 120 + l then 3
  else if d <? 151 + l then 4
  else if d <? 181 + l then 5
  else if d <? 212 + l then 6
  else if d <? 243 + l then 7
  else if d <? 273 + l then 8
  else if d <? 304 + l then 9
  else if d <? 334 + l then 10
  else 11.

Definition DateFromTime (t : Z) : Z :=
  DayWithinYear t - monthStart (MonthFromTime t) (InLeapYear t) + 1.

Definition MakeTime (h m s ms : Z) : Z :=
  h * 3600000 + m * 60000 + s * 1000 + ms.

Definition MakeDay (year month date : Z) : Z :=
  let ym := year + month / 12 in
  let mn := month mod 12 in
  DayFromYear ym + monthStart mn (if isLeapYear ym then 1 else 0) + date - 1.

Definition MakeDate (day time : Z) : Z := day * msPerDay + time.

Definition TimeClip (t : Z) : option Z :=
  if Z.abs t >? maxTime then None else Some t.

(** Two-digit years are taken in the 1900s by [Date.UTC]. *)
Definition MakeFullYear (y : Z) : Z :=
  if (0 <=? y) && (y <=? 99) then 1900 + y else y.

(** A Date object is its time value; [None] is an Invalid Date. *)
Definition JsDate : Type := option Z.

Definition getUTCFullYear (d : JsDate) : option Z := option_map YearFromTime d.
Definition getUTCMonth (d : JsDate) : option Z := option_map MonthFromTime d.
Definition getUTCDate (d : JsDate) : option Z := option_map DateFromTime d.

(** [Date.UTC(y, m, d, h, mi, s)]; a NaN argument gives NaN. *)
Definition Date_UTC (y m d : option Z) (h mi s : Z) : option Z :=
  match y, m, d with
  | Some y, Some m, Some d =>
      TimeClip (MakeDate (MakeDay (MakeFullYear y) m d) (MakeTime h mi s 0))
  | _, _, _ => None
  end.

(** [date.setUTCDate(dt)], returning the updated Date. *)
Definition setUTCDate (date : JsDate) (dt : option Z) : JsDate :=
  match date, dt with
  | Some t, Some dt =>
      TimeClip (MakeDate (MakeDay (YearFromTime t) (MonthFromTime t) dt)
                         (TimeWithinDay t))
  | _, _ => None
  end.

(** [a > b] on Dates: false as soon as one side is NaN. *)
Definition Date_gt (a b : JsDate) : bool :=
  match a, b with
  | Some x, Some y => x >? y
  | _, _ => false
  end.

Definition Date_ge (a b : JsDate) : bool :=
  match a, b with
  | Some x, Some y => x >=? y
  | _, _ => false
  end.

Definition Date_lt (a b : JsDate) : bool := Date_gt b a.
Definition Date_le (a b : JsDate) : bool := Date_ge b a.

End Js.

Import Js.

(* ================================================================== *)
(** * The analytics route *)

Module Analytics.

Record Money := { amount : Q; currencyCode : string }.
(** [amount] holds the number the decimal string denotes, [Number(amount)];
    the empty string and a missing amount both give 0. *)

Record FirstOrderNode := { first_createdAt : option string }.

Record OrdersConnection := { first_nodes : option (list FirstOrderNode) }.

Record CustomerNode := {
  id : string;
  displayName : option string;
  email : option string;
  numberOfOrders : option Q;
  amountSpent : option Money;
  orders : option OrdersConnection
}.

(** An entry of [LoaderData["topCustomers"]]. *)
Module Top.
Record t := { id : string; name : string; email : string;
              totalSpent : Q; ordersCount : Q }.
End Top.

(** An entry of [LoaderData["newCustomers"]]. *)
Module New.
Record t := { id : string; name : string; email : string;
              firstOrderDate : string; totalSpent : Q; ordersCount : Q }.
End New.

Definition DEFAULT_RANGE_DAYS : Z := 30.
Definition PAGE_SIZE : Z := 250.
Definition MAX_CUSTOMERS : Z := 2000.
Definition MAX_ORDERS : Z := 2000.

(** ** Date range *)

Record DateRange := { start : JsDate; end_ : JsDate }.

Section WithHost.
Context `{Host}.

Definition parseDateParam (value : option string) (fallback : JsDate) : JsDate :=
  match value with
  | None => fallback
  | Some v =>
      if string_truthy v then
        match Date_parse (v ++ "T00:00:00Z") with
        | Some t => Some t
        | None => fallback
        end
      else fallback
  end.

(** [now] is the time value of [new Date()]; the two parameters are
    [url.searchParams.get("start")] and [url.searchParams.get("end")]. *)
Definition getDateRange (now : Z) (startParam endParam : option string) : DateRange :=
  let today : JsDate := Some now in
  let endDefault : JsDate :=
    Date_UTC (getUTCFullYear today) (getUTCMonth today) (getUTCDate today) 0 0 0 in
  let startDefault : JsDate :=
    setUTCDate endDefault
      (option_map (fun d => d - (DEFAULT_RANGE_DAYS - 1)) (getUTCDate endDefault)) in
  let startDate := parseDateParam startParam startDefault in
  let endDate := parseDateParam endParam endDefault in
  let normalizedStart : JsDate :=
    Date_UTC (getUTCFullYear startDate) (getUTCMonth startDate)
             (getUTCDate startDate) 0 0 0 in
  let normalizedEnd : JsDate :=
    Date_UTC (getUTCFullYear endDate) (getUTCMonth endDate)
             (getUTCDate endDate) 23 59 59 in
  if Date_gt normalizedStart normalizedEnd then
    {| start := startDefault; end_ := endDefault |}
  else
    {| start := normalizedStart; end_ := normalizedEnd |}.

End WithHost.

(** ** Customer walk *)

Definition insertTopCustomer (lst : list Top.t) (customer : Top.t) : list Top.t :=
  let next :=
    Array_sort (fun a b => (Top.totalSpent b - Top.totalSpent a)%Q)
               (lst ++ [customer])%list in
  Array_slice0 10 next.

(** One page of the [Customers] query. *)
Record CustomersPage := {
  nodes : list CustomerNode;
  hasNextPage : bool;
  endCursor : option string
}.

(** The body of one response: [json.errors] and [json.data.customers]. *)
Record CustomersResponse := {
  errors : JsValue;
  data : option CustomersPage
}.

(** The loop variables of [fetchAllCustomers]. *)
Record WalkState := {
  w_hasNextPage : bool;
  w_after : option string;
  w_customersCount : Z;
  w_totalClv : Q;
  w_topCustomers : list Top.t;
  w_currencyCode : string;
  w_truncated : bool
}.

Definition amountOf (customer : CustomerNode) : Q :=
  match amountSpent customer with
  | Some m => amount m
  | None => 0%Q
  end.

Definition nameOf (customer : CustomerNode) : string :=
  str_or (displayName customer) (str_or (email customer) "Unknown").

(** [customer.amountSpent?.currencyCode] when truthy *)
Definition currencyOf (customer : CustomerNode) : option string :=
  match amountSpent customer with
  | Some m => if string_truthy (currencyCode m) then Some (currencyCode m) else None
  | None => None
  end.

(** Body of [for (const customer of customers)]. *)
Definition visitCustomer (st : WalkState) (customer : CustomerNode) : WalkState :=
  let amount := amountOf customer in
  let ordersCount := num_or_zero (numberOfOrders customer) in
  let name := nameOf customer in
  let email := str_or (email customer) "-" in
  {| w_hasNextPage := w_hasNextPage st;
     w_after := w_after st;
     w_customersCount := w_customersCount st + 1;
     w_totalClv := (w_totalClv st + amount)%Q;
     w_topCustomers :=
       insertTopCustomer (w_topCustomers st)
         {| Top.id := id customer; Top.name := name; Top.email := email;
            Top.totalSpent := amount; Top.ordersCount := ordersCount |};
     w_currencyCode :=
       match currencyOf customer with
       | Some code => code
       | None => w_currencyCode st
       end;
     w_truncated := w_truncated st |}.

(** End of the loop body: page info, then the truncation note. *)
Definition turnPage (st : WalkState) (page : CustomersPage) : WalkState :=
  {| w_hasNextPage := hasNextPage page;
     w_after := endCursor page;
     w_customersCount := w_customersCount st;
     w_totalClv := w_totalClv st;
     w_topCustomers := w_topCustomers st;
     w_currencyCode := w_currencyCode st;
     w_truncated :=
       if (w_customersCount st >=? MAX_CUSTOMERS) && hasNextPage page then true
       else w_truncated st |}.

(** One turn of the loop, on the awaited response. *)
Definition pageBody (json : CustomersResponse) (st : WalkState)
  : Completion WalkState :=
  if truthy (errors json) then Throw (UpstreamError (errors json))
  else
    match data json with
    | None => Throw TypeError
    | Some page =>
        Normal (turnPage (fold_left visitCustomer (nodes page) st) page)
    end.

(** [hasNextPage && customersCount < MAX_CUSTOMERS] *)
Definition wantsMore (st : WalkState) : bool :=
  w_hasNextPage st && (w_customersCount st <? MAX_CUSTOMERS).

Definition walkCustomers (upstream : list CustomersResponse) (st : WalkState)
  : Outcome WalkState :=
  paginate wantsMore pageBody upstream st.

Record CustomerSummary := {
  customersCount : Z;
  totalClv : Q;
  averageClv : option Q;   (* [None]: not a finite number *)
  summaryCurrencyCode : string;
  topCustomers : list Top.t;
  truncated : bool
}.

Definition walkStart : WalkState :=
  {| w_hasNextPage := true; w_after := None; w_customersCount := 0;
     w_totalClv := 0%Q; w_topCustomers := []; w_currencyCode := "USD";
     w_truncated := false |}.

Definition summarize (st : WalkState) : CustomerSummary :=
  {| customersCount := w_customersCount st;
     totalClv := w_totalClv st;
     averageClv :=
       if w_customersCount st =? 0 then Some 0%Q
       else Number_div (w_totalClv st) (inject_Z (w_customersCount st));
     summaryCurrencyCode := w_currencyCode st;
     topCustomers := w_topCustomers st;
     truncated := w_truncated st |}.

Definition fetchAllCustomers (upstream : list CustomersResponse)
  : Outcome CustomerSummary :=
  bind (walkCustomers upstream walkStart) (fun st => Returned (summarize st)).

(** ** Order-window scanner *)

Record OrderNode := {
  createdAt : string;
  customer : option CustomerNode
}.

Record OrdersPage := {
  o_nodes : list OrderNode;
  o_hasNextPage : bool;
  o_endCursor : option string
}.

Record OrdersResponse := {
  o_errors : JsValue;
  o_data : option OrdersPage
}.

(** [Map<string, NewCustomer>]: entries in insertion order. *)
Definition NewCustomersMap : Type := list (string * New.t).

Definition Map_has (m : NewCustomersMap) (key : string) : bool :=
  existsb (fun kv => String.eqb (fst kv) key) m.

Fixpoint Map_set (m : NewCustomersMap) (key : string) (v : New.t) : NewCustomersMap :=
  match m with
  | [] => [(key, v)]
  | (k, old) :: m' =>
      if String.eqb k key then (k, v) :: m' else (k, old) :: Map_set m' key v
  end.

Definition Map_values (m : NewCustomersMap) : list New.t := map snd m.

Record ScanState := {
  s_hasNextPage : bool;
  s_after : option string;
  s_ordersCount : Z;
  s_truncated : bool;
  s_usedFallback : bool;
  s_newCustomersMap : NewCustomersMap
}.

(** [customer.orders?.nodes?.[0]?.createdAt || null] *)
Definition firstOrderDateRawOf (customer : CustomerNode) : option string :=
  match orders customer with
  | Some conn =>
      match first_nodes conn with
      | Some (node :: _) => str_or_null (first_createdAt node)
      | _ => None
      end
  | None => None
  end.

Section WithHost.
Context `{Host}.

(** Body of [for (const order of orders)]. *)
Definition visitOrder (start end_ : JsDate) (st : ScanState) (order : OrderNode)
  : ScanState :=
  let counted :=
    {| s_hasNextPage := s_hasNextPage st; s_after := s_after st;
       s_ordersCount := s_ordersCount st + 1;
       s_truncated := s_truncated st; s_usedFallback := s_usedFallback st;
       s_newCustomersMap := s_newCustomersMap st |} in
  match customer order with
  | None => counted
  | Some customer =>
      if negb (string_truthy (id customer)) then counted
      else
        let amount := amountOf customer in
        let ordersCountCustomer := num_or_zero (numberOfOrders customer) in
        let name := nameOf customer in
        let email := str_or (email customer) "-" in
        let firstOrderDateRaw := firstOrderDateRawOf customer in
        (* (usedFallback, isNewCustomer, firstOrderDate) after the if/else-if *)
        let '(usedFallback, isNewCustomer, firstOrderDate) :=
          match firstOrderDateRaw with
          | Some raw =>
              let firstOrder : JsDate := Date_parse raw in
              (s_usedFallback st,
               Date_ge firstOrder start && Date_le firstOrder end_,
               raw)
          | None =>
              if Qeq_bool ordersCountCustomer 1
              then (true, true, createdAt order)
              else (s_usedFallback st, false, "")
          end in
        let flagged :=
          {| s_hasNextPage := s_hasNextPage st; s_after := s_after st;
             s_ordersCount := s_ordersCount st + 1;
             s_truncated := s_truncated st; s_usedFallback := usedFallback;
             s_newCustomersMap := s_newCustomersMap st |} in
        if negb isNewCustomer then flagged
        else if Map_has (s_newCustomersMap st) (id customer) then flagged
        else
          {| s_hasNextPage := s_hasNextPage st; s_after := s_after st;
             s_ordersCount := s_ordersCount st + 1;
             s_truncated := s_truncated st; s_usedFallback := usedFallback;
             s_newCustomersMap :=
               Map_set (s_newCustomersMap st) (id customer)
                 {| New.id := id customer; New.name := name; New.email := email;
                    New.firstOrderDate :=
                      if string_truthy firstOrderDate then firstOrderDate
                      else createdAt order;
                    New.totalSpent := amount;
                    New.ordersCount := ordersCountCustomer |} |}
  end.

Definition turnOrdersPage (st : ScanState) (page : OrdersPage) : ScanState :=
  {| s_hasNextPage := o_hasNextPage page;
     s_after := o_endCursor page;
     s_ordersCount := s_ordersCount st;
     s_truncated :=
       if (s_ordersCount st >=? MAX_ORDERS) && o_hasNextPage page then true
       else s_truncated st;
     s_usedFallback := s_usedFallback st;
     s_newCustomersMap := s_newCustomersMap st |}.

Definition ordersPageBody (start end_ : JsDate) (json : OrdersResponse)
  (st : ScanState) : Completion ScanState :=
  if truthy (o_errors json) then Throw (UpstreamError (o_errors json))
  else
    match o_data json with
    | None => Throw TypeError
    | Some page =>
        Normal (turnOrdersPage
                  (fold_left (visitOrder start end_) (o_nodes page) st) page)
    end.

(** [hasNextPage && ordersCount < MAX_ORDERS] *)
Definition wantsMoreOrders (st : ScanState) : bool :=
  s_hasNextPage st && (s_ordersCount st <? MAX_ORDERS).

Definition scanOrders (start end_ : JsDate) (upstream : list OrdersResponse)
  (st : ScanState) : Outcome ScanState :=
  paginate wantsMoreOrders (ordersPageBody start end_) upstream st.

Record OrdersSummary := {
  newCustomers : list New.t;
  ordersTruncated : bool;
  usedFallback : bool
}.

Definition scanStart : ScanState :=
  {| s_hasNextPage := true; s_after := None; s_ordersCount := 0;
     s_truncated := false; s_usedFallback := false; s_newCustomersMap := [] |}.

(** The search query, built before the loop from [start.toISOString()]
    and [end.toISOString()]: the two time values it prints, and a RangeError
    when one of the dates is an Invalid Date. *)
Definition searchQuery (start end_ : JsDate) : Completion (Z * Z) :=
  match start, end_ with
  | Some s, Some e => Normal (s, e)
  | _, _ => Throw RangeError
  end.

Definition fetchOrdersInRange (start end_ : JsDate) (upstream : list OrdersResponse)
  : Outcome OrdersSummary :=
  match searchQuery start end_ with
  | Throw e => Thrown e
  | Normal _ =>
      bind (scanOrders start end_ upstream scanStart) (fun st =>
        Returned
          {| newCustomers :=
               Array_sort
                 (fun a b => inject_Z (String_localeCompare (New.firstOrderDate a)
                                                            (New.firstOrderDate b)))
                 (Map_values (s_newCustomersMap st));
             ordersTruncated := s_truncated st;
             usedFallback := s_usedFallback st |})
  end.

End WithHost.

End Analytics.

(* ================================================================== *)
(** * The report route *)

Module Report.

Record Money := { amount : Q; currencyCode : string }.

Record FirstOrderNode := { first_createdAt : option string }.

Record OrdersConnection := { first_nodes : option (list FirstOrderNode) }.

Record CustomerNode := {
  id : string;
  displayName : option string;
  email : option string;
  createdAt : option string;
  numberOfOrders : option Q;
  tags : option (list string);
  amountSpent : option Money;
  orders : option OrdersConnection
}.

(** An entry of [LoaderData["customers"]]. *)
Module Row.
Record t := { id : string; name : string; email : string;
              totalSpent : Q; ordersCount : Q;
              createdAt : option string; firstOrderDate : option string;
              tags : list string }.
End Row.

Inductive SortKey : Type := ltv_desc | ltv_asc | orders_desc | orders_asc.

Inductive TagsMode : Type := any | all.

(** ** CSV *)

Definition quote : ascii := "034"%char.
Definition comma : ascii := ","%char.
Definition newline : ascii := "010"%char.

(** The regular-expression test of [escapeCsv]: the text holds a double
    quote, a comma or a line feed. *)
Fixpoint needsQuoting (text : string) : bool :=
  match text with
  | EmptyString => false
  | String c rest =>
      Ascii.eqb c quote || Ascii.eqb c comma || Ascii.eqb c newline
      || needsQuoting rest
  end.

(** The global replace of [escapeCsv]: every double quote is written
    twice. *)
Fixpoint doubleQuotes (text : string) : string :=
  match text with
  | EmptyString => EmptyString
  | String c rest =>
      if Ascii.eqb c quote then String quote (String quote (doubleQuotes rest))
      else String c (doubleQuotes rest)
  end.

(** The argument of [escapeCsv]: [string | number | null]. *)
Inductive CsvValue : Type :=
| CsvNull
| CsvText (s : string)
| CsvNumber (n : Q).

Section WithHost.
Context `{Host}.

Definition escapeCsv (value : CsvValue) : string :=
  match value with
  | CsvNull => ""
  | _ =>
      let text :=
        match value with
        | CsvNumber n => Number_toString n
        | CsvText s => s
        | CsvNull => ""
        end in
      if needsQuoting text
      then String quote (doubleQuotes text ++ String quote EmptyString)%string
      else text
  end.

(** ** Histogram buckets *)

Record Bucket := { label : string; count : Z }.

Fixpoint mapi_from {A B : Type} (f : A -> Z -> B) (i : Z) (l : list A) : list B :=
  match l with
  | [] => []
  | x :: l' => f x i :: mapi_from f (i + 1) l'
  end.

(** [arr.map((x, index) => ...)] *)
Definition Array_mapi {A B : Type} (f : A -> Z -> B) (l : list A) : list B :=
  mapi_from f 0 l.

Fixpoint replace_nth {A : Type} (n : nat) (v : A) (l : list A) : list A :=
  match l, n with
  | [], _ => []
  | _ :: l', O => v :: l'
  | x :: l', S n' => x :: replace_nth n' v l'
  end.

(** [buckets[bucketIndex].count += 1]; reading [count] of [undefined]
    throws. *)
Definition bumpCount (buckets : list Bucket) (bucketIndex : Z)
  : Completion (list Bucket) :=
  match Array_get buckets bucketIndex with
  | None => Throw TypeError
  | Some b =>
      Normal (replace_nth (Z.to_nat bucketIndex)
                {| label := label b; count := count b + 1 |} buckets)
  end.

Definition bucketOf (edges : list Q) (value : Q) : Z :=
  Array_findIndex
    (fun edge i =>
       match Array_get edges (i + 1) with
       | None => Qle_bool edge value
       | Some next => Qle_bool edge value && negb (Qle_bool next value)
       end)
    edges.

Fixpoint countValues (edges : list Q) (values : list Q) (buckets : list Bucket)
  : Completion (list Bucket) :=
  match values with
  | [] => Normal buckets
  | value :: rest =>
      let index := bucketOf edges value in
      let bucketIndex :=
        if index =? -1 then Z.of_nat (List.length buckets) - 1 else index in
      match bumpCount buckets bucketIndex with
      | Throw e => Throw e
      | Normal buckets' => countValues edges rest buckets'
      end
  end.

Definition buildBuckets (values edges : list Q) : Completion (list Bucket) :=
  let buckets :=
    Array_mapi
      (fun edge index =>
         {| label :=
              if index =? Z.of_nat (List.length edges) - 1
              then (Number_toString edge ++ "+")%string
              else (Number_toString edge ++ "-" ++
                    match Array_get edges (index + 1) with
                    | Some next => Number_toString (next - 1)%Q
                    | None => "NaN"
                    end)%string;
            count := 0 |})
      edges in
  countValues edges values buckets.

(** ** Customer walk (no cap) *)

Record CustomersPage := {
  nodes : list CustomerNode;
  hasNextPage : bool;
  endCursor : option string
}.

Record CustomersResponse := {
  errors : JsValue;
  data : option CustomersPage
}.

Record WalkState := {
  w_hasNextPage : bool;
  w_after : option string;
  w_currencyCode : string;
  w_customers : list Row.t
}.

Definition amountOf (customer : CustomerNode) : Q :=
  match amountSpent customer with
  | Some m => amount m
  | None => 0%Q
  end.

Definition currencyOf (customer : CustomerNode) : option string :=
  match amountSpent customer with
  | Some m => if string_truthy (currencyCode m) then Some (currencyCode m) else None
  | None => None
  end.

Definition firstOrderDateOf (customer : CustomerNode) : option string :=
  match orders customer with
  | Some conn =>
      match first_nodes conn with
      | Some (node :: _) => str_or_null (first_createdAt node)
      | _ => None
      end
  | None => None
  end.

(** Body of [for (const customer of nodes)]. *)
Definition visitCustomer (st : WalkState) (customer : CustomerNode) : WalkState :=
  let amount := amountOf customer in
  let ordersCount := num_or_zero (numberOfOrders customer) in
  let name := str_or (displayName customer) (str_or (email customer) "Unknown") in
  let email := str_or (email customer) "-" in
  let createdAt := str_or_null (createdAt customer) in
  let firstOrderDate := firstOrderDateOf customer in
  let tags :=
    map String_toLowerCase
        (match tags customer with Some ts => ts | None => [] end) in
  {| w_hasNextPage := w_hasNextPage st;
     w_after := w_after st;
     w_currencyCode :=
       match currencyOf customer with
       | Some code => code
       | None => w_currencyCode st
       end;
     w_customers :=
       (w_customers st ++
        [ {| Row.id := id customer; Row.name := name; Row.email := email;
             Row.totalSpent := amount; Row.ordersCount := ordersCount;
             Row.createdAt := createdAt; Row.firstOrderDate := firstOrderDate;
             Row.tags := tags |} ])%list |}.

Definition turnPage (st : WalkState) (page : CustomersPage) : WalkState :=
  {| w_hasNextPage := hasNextPage page;
     w_after := endCursor page;
     w_currencyCode := w_currencyCode st;
     w_customers := w_customers st |}.

Definition pageBody (json : CustomersResponse) (st : WalkState)
  : Completion WalkState :=
  if truthy (errors json) then Throw (UpstreamError (errors json))
  else
    match data json with
    | None => Throw TypeError
    | Some page =>
        Normal (turnPage (fold_left visitCustomer (nodes page) st) page)
    end.

(** [while (hasNextPage)] *)
Definition walkCustomers (upstream : list CustomersResponse) (st : WalkState)
  : Outcome WalkState :=
  paginate w_hasNextPage pageBody upstream st.

Record Fetched := { customers : list Row.t; fetchedCurrencyCode : string }.

Definition walkStart : WalkState :=
  {| w_hasNextPage := true; w_after := None; w_currencyCode := "USD";
     w_customers := [] |}.

Definition fetchAllCustomers (upstream : list CustomersResponse)
  : Outcome Fetched :=
  bind (walkCustomers upstream walkStart) (fun st =>
    Returned {| customers := w_customers st;
                fetchedCurrencyCode := w_currencyCode st |}).

(** ** Sort *)

Definition sortCustomers (customers : list Row.t) (sort : SortKey) : list Row.t :=
  let sorted := customers in
  match sort with
  | ltv_asc =>
      Array_sort (fun a b =>
        num_or (Row.totalSpent a - Row.totalSpent b)%Q
               (Row.ordersCount a - Row.ordersCount b)%Q) sorted
  | ltv_desc =>
      Array_sort (fun a b =>
        num_or (Row.totalSpent b - Row.totalSpent a)%Q
               (Row.ordersCount b - Row.ordersCount a)%Q) sorted
  | orders_asc =>
      Array_sort (fun a b =>
        num_or (Row.ordersCount a - Row.ordersCount b)%Q
               (Row.totalSpent a - Row.totalSpent b)%Q) sorted
  | orders_desc =>
      Array_sort (fun a b =>
        num_or (Row.ordersCount b - Row.ordersCount a)%Q
               (Row.totalSpent b - Row.totalSpent a)%Q) sorted
  end.

(** ** Filter *)

(** The parsed query parameters the filter callback of [loader] closes
    over. *)
Record Criteria := {
  query : string;
  minOrdersValue : option Q;
  maxOrdersValue : option Q;
  minSpentValue : option Q;
  maxSpentValue : option Q;
  tagsList : list string;
  tagsMode : TagsMode;
  createdStartDate : option Z;
  createdEndDate : option Z;
  firstOrderStartDate : option Z;
  firstOrderEndDate : option Z
}.

(** [tagsList.every(hasTag)] or [tagsList.some(hasTag)] *)
Definition tagsMatch (mode : TagsMode) (tagsList : list string) (customer : Row.t)
  : bool :=
  let hasTag := fun tag => existsb (String.eqb tag) (Row.tags customer) in
  match mode with
  | all => forallb hasTag tagsList
  | any => existsb hasTag tagsList
  end.

(** A date-range block of the callback: [true] when the customer is
    rejected. *)
Definition outsideRange (value : option string) (lo hi : option Z) : bool :=
  match lo, hi with
  | None, None => false
  | _, _ =>
      match str_or_null value with
      | None => true
      | Some v =>
          let d : JsDate := Date_parse v in
          match lo with
          | Some l => Date_lt d (Some l)
          | None => false
          end
          ||
          match hi with
          | Some h => Date_gt d (Some h)
          | None => false
          end
      end
  end.

(** [a < b] on numbers *)
Definition Number_lt (a b : Q) : bool := negb (Qle_bool b a).

(** The callback of [customers.filter(...)] in [loader]. *)
Definition keepCustomer (c : Criteria) (customer : Row.t) : bool :=
  if string_truthy (query c)
     && negb (String_includes (String_toLowerCase (Row.name customer)) (query c))
     && negb (String_includes (String_toLowerCase (Row.email customer)) (query c))
  then false
  else if match minOrdersValue c with
          | Some v => Number_lt (Row.ordersCount customer) v
          | None => false
          end
  then false
  else if match maxOrdersValue c with
          | Some v => Number_lt v (Row.ordersCount customer)
          | None => false
          end
  then false
  else if match minSpentValue c with
          | Some v => Number_lt (Row.totalSpent customer) v
          | None => false
          end
  then false
  else if match maxSpentValue c with
          | Some v => Number_lt v (Row.totalSpent customer)
          | None => false
          end
  then false
  else if negb (List.length (tagsList c) =? 0)%nat
          && negb (tagsMatch (tagsMode c) (tagsList c) customer)
  then false
  else if outsideRange (Row.createdAt customer)
            (createdStartDate c) (createdEndDate c)
  then false
  else if outsideRange (Row.firstOrderDate customer)
            (firstOrderStartDate c) (firstOrderEndDate c)
  then false
  else true.

Definition filtered (c : Criteria) (customers : list Row.t) : list Row.t :=
  filter (keepCustomer c) customers.

End WithHost.

End Report.

(* ================================================================== *)
(** * A concrete host

    An instance of the host interface on which the routes can be run:
    timestamps in the format [YYYY-MM-DDTHH:mm:ssZ], ASCII case folding,
    comparison by character codes, numbers printed by their integer part. *)

Module SampleHost.

Definition digit (c : ascii) : option Z :=
  let n := Z.of_nat (nat_of_ascii c) in
  if (48 <=? n) && (n <=? 57) then Some (n - 48) else None.

(** Reads exactly [n] decimal digits. *)
Fixpoint digits (n : nat) (acc : Z) (s : string) : option (Z * string) :=
  match n with
  | O => Some (acc, s)
  | S n' =>
      match s with
      | String c rest =>
          match digit c with
          | Some d => digits n' (10 * acc + d) rest
          | None => None
          end
      | EmptyString => None
      end
  end.

Definition expect (c : ascii) (s : string) : option string :=
  match s with
  | String c' rest => if Ascii.eqb c c' then Some rest else None
  | EmptyString => None
  end.

Definition andThen {A B : Type} (m : option A) (k : A -> option B) : option B :=
  match m with Some a => k a | None => None end.

Notation "'let?' x ':=' m 'in' k" := (andThen m (fun x => k))
  (at level 10, x pattern, m at level 100, k at level 200).

Definition parseTimestamp (s : string) : option Z :=
  let? (y, s) := digits 4 0 s in
  let? s := expect "-" s in
  let? (mo, s) := digits 2 0 s in
  let? s := expect "-" s in
  let? (d, s) := digits 2 0 s in
  let? s := expect "T" s in
  let? (h, s) := digits 2 0 s in
  let? s := expect ":" s in
  let? (mi, s) := digits 2 0 s in
  let? s := expect ":" s in
  let? (sec, s) := digits 2 0 s in
  let? s := expect "Z" s in
  match s with
  | EmptyString =>
      if (1 <=? mo) && (mo <=? 12) && (1 <=? d) && (d <=? 31)
         && (h <=? 23) && (mi <=? 59) && (sec <=? 59)
      then TimeClip (MakeDate (MakeDay y (mo - 1) d) (MakeTime h mi sec 0))
      else None
  | String _ _ => None
  end.

Definition lowerChar (c : ascii) : ascii :=
  let n := nat_of_ascii c in
  if (65 <=? n)%nat && (n <=? 90)%nat then ascii_of_nat (n + 32) else c.

Fixpoint lower (s : string) : string :=
  match s with
  | EmptyString => EmptyString
  | String c rest => String (lowerChar c) (lower rest)
  end.

Definition ordinalCompare (a b : string) : Z :=
  match String.compare a b with
  | Lt => -1
  | Eq => 0
  | Gt => 1
  end.

Definition integerPart (q : Q) : string :=
  NilZero.string_of_int (Z.to_int (Qnum q / Zpos (Qden q))).

#[global] Instance host : Host := {
  Date_parse := parseTimestamp;
  String_toLowerCase := lower;
  String_localeCompare := ordinalCompare;
  Number_toString := integerPart
}.

End SampleHost.


(* ================================================================== *)
(** * Notions the properties are stated with *)

Module Notions.

(** Total of the counts of a histogram. *)
Definition sumCounts (buckets : list Report.Bucket) : Z :=
  fold_right (fun b acc => Report.count b + acc) 0 buckets.

(** Lexicographic order: by [primary], ties by [secondary], both
    ascending. *)
Definition lexLe {A : Type} (primary secondary : A -> Q) (a b : A) : Prop :=
  (primary a < primary b
   \/ (primary a == primary b /\ secondary a <= secondary b))%Q.

(** [a] may stand before [b] in a report sorted by [sort]: the primary
    metric in the requested direction, ties by the other metric in the
    same direction. *)
Definition ordered (sort : Report.SortKey) (a b : Report.Row.t) : Prop :=
  match sort with
  | Report.ltv_asc => lexLe Report.Row.totalSpent Report.Row.ordersCount a b
  | Report.ltv_desc => lexLe Report.Row.totalSpent Report.Row.ordersCount b a
  | Report.orders_asc => lexLe Report.Row.ordersCount Report.Row.totalSpent a b
  | Report.orders_desc => lexLe Report.Row.ordersCount Report.Row.totalSpent b a
  end.

(** Descending by spend. *)
Definition spendDesc (a b : Analytics.Top.t) : Prop :=
  (Analytics.Top.totalSpent b <= Analytics.Top.totalSpent a)%Q.

(** The character occurs in the text. *)
Definition mentions (c : ascii) (text : string) : Prop :=
  In c (list_ascii_of_string text).

(** A reader of one CSV record: fields are separated by commas; a field
    that opens with a double quote runs to its closing double quote, and
    inside it two double quotes in a row stand for one.  [quoted] tells
    whether the reader is inside a quoted field, [field] is the text of the
    current field read so far. *)
Fixpoint readCsv (text : string) (quoted : bool) (field : string) : list string :=
  match text with
  | EmptyString => [field]
  | String c rest =>
      if quoted then
        if Ascii.eqb c Report.quote then
          match rest with
          | String c' rest' =>
              if Ascii.eqb c' Report.quote
              then readCsv rest' true (field ++ String Report.quote EmptyString)
              else readCsv rest false field
          | EmptyString => [field]
          end
        else readCsv rest true (field ++ String c EmptyString)
      else if Ascii.eqb c Report.comma then field :: readCsv rest false EmptyString
      else if Ascii.eqb c Report.quote && negb (string_truthy field)
           then readCsv rest true EmptyString
      else readCsv rest false (field ++ String c EmptyString)
  end.

(** The same request with [tags_mode] set to [mode]. *)
Definition withTagsMode (mode : Report.TagsMode) (c : Report.Criteria)
  : Report.Criteria :=
  {| Report.query := Report.query c;
     Report.minOrdersValue := Report.minOrdersValue c;
     Report.maxOrdersValue := Report.maxOrdersValue c;
     Report.minSpentValue := Report.minSpentValue c;
     Report.maxSpentValue := Report.maxSpentValue c;
     Report.tagsList := Report.tagsList c;
     Report.tagsMode := mode;
     Report.createdStartDate := Report.createdStartDate c;
     Report.createdEndDate := Report.createdEndDate c;
     Report.firstOrderStartDate := Report.firstOrderStartDate c;
     Report.firstOrderEndDate := Report.firstOrderEndDate c |}.

(** The currency code of the last of [customers] that carries a non-empty
    one, ["USD"] when none does. *)
Definition currencyCodes {Node : Type} (currencyOf : Node -> option string)
  (customers : list Node) : list string :=
  flat_map (fun customer =>
              match currencyOf customer with
              | Some code => [code]
              | None => []
              end) customers.

Definition lastCurrencyCode {Node : Type} (currencyOf : Node -> option string)
  (customers : list Node) : string :=
  last (currencyCodes currencyOf customers) "USD".

(** The customer carries the currency code [code]: there is an amount
    spent, and its currency code is [code], a text that is not empty. *)
Definition analyticsCarries (customer : Analytics.CustomerNode) (code : string)
  : Prop :=
  exists money,
    Analytics.amountSpent customer = Some money
    /\ Analytics.currencyCode money = code
    /\ code <> "".

Definition reportCarries (customer : Report.CustomerNode) (code : string)
  : Prop :=
  exists money,
    Report.amountSpent customer = Some money
    /\ Report.currencyCode money = code
    /\ code <> "".

(** [reported] is the code carried by the last of [customers] that carries
    one, and USD when none of them carries one. *)
Definition lastCarried {Node : Type} (carries : Node -> string -> Prop)
  (customers : list Node) (reported : string) : Prop :=
  (exists before customer after,
     customers = (before ++ customer :: after)%list
     /\ carries customer reported
     /\ forall later code, In later after -> ~ carries later code)
  \/ ((forall customer code, In customer customers -> ~ carries customer code)
      /\ reported = "USD").

(** The customers a walk has fetched, in upstream page order: the nodes of
    the responses it awaited. *)
Definition analyticsFetched (upstream : list Analytics.CustomersResponse)
  : list Analytics.CustomerNode :=
  flat_map (fun json => match Analytics.data json with
                        | Some page => Analytics.nodes page
                        | None => []
                        end)
           (awaited Analytics.wantsMore Analytics.pageBody upstream
                    Analytics.walkStart).

Definition reportFetched `{Host} (upstream : list Report.CustomersResponse)
  : list Report.CustomerNode :=
  flat_map (fun json => match Report.data json with
                        | Some page => Report.nodes page
                        | None => []
                        end)
           (awaited Report.w_hasNextPage Report.pageBody upstream
                    Report.walkStart).

(** The orders a scan has visited, in upstream order. *)
Definition scannedOrders `{Host} (start end_ : JsDate)
  (upstream : list Analytics.OrdersResponse) : list Analytics.OrderNode :=
  flat_map (fun json => match Analytics.o_data json with
                        | Some page => Analytics.o_nodes page
                        | None => []
                        end)
           (awaited Analytics.wantsMoreOrders
                    (Analytics.ordersPageBody start end_) upstream
                    Analytics.scanStart).

(** The order is placed by [customer], who has an id, no resolvable
    first-order timestamp and a lifetime order count of exactly 1. *)
Definition viaFallback (order : Analytics.OrderNode)
  (customer : Analytics.CustomerNode) : Prop :=
  Analytics.customer order = Some customer
  /\ string_truthy (Analytics.id customer) = true
  /\ Analytics.firstOrderDateRawOf customer = None
  /\ (num_or_zero (Analytics.numberOfOrders customer) == 1)%Q.

(** No order of [orders] is placed by a customer with this id. *)
Definition unseen (key : string) (orders : list Analytics.OrderNode) : Prop :=
  Forall (fun o => forall c, Analytics.customer o = Some c -> Analytics.id c <> key)
         orders.

(** Keys are unique and each entry is filed under its own id. *)
Definition wellKeyed (m : Analytics.NewCustomersMap) : Prop :=
  NoDup (map fst m) /\ forall k v, In (k, v) m -> Analytics.New.id v = k.

(** [json.errors] is an array holding at least one error. *)
Definition nonEmptyArray (v : JsValue) : bool :=
  match v with
  | JsArray (_ :: _) => true
  | _ => false
  end.

End Notions.

(* ================================================================== *)
(** * Sample data *)

Module Samples.

(** A report row that only carries its two metrics. *)
Definition row (spent orders : Q) : Report.Row.t :=
  {| Report.Row.id := ""; Report.Row.name := ""; Report.Row.email := "";
     Report.Row.totalSpent := spent; Report.Row.ordersCount := orders;
     Report.Row.createdAt := None; Report.Row.firstOrderDate := None;
     Report.Row.tags := [] |}.

(** The name O'Brien, Jr. followed by VIP in double quotes. *)
Definition obrien : string :=
  "O'Brien, Jr. " ++ String Report.quote ("VIP" ++ String Report.quote "").

(** The same name as one CSV field: wrapped in double quotes, the inner
    ones doubled. *)
Definition obrienCsv : string :=
  String Report.quote
    ("O'Brien, Jr. " ++
     String Report.quote (String Report.quote
       ("VIP" ++ String Report.quote (String Report.quote
          (String Report.quote ""))))).

(** Two pages of the analytics [Customers] query: three customers, the
    second with an empty currency code, the third without an amount. *)
Definition ann : Analytics.CustomerNode :=
  {| Analytics.id := "gid://shopify/Customer/1";
     Analytics.displayName := Some "Ann";
     Analytics.email := Some "ann@example.com";
     Analytics.numberOfOrders := Some 2%Q;
     Analytics.amountSpent :=
       Some {| Analytics.amount := 120%Q; Analytics.currencyCode := "EUR" |};
     Analytics.orders := None |}.

Definition bob : Analytics.CustomerNode :=
  {| Analytics.id := "gid://shopify/Customer/2";
     Analytics.displayName := None;
     Analytics.email := Some "bob@example.com";
     Analytics.numberOfOrders := Some 1%Q;
     Analytics.amountSpent :=
       Some {| Analytics.amount := 80%Q; Analytics.currencyCode := "" |};
     Analytics.orders := None |}.

Definition cyd : Analytics.CustomerNode :=
  {| Analytics.id := "gid://shopify/Customer/3";
     Analytics.displayName := None;
     Analytics.email := None;
     Analytics.numberOfOrders := None;
     Analytics.amountSpent := None;
     Analytics.orders := None |}.

Definition analyticsPages : list Analytics.CustomersResponse :=
  [ {| Analytics.errors := JsUndefined;
       Analytics.data :=
         Some {| Analytics.nodes := [ann; bob];
                 Analytics.hasNextPage := true;
                 Analytics.endCursor := Some "cursor-1" |} |};
    {| Analytics.errors := JsUndefined;
       Analytics.data :=
         Some {| Analytics.nodes := [cyd];
                 Analytics.hasNextPage := false;
                 Analytics.endCursor := None |} |} ].

(** One page of the report [Customers] query. *)
Definition reportPages : list Report.CustomersResponse :=
  [ {| Report.errors := JsUndefined;
       Report.data :=
         Some {| Report.nodes :=
                   [ {| Report.id := "gid://shopify/Customer/1";
                        Report.displayName := Some "Ann";
                        Report.email := Some "ann@example.com";
                        Report.createdAt := Some "2023-11-02T09:00:00Z";
                        Report.numberOfOrders := Some 2%Q;
                        Report.tags := Some ["VIP"; "Wholesale"];
                        Report.amountSpent :=
                          Some {| Report.amount := 120%Q;
                                  Report.currencyCode := "CAD" |};
                        Report.orders := None |} ];
                 Report.hasNextPage := false;
                 Report.endCursor := None |} |} ].

(** January 2024 as a window, and a customer whose single order of
    2024-01-05 is all the upstream knows: the count says 1, the first-order
    lookup is empty. *)
Definition january : JsDate * JsDate :=
  (Some 1704067200000, Some 1706745599000).

Definition dee : Analytics.CustomerNode :=
  {| Analytics.id := "gid://shopify/Customer/4";
     Analytics.displayName := Some "Dee";
     Analytics.email := Some "dee@example.com";
     Analytics.numberOfOrders := Some 1%Q;
     Analytics.amountSpent :=
       Some {| Analytics.amount := 35%Q; Analytics.currencyCode := "USD" |};
     Analytics.orders := Some {| Analytics.first_nodes := Some [] |} |}.

Definition order5 : Analytics.OrderNode :=
  {| Analytics.createdAt := "2024-01-05T10:00:00Z";
     Analytics.customer := Some dee |}.

Definition order6 : Analytics.OrderNode :=
  {| Analytics.createdAt := "2024-01-06T16:30:00Z";
     Analytics.customer := Some dee |}.

Definition ordersPage (orders : list Analytics.OrderNode)
  : list Analytics.OrdersResponse :=
  [ {| Analytics.o_errors := JsUndefined;
       Analytics.o_data :=
         Some {| Analytics.o_nodes := orders;
                 Analytics.o_hasNextPage := false;
                 Analytics.o_endCursor := None |} |} ].

End Samples.

From Stdlib Require Import Qround.

(* ================================================================== *)
(** * Further notions *)

Module MoreNotions.

(** The entry [visitCustomer] offers to the top list for a customer. *)
Definition topEntryOf (customer : Analytics.CustomerNode) : Analytics.Top.t :=
  {| Analytics.Top.id := Analytics.id customer;
     Analytics.Top.name := Analytics.nameOf customer;
     Analytics.Top.email := str_or (Analytics.email customer) "-";
     Analytics.Top.totalSpent := Analytics.amountOf customer;
     Analytics.Top.ordersCount := num_or_zero (Analytics.numberOfOrders customer) |}.

(** An upstream page of [n] customers that announces a next page. *)
Definition pageOf (n : nat) : Analytics.CustomersResponse :=
  {| Analytics.errors := JsUndefined;
     Analytics.data :=
       Some {| Analytics.nodes := repeat Samples.cyd n;
               Analytics.hasNextPage := true;
               Analytics.endCursor := Some "next" |} |}.

(** A shop with many customers: seven full pages, a page of 249 and one
    more full page. *)
Definition crowdedPages : list Analytics.CustomersResponse :=
  map pageOf (repeat 250%nat 7 ++ [249%nat; 250%nat]).

(** The page the analytics walk awaited last. *)
Definition lastCustomersPage (upstream : list Analytics.CustomersResponse)
  : option Analytics.CustomersPage :=
  match rev (awaited Analytics.wantsMore Analytics.pageBody upstream
                     Analytics.walkStart) with
  | json :: _ => Analytics.data json
  | [] => None
  end.

(** The page the order scan awaited last. *)
Definition lastOrdersPage `{Host} (start end_ : JsDate)
  (upstream : list Analytics.OrdersResponse) : option Analytics.OrdersPage :=
  match rev (awaited Analytics.wantsMoreOrders
                     (Analytics.ordersPageBody start end_) upstream
                     Analytics.scanStart) with
  | json :: _ => Analytics.o_data json
  | [] => None
  end.

(** The customer's own first order lies in the window. *)
Definition firstOrderInWindow `{Host} (start end_ : JsDate)
  (customer : Analytics.CustomerNode) (raw : string) : Prop :=
  Analytics.firstOrderDateRawOf customer = Some raw
  /\ Date_ge (Date_parse raw) start && Date_le (Date_parse raw) end_ = true.

(** The order qualifies its customer as new: the customer has an id and
    either the customer's own first order lies in the window or the fallback
    applies. *)
Definition qualifies `{Host} (start end_ : JsDate)
  (order : Analytics.OrderNode) (customer : Analytics.CustomerNode) : Prop :=
  Analytics.customer order = Some customer
  /\ string_truthy (Analytics.id customer) = true
  /\ ((exists raw, firstOrderInWindow start end_ customer raw)
      \/ Notions.viaFallback order customer).

(** [entry] is what the scanner files for [customer] on [order]. *)
Definition filedFor `{Host} (start end_ : JsDate)
  (order : Analytics.OrderNode) (customer : Analytics.CustomerNode)
  (entry : Analytics.New.t) : Prop :=
  qualifies start end_ order customer
  /\ Analytics.New.id entry = Analytics.id customer
  /\ Analytics.New.name entry = Analytics.nameOf customer
  /\ Analytics.New.email entry = str_or (Analytics.email customer) "-"
  /\ Analytics.New.totalSpent entry = Analytics.amountOf customer
  /\ Analytics.New.ordersCount entry
     = num_or_zero (Analytics.numberOfOrders customer)
  /\ ((exists raw, firstOrderInWindow start end_ customer raw
                   /\ Analytics.New.firstOrderDate entry = raw)
      \/ (Notions.viaFallback order customer
          /\ Analytics.New.firstOrderDate entry = Analytics.createdAt order)).

End MoreNotions.

(* ================================================================== *)
(** * Further host built-ins *)

Class HostMore := {
  (** [Number(s)] when the result is a finite number; [None] for NaN and
      the infinities. *)
  Number_parse : string -> option Q;
  (** [s.trim()] *)
  String_trim : string -> string;
  (** [new URL(s).hostname]; [None] when the constructor throws. *)
  URL_hostname : string -> option string;
  (** [params.toString()] on [URLSearchParams] with these entries. *)
  URLSearchParams_toString : list (string * string) -> string
}.

Module JsMore.

(** [ToIntegerOrInfinity] on a finite number: rounding towards zero. *)
Definition Number_trunc (q : Q) : Z := Z.quot (Qnum q) (Zpos (Qden q)).

(** [arr.slice(start, end)] with numeric bounds. *)
Definition Array_slice {A : Type} (l : list A) (start end_ : Q) : list A :=
  let len := Z.of_nat (List.length l) in
  let relativeStart := Number_trunc start in
  let k := if relativeStart <? 0 then Z.max (len + relativeStart) 0
           else Z.min relativeStart len in
  let relativeEnd := Number_trunc end_ in
  let final := if relativeEnd <? 0 then Z.max (len + relativeEnd) 0
               else Z.min relativeEnd len in
  firstn (Z.to_nat (Z.max (final - k) 0)) (skipn (Z.to_nat k) l).

(** [Math.max(a, b)] and [Math.min(a, b)] *)
Definition Math_max (a b : Q) : Q := if Qle_bool a b then b else a.
Definition Math_min (a b : Q) : Q := if Qle_bool a b then a else b.

(** [Math.ceil(q)] *)
Definition Math_ceil (q : Q) : Q := inject_Z (Qceiling q).

(** [parts.join(sep)] *)
Fixpoint Array_join (sep : string) (parts : list string) : string :=
  match parts with
  | [] => ""
  | [p] => p
  | p :: rest => (p ++ sep ++ Array_join sep rest)%string
  end.

(** [s.split(",")]: the pieces between the commas, at least one. *)
Fixpoint splitComma (s : string) (piece : string) : list string :=
  match s with
  | EmptyString => [piece]
  | String c rest =>
      if Ascii.eqb c ","%char then piece :: splitComma rest ""
      else splitComma rest (piece ++ String c "")
  end.

Definition String_splitComma (s : string) : list string := splitComma s "".

(** [params.get(key)] on [URLSearchParams] or [FormData] entries: the first
    value filed under the key. *)
Fixpoint entries_get {V : Type} (entries : list (string * V)) (key : string)
  : option V :=
  match entries with
  | [] => None
  | (k, v) :: rest => if String.eqb k key then Some v else entries_get rest key
  end.

End JsMore.

Import JsMore.

(* ================================================================== *)
(** * The report route: request parsing, paging, export *)

Module ReportLoader.
Import Report.

Definition PAGE_SIZE_OPTIONS : list Q := [50; 100; 250; 500]%Q.
Definition DEFAULT_PAGE_SIZE : Q := 250%Q.

Definition CONFIG_KEYS : list string :=
  [ "sort"; "per_page"; "q"; "tags"; "tags_mode"; "min_orders"; "max_orders";
    "min_spent"; "max_spent"; "created_start"; "created_end";
    "first_order_start"; "first_order_end" ].

(** [url.searchParams] *)
Definition SearchParams : Type := list (string * string).

Section WithHost.
Context `{Host} `{HostMore}.

Definition parseNumber (value : option string) (fallback : Q) : Q :=
  match value with
  | None => fallback
  | Some v =>
      if string_truthy v then
        match Number_parse v with
        | Some parsed => if Number_positive parsed then parsed else fallback
        | None => fallback
        end
      else fallback
  end.

Definition parseSort (value : option string) : SortKey :=
  match value with
  | Some v =>
      if String.eqb v "ltv_desc" then ltv_desc
      else if String.eqb v "ltv_asc" then ltv_asc
      else if String.eqb v "orders_desc" then orders_desc
      else if String.eqb v "orders_asc" then orders_asc
      else ltv_desc
  | None => ltv_desc
  end.

Definition normalizeQuery (value : option string) : string :=
  String_toLowerCase (String_trim (str_or value "")).

Definition parseOptionalNumber (value : option string) : option Q :=
  match value with
  | None => None
  | Some v => if string_truthy v then Number_parse v else None
  end.

Definition parseDate (value : option string) (endOfDay : bool) : option Z :=
  match value with
  | None => None
  | Some v =>
      if string_truthy v then
        let suffix := if endOfDay then "T23:59:59Z" else "T00:00:00Z" in
        Date_parse (v ++ suffix)
      else None
  end.

Definition parseTags (value : option string) : list string :=
  filter string_truthy
    (map (fun tag => String_toLowerCase (String_trim tag))
         (String_splitComma (str_or value ""))).

Definition parseTagsMode (value : option string) : TagsMode :=
  match value with
  | Some v => if String.eqb v "all" then all else any
  | None => any
  end.

(** The filter settings [loader] reads from the request. *)
Definition criteriaOf (params : SearchParams) : Criteria :=
  let get := entries_get params in
  let tags := str_or (get "tags") "" in
  let minOrders := str_or (get "min_orders") "" in
  let maxOrders := str_or (get "max_orders") "" in
  let minSpent := str_or (get "min_spent") "" in
  let maxSpent := str_or (get "max_spent") "" in
  let createdStart := str_or (get "created_start") "" in
  let createdEnd := str_or (get "created_end") "" in
  let firstOrderStart := str_or (get "first_order_start") "" in
  let firstOrderEnd := str_or (get "first_order_end") "" in
  {| query := normalizeQuery (get "q");
     minOrdersValue := parseOptionalNumber (Some minOrders);
     maxOrdersValue := parseOptionalNumber (Some maxOrders);
     minSpentValue := parseOptionalNumber (Some minSpent);
     maxSpentValue := parseOptionalNumber (Some maxSpent);
     tagsList := parseTags (Some tags);
     tagsMode := parseTagsMode (get "tags_mode");
     createdStartDate := parseDate (Some createdStart) false;
     createdEndDate := parseDate (Some createdEnd) true;
     firstOrderStartDate := parseDate (Some firstOrderStart) false;
     firstOrderEndDate := parseDate (Some firstOrderEnd) true |}.

(** ** Paging *)

Record Paging := {
  page : Q;
  perPage : Q;
  perPageSelection : string;
  totalCustomers : Q;
  shown : list Row.t
}.

(** The paging block of [loader], on the sorted list.  Numbers are
    rationals and the arithmetic on them is exact; the engine computes
    [startIndex] and [endIndex] in doubles, which gives the same indices
    when [currentPage] is a whole number (products and sums of whole
    numbers of this size are exact), and may differ by rounding when it is
    not. *)
Definition paging (params : SearchParams) (sorted : list Row.t) : Paging :=
  let perPageParam := entries_get params "per_page" in
  let page := parseNumber (entries_get params "page") 1 in
  let totalCustomers := inject_Z (Z.of_nat (List.length sorted)) in
  let isAll := match perPageParam with
               | Some v => String.eqb v "all"
               | None => false
               end in
  let perPage :=
    match perPageParam with
    | Some v =>
        if string_truthy v && negb (String.eqb v "all")
        then parseNumber perPageParam DEFAULT_PAGE_SIZE
        else DEFAULT_PAGE_SIZE
    | None => DEFAULT_PAGE_SIZE
    end in
  let safePerPage :=
    if isAll then Math_max totalCustomers 1
    else if existsb (Qeq_bool perPage) PAGE_SIZE_OPTIONS then perPage
    else DEFAULT_PAGE_SIZE in
  let totalPages := Math_max 1 (Math_ceil (totalCustomers / safePerPage)) in
  let currentPage := Math_min (Math_max 1 page) totalPages in
  let startIndex := ((currentPage - 1) * safePerPage)%Q in
  let endIndex := (startIndex + safePerPage)%Q in
  {| page := currentPage;
     perPage := safePerPage;
     perPageSelection := if isAll then "all" else Number_toString safePerPage;
     totalCustomers := totalCustomers;
     shown := Array_slice sorted startIndex endIndex |}.

(** [Math.max(1, Math.ceil(totalCustomers / perPage))], as the page
    component recomputes it from the loader data. *)
Definition totalPagesOf (p : Paging) : Q :=
  Math_max 1 (Math_ceil (totalCustomers p / perPage p)).

(** ** CSV export *)

Definition csvHeader : list CsvValue :=
  [ CsvText "Customer"; CsvText "Email"; CsvText "Orders"; CsvText "TotalSpent";
    CsvText "CustomerCreatedAt"; CsvText "FirstOrderDate"; CsvText "Tags" ].

Definition csvCells (customer : Row.t) : list CsvValue :=
  [ CsvText (Row.name customer);
    CsvText (Row.email customer);
    CsvNumber (Row.ordersCount customer);
    CsvNumber (Row.totalSpent customer);
    CsvText (str_or (Row.createdAt customer) "");
    CsvText (str_or (Row.firstOrderDate customer) "");
    CsvText (Array_join ", " (Row.tags customer)) ].

(** The body of the CSV response. *)
Definition exportCsv (sorted : list Row.t) : string :=
  let rows := csvHeader :: map csvCells sorted in
  Array_join (String newline "")
    (map (fun row => Array_join "," (map escapeCsv row)) rows).

(** The customers of the report: fetched, filtered, sorted. *)
Definition reportRows (params : SearchParams) (customers : list Row.t)
  : list Row.t :=
  sortCustomers (filtered (criteriaOf params) customers)
                (parseSort (entries_get params "sort")).

End WithHost.

End ReportLoader.

(* ================================================================== *)
(** * The analytics route: customer lookup *)

Module Lookup.

Record UtmParameters := {
  utm_source : option string;
  utm_medium : option string;
  utm_campaign : option string;
  utm_term : option string;
  utm_content : option string
}.

Record Visit := {
  source : option string;
  sourceType : option string;
  sourceDescription : option string;
  referrerUrl : option string;
  landingPage : option string;
  utmParameters : option UtmParameters
}.

(** Truthiness of a nullable string. *)
Definition present (s : option string) : bool :=
  match s with
  | Some v => string_truthy v
  | None => false
  end.

(** [value ? `label=${value}` : null] *)
Definition utmPart (label : string) (value : option string) : option string :=
  match value with
  | Some v => if string_truthy v then Some (label ++ "=" ++ v)%string else None
  | None => None
  end.

(** [parts.filter(Boolean)] on nullable strings *)
Definition keepTruthy (parts : list (option string)) : list string :=
  flat_map (fun part => match part with
                        | Some s => if string_truthy s then [s] else []
                        | None => []
                        end) parts.

Definition formatUtm (utm : option UtmParameters) : option string :=
  match utm with
  | None => None
  | Some utm =>
      let parts :=
        keepTruthy [ utmPart "source" (utm_source utm);
                     utmPart "medium" (utm_medium utm);
                     utmPart "campaign" (utm_campaign utm);
                     utmPart "term" (utm_term utm);
                     utmPart "content" (utm_content utm) ] in
      match parts with
      | [] => None
      | _ :: _ => Some (Array_join ", " parts)
      end
  end.

Section WithHost.
Context `{HostMore}.

Definition formatReferrerChannel (visit : option Visit) : string :=
  match visit with
  | None => "Unknown"
  | Some visit =>
      if match utmParameters visit with
         | Some utm => present (utm_source utm) || present (utm_medium utm)
         | None => false
         end
      then
        match formatUtm (utmParameters visit) with
        | Some utm => if string_truthy utm then ("UTM (" ++ utm ++ ")")%string
                      else "UTM"
        | None => "UTM"
        end
      else if present (source visit) then
        let description :=
          if present (sourceDescription visit)
          then (" - " ++ str_or (sourceDescription visit) "")%string
          else "" in
        (str_or (source visit) "" ++ description)%string
      else if present (referrerUrl visit) then
        match URL_hostname (str_or (referrerUrl visit) "") with
        | Some hostname => hostname
        | None => str_or (referrerUrl visit) ""
        end
      else "Unknown"
  end.

(** A first order as the lookup query returns it. *)
Record JourneySummary := { firstVisit : option Visit }.

Record LookupOrder := {
  order_createdAt : option string;
  customerJourneySummary : option JourneySummary
}.

Record LookupCustomer := {
  id : string;
  displayName : option string;
  email : option string;
  numberOfOrders : option Q;
  amountSpent : option Analytics.Money;
  orders : option (option (list LookupOrder))   (* [orders?.nodes] *)
}.

Record LookupResponse := {
  errors : JsValue;
  data : option (list LookupCustomer)           (* [json.data.customers.nodes] *)
}.

Record LookupResult := {
  r_id : string;
  r_name : string;
  r_email : string;
  r_totalSpent : Q;
  r_ordersCount : Q;
  r_firstOrderDate : option string;
  r_referrerChannel : string;
  r_referrerUrl : option string;
  r_utmSummary : option string
}.

(** [customer.orders?.nodes?.[0] || null] *)
Definition firstOrderOf (customer : LookupCustomer) : option LookupOrder :=
  match orders customer with
  | Some (Some (order :: _)) => Some order
  | _ => None
  end.

(** [firstOrder?.customerJourneySummary?.firstVisit || null] *)
Definition visitOf (customer : LookupCustomer) : option Visit :=
  match firstOrderOf customer with
  | Some order =>
      match customerJourneySummary order with
      | Some summary => firstVisit summary
      | None => None
      end
  | None => None
  end.

(** [fetchCustomerLookup], on the response to its one query. *)
Definition fetchCustomerLookup (json : LookupResponse)
  : Completion (option LookupResult) :=
  if truthy (errors json) then Throw (UpstreamError (errors json))
  else
    match data json with
    | None => Throw TypeError
    | Some [] => Normal None
    | Some (customer :: _) =>
        let name := str_or (displayName customer)
                           (str_or (email customer) "Unknown") in
        let totalSpent :=
          match amountSpent customer with
          | Some m => Analytics.amount m
          | None => 0%Q
          end in
        let ordersCount := num_or_zero (numberOfOrders customer) in
        let firstOrder := firstOrderOf customer in
        let visit := visitOf customer in
        Normal (Some
          {| r_id := id customer;
             r_name := name;
             r_email := str_or (email customer) "-";
             r_totalSpent := totalSpent;
             r_ordersCount := ordersCount;
             r_firstOrderDate :=
               match firstOrder with
               | Some order => str_or_null (order_createdAt order)
               | None => None
               end;
             r_referrerChannel := formatReferrerChannel visit;
             r_referrerUrl :=
               match visit with
               | Some v => str_or_null (referrerUrl v)
               | None => None
               end;
             r_utmSummary :=
               formatUtm (match visit with
                          | Some v => utmParameters v
                          | None => None
                          end) |})
    end.

End WithHost.

End Lookup.

(* ================================================================== *)
(** * The report route: saved presets *)

Module Presets.
Import ReportLoader.

(** A form entry: text or an uploaded file. *)
Inductive FormValue : Type :=
| FormText (s : string)
| FormFile.

Definition FormData : Type := list (string * FormValue).

(** A [Record<string, string>]: keys in insertion order. *)
Definition Config : Type := list (string * string).

(** The calls made on [prisma.reportPreset]; [config] is serialised by
    [JSON.stringify] when stored. *)
Inductive DbCommand : Type :=
| CreatePreset (shop name : string) (config : Config)
| DeletePreset (id : string).

Record ActionResult := { ok : bool; error : option string }.

(** [String(formData.get(key) || "")] *)
Definition formString (formData : FormData) (key : string) : string :=
  match entries_get formData key with
  | Some (FormText s) => s
  | Some FormFile => "[object File]"
  | None => ""
  end.

(** The [config] object [action] builds from the form. *)
Definition savedConfig (formData : FormData) : Config :=
  flat_map (fun key =>
              match entries_get formData key with
              | Some (FormText value) =>
                  if (0 <? String.length value)%nat then [(key, value)] else []
              | _ => []
              end)
           CONFIG_KEYS.

Definition buildConfig (params : SearchParams) : Config :=
  flat_map (fun key =>
              match entries_get params key with
              | Some value => if string_truthy value then [(key, value)] else []
              | None => []
              end)
           CONFIG_KEYS.

(** The entries [configToParams] sets on its [URLSearchParams]. *)
Definition configEntries (config : Config) : list (string * string) :=
  flat_map (fun key =>
              match entries_get config key with
              | Some value => if string_truthy value then [(key, value)] else []
              | None => []
              end)
           CONFIG_KEYS.

Section WithHost.
Context `{HostMore}.

Definition configToParams (config : Config) : string :=
  URLSearchParams_toString (configEntries config).

(** [action], for the shop of the session: the result returned and the
    calls made on the store. *)
Definition action (shop : string) (formData : FormData)
  : ActionResult * list DbCommand :=
  let intent := formString formData "intent" in
  if String.eqb intent "save" then
    let name := String_trim (formString formData "report_name") in
    if negb (string_truthy name)
    then ({| ok := false; error := Some "Report name is required." |}, [])
    else ({| ok := true; error := None |},
          [CreatePreset shop name (savedConfig formData)])
  else if String.eqb intent "delete" then
    let id := formString formData "preset_id" in
    ({| ok := true; error := None |},
     if string_truthy id then [DeletePreset id] else [])
  else ({| ok := false; error := Some "Unknown action." |}, []).

End WithHost.

End Presets.

(* ================================================================== *)
(** * A concrete host, continued *)

Module SampleHostMore.

(** Reads a non-empty run of decimal digits. *)
Fixpoint decimal (s : string) (acc : Z) : option Z :=
  match s with
  | EmptyString => Some acc
  | String c rest =>
      match SampleHost.digit c with
      | Some d => decimal rest (10 * acc + d)
      | None => None
      end
  end.

Definition parseDecimal (s : string) : option Q :=
  match s with
  | EmptyString => Some 0%Q
  | String _ _ => option_map inject_Z (decimal s 0)
  end.

Fixpoint trimLeft (s : string) : string :=
  match s with
  | String c rest => if Ascii.eqb c " "%char then trimLeft rest else s
  | EmptyString => EmptyString
  end.

(** Drops the blanks at the end: [None] stands for a text of blanks only. *)
Fixpoint trimRight (s : string) : option string :=
  match s with
  | EmptyString => None
  | String c rest =>
      match trimRight rest with
      | Some kept => Some (String c kept)
      | None => if Ascii.eqb c " "%char then None else Some (String c "")
      end
  end.

Definition trim (s : string) : string :=
  match trimRight (trimLeft s) with
  | Some kept => kept
  | None => ""
  end.

#[global] Instance hostMore : HostMore := {
  Number_parse := parseDecimal;
  String_trim := trim;
  URL_hostname := fun _ => None;
  URLSearchParams_toString :=
    fun entries =>
      Array_join "&" (map (fun kv => (fst kv ++ "=" ++ snd kv)%string) entries)
}.

End SampleHostMore.

(* ================================================================== *)
(** * Further notions, for the report *)

Module ReportNotions.
Import Report ReportLoader.

(** The number of pages the report has for a request. *)
Definition pageCount `{Host} `{HostMore} (params : SearchParams)
  (sorted : list Row.t) : nat :=
  Z.to_nat (Qfloor (totalPagesOf (paging params sorted))).

(** The same request, asking for the page written [text]. *)
Definition withPage (text : string) (params : SearchParams) : SearchParams :=
  ("page", text) :: params.

(** The same request with another tag list. *)
Definition withTagsList (tags : list string) (c : Criteria) : Criteria :=
  {| query := query c;
     minOrdersValue := minOrdersValue c;
     maxOrdersValue := maxOrdersValue c;
     minSpentValue := minSpentValue c;
     maxSpentValue := maxSpentValue c;
     tagsList := tags;
     tagsMode := tagsMode c;
     createdStartDate := createdStartDate c;
     createdEndDate := createdEndDate c;
     firstOrderStartDate := firstOrderStartDate c;
     firstOrderEndDate := firstOrderEndDate c |}.

(** A date field passes a requested range: it is present, and when it
    parses it lies within the bounds that are set. *)
Definition withinRange `{Host} (value : option string) (lo hi : option Z) : Prop :=
  (lo = None /\ hi = None)
  \/ exists v, value = Some v /\ string_truthy v = true
               /\ forall t, Date_parse v = Some t ->
                    (forall l, lo = Some l -> l <= t)
                    /\ (forall h, hi = Some h -> t <= h).

(** The bucket a value is counted in: [bucketIndex] of [buildBuckets]. *)
Definition bucketIndexOf `{Host} (edges : list Q) (value : Q) : Z :=
  let index := bucketOf edges value in
  if index =? -1 then Z.of_nat (List.length edges) - 1 else index.

(** The text a cell stands for. *)
Definition cellText `{Host} (value : CsvValue) : string :=
  match value with
  | CsvNull => ""
  | CsvText s => s
  | CsvNumber n => Number_toString n
  end.

Definition carriageReturn : ascii := "013"%char.

(** The text holds a carriage return. *)
Fixpoint hasReturn (text : string) : bool :=
  match text with
  | EmptyString => false
  | String c rest => Ascii.eqb c carriageReturn || hasReturn rest
  end.

(** The text holds a carriage return and nothing that makes [escapeCsv]
    put it in double quotes. *)
Definition bareReturn (text : string) : bool :=
  negb (needsQuoting text) && hasReturn text.

(** A reader of a CSV text, as spreadsheets and CSV libraries read it:
    outside double quotes a record ends at a line feed, at a carriage
    return, or at a carriage return and the line feed after it, and a field
    ends at a comma; a field that opens with a double quote runs to its
    closing double quote, commas, line feeds and carriage returns included,
    and inside it two double quotes in a row stand for one.  [field] is the
    text of the current field, [row] the fields of the current record read
    so far. *)
Fixpoint readCsvRows (text : string) (quoted : bool) (field : string)
  (row : list string) : list (list string) :=
  match text with
  | EmptyString => [(row ++ [field])%list]
  | String c rest =>
      if quoted then
        if Ascii.eqb c quote then
          match rest with
          | String c' rest' =>
              if Ascii.eqb c' quote
              then readCsvRows rest' true (field ++ String quote EmptyString) row
              else readCsvRows rest false field row
          | EmptyString => [(row ++ [field])%list]
          end
        else readCsvRows rest true (field ++ String c EmptyString) row
      else if Ascii.eqb c comma
           then readCsvRows rest false EmptyString (row ++ [field])%list
      else if Ascii.eqb c newline
           then (row ++ [field])%list :: readCsvRows rest false EmptyString []
      else if Ascii.eqb c carriageReturn
           then (row ++ [field])%list ::
                match rest with
                | String c' rest' =>
                    if Ascii.eqb c' newline
                    then readCsvRows rest' false EmptyString []
                    else readCsvRows rest false EmptyString []
                | EmptyString => readCsvRows rest false EmptyString []
                end
      else if Ascii.eqb c quote && negb (string_truthy field)
           then readCsvRows rest true EmptyString row
      else readCsvRows rest false (field ++ String c EmptyString) row
  end.

(** No cell of the report holds a bare carriage return. *)
Definition returnsQuoted `{Host} (sorted : list Row.t) : bool :=
  forallb (fun customer =>
             forallb (fun cell => negb (bareReturn (cellText cell)))
                     (ReportLoader.csvCells customer))
          sorted.

(** What may follow a field: nothing, a comma or a line feed. *)
Definition fieldEnds (rest : string) : Prop :=
  match rest with
  | EmptyString => True
  | String c _ => c = comma \/ c = newline
  end.

(** How the reader goes on after the last field of a record. *)
Definition afterRecord (rest : string) (record : list string)
  (more : list (list string)) : Prop :=
  match rest with
  | EmptyString => more = [record]
  | String c tail =>
      c = newline /\ more = record :: readCsvRows tail false EmptyString []
  end.

(** A request that only asks for tags, in mode [any]. *)
Definition tagsOnly (tags : list string) : Criteria :=
  {| query := ""; minOrdersValue := None; maxOrdersValue := None;
     minSpentValue := None; maxSpentValue := None;
     tagsList := tags; tagsMode := any;
     createdStartDate := None; createdEndDate := None;
     firstOrderStartDate := None; firstOrderEndDate := None |}.

(** A request for customers with at least two orders, created in January
    2024. *)
Definition regularsOfJanuary : Criteria :=
  {| query := ""; minOrdersValue := Some 2%Q; maxOrdersValue := None;
     minSpentValue := None; maxSpentValue := None;
     tagsList := []; tagsMode := any;
     createdStartDate := Some 1704067200000;
     createdEndDate := Some 1706745599000;
     firstOrderStartDate := None; firstOrderEndDate := None |}.

Definition vipRow : Row.t :=
  {| Row.id := "gid://shopify/Customer/1"; Row.name := "Ann";
     Row.email := "ann@example.com"; Row.totalSpent := 120%Q;
     Row.ordersCount := 2%Q; Row.createdAt := Some "2024-01-15T08:00:00Z";
     Row.firstOrderDate := None; Row.tags := ["vip"; "wholesale"] |}.

(** A customer whose name holds a comma, a carriage return and a line
    feed, and is therefore written in double quotes. *)
Definition returnRow : Row.t :=
  {| Row.id := "gid://shopify/Customer/2";
     Row.name := "Lee, Bo" ++ String carriageReturn (String newline "Jr.");
     Row.email := "bo@example.com"; Row.totalSpent := 80%Q;
     Row.ordersCount := 1%Q; Row.createdAt := None;
     Row.firstOrderDate := None; Row.tags := [] |}.

(** A visit that came through a newsletter campaign, and the customer
    whose first order recorded it. *)
Definition newsletterVisit : Lookup.Visit :=
  {| Lookup.source := Some "direct";
     Lookup.sourceType := None;
     Lookup.sourceDescription := None;
     Lookup.referrerUrl := Some "https://mail.example.com/";
     Lookup.landingPage := None;
     Lookup.utmParameters :=
       Some {| Lookup.utm_source := Some "newsletter";
               Lookup.utm_medium := None;
               Lookup.utm_campaign := Some "spring";
               Lookup.utm_term := None;
               Lookup.utm_content := None |} |}.

Definition lookupResponse : Lookup.LookupResponse :=
  {| Lookup.errors := JsUndefined;
     Lookup.data :=
       Some [ {| Lookup.id := "gid://shopify/Customer/1";
                 Lookup.displayName := None;
                 Lookup.email := Some "ann@example.com";
                 Lookup.numberOfOrders := Some 2%Q;
                 Lookup.amountSpent := None;
                 Lookup.orders :=
                   Some (Some [ {| Lookup.order_createdAt := Some "2023-11-02T09:00:00Z";
                                   Lookup.customerJourneySummary :=
                                     Some {| Lookup.firstVisit := Some newsletterVisit |} |} ]) |} ] |}.

(** A save form: a name, a sort key, an empty tag field and a field that
    is no setting. *)
Definition saveForm : Presets.FormData :=
  [ ("intent", Presets.FormText "save");
    ("report_name", Presets.FormText " Big spenders ");
    ("sort", Presets.FormText "ltv_desc");
    ("tags", Presets.FormText "");
    ("min_spent", Presets.FormText "500");
    ("page", Presets.FormText "3") ].

(** The entries an object gets when the keys are gone through in order
    and [pick] tells the value to file, if any. *)
Definition pickEntries (keys : list string) (pick : string -> option string)
  : list (string * string) :=
  flat_map (fun key => match pick key with
                       | Some value => [(key, value)]
                       | None => []
                       end) keys.

(** The non-empty text the form holds under a key. *)
Definition formText (formData : Presets.FormData) (key : string) : option string :=
  match entries_get formData key with
  | Some (Presets.FormText value) =>
      if string_truthy value then Some value else None
  | _ => None
  end.

(** Sixty rows, and the page texts 1 and 2. *)
Definition sixtyRows : list Row.t := repeat (Samples.row 10 1) 60.

Definition pageText12 (k : nat) : string :=
  if (k =? 1)%nat then "1" else "2".

End ReportNotions.

Module TimeFacts.

Lemma YearFromTime_spec t :
  DayFromYear (YearFromTime t) <= Day t < DayFromYear (YearFromTime t + 1).
Proof.
  unfold YearFromTime. generalize (Day t) as d. intros d. cbv zeta.
  set (y0 := 1970 + d * 10000 / 3652425).
  assert (Hy0 : 3652425 * (y0 - 1970) <= d * 10000 < 3652425 * (y0 - 1970) + 3652425).
  { subst y0. pose proof (Z.div_mod (d * 10000) 3652425 ltac:(lia)).
    pose proof (Z.mod_pos_bound (d * 10000) 3652425 ltac:(lia)). lia. }
  clearbody y0.
  unfold DayFromYear.
  repeat match goal with |- context [Z.leb ?a ?b] => destruct (Z.leb_spec a b) end.
  all: Z.div_mod_to_equations; lia.
Qed.

Lemma DayFromYear_mono a b : a <= b -> DayFromYear a <= DayFromYear b.
Proof. unfold DayFromYear. intros. Z.div_mod_to_equations. lia. Qed.

Lemma YearFromTime_lower t y : DayFromYear y <= Day t -> y <= YearFromTime t.
Proof.
  intros Hd. destruct (YearFromTime_spec t) as [_ Hu].
  destruct (Z_le_gt_dec y (YearFromTime t)) as [|Hgt]; [assumption|].
  pose proof (DayFromYear_mono (YearFromTime t + 1) y ltac:(lia)). lia.
Qed.

Lemma MonthFromTime_range t : 0 <= MonthFromTime t <= 11.
Proof.
  unfold MonthFromTime. cbv zeta.
  repeat match goal with |- context [Z.ltb ?a ?b] => destruct (Z.ltb a b) end; lia.
Qed.

Lemma monthStart_DateFromTime t :
  monthStart (MonthFromTime t) (InLeapYear t) + DateFromTime t - 1 = DayWithinYear t.
Proof. unfold DateFromTime. lia. Qed.

(** Rebuilding a day from the calendar fields of [t], with the date shifted
    by [k]. *)
Lemma MakeDay_fields t k :
  MakeDay (YearFromTime t) (MonthFromTime t) (DateFromTime t + k) = Day t + k.
Proof.
  unfold MakeDay. pose proof (MonthFromTime_range t) as Hm.
  rewrite (Z.div_small (MonthFromTime t) 12) by lia.
  rewrite (Z.mod_small (MonthFromTime t) 12) by lia.
  rewrite Z.add_0_r. fold (InLeapYear t).
  pose proof (monthStart_DateFromTime t). unfold DayWithinYear in *. lia.
Qed.

Lemma MakeFullYear_modern y : 100 <= y -> MakeFullYear y = y.
Proof.
  intros. unfold MakeFullYear.
  destruct (Z.leb_spec y 99); [lia|]. now rewrite andb_false_r.
Qed.

Lemma TimeClip_in_range t : - maxTime <= t <= maxTime -> TimeClip t = Some t.
Proof.
  intros. unfold TimeClip. destruct (Z.gtb_spec (Z.abs t) maxTime); [lia|reflexivity].
Qed.

(** [Date.UTC] on the fields of a date after 1970 snaps it to the given
    time of its own day. *)
Lemma Date_UTC_fields t h mi s :
  - 365 * msPerDay <= t ->
  let snapped := MakeDate (Day t) (MakeTime h mi s 0) in
  - maxTime <= snapped <= maxTime ->
  Date_UTC (getUTCFullYear (Some t)) (getUTCMonth (Some t)) (getUTCDate (Some t))
           h mi s = Some snapped.
Proof.
  intros Ht snapped Hr. simpl. 
  assert (Hy : 1969 <= YearFromTime t).
  { apply YearFromTime_lower. unfold Day, DayFromYear, msPerDay in *.
    change ((1969 - 1969) / 4) with 0. change ((1969 - 1901) / 100) with 0.
    change ((1969 - 1601) / 400) with 0.
    Z.div_mod_to_equations. lia. }
  rewrite MakeFullYear_modern by lia.
  replace (DateFromTime t) with (DateFromTime t + 0) by lia.
  rewrite MakeDay_fields, Z.add_0_r. now apply TimeClip_in_range.
Qed.

End TimeFacts.

Module DateRangeFacts.
Import TimeFacts Analytics.

Section WithHost.
Context `{Host}.

Lemma Day_of_midnight d : Day (d * msPerDay) = d.
Proof. unfold Day, msPerDay. now rewrite Z.div_mul. Qed.

Lemma TimeWithinDay_of_midnight d : TimeWithinDay (d * msPerDay) = 0.
Proof. unfold TimeWithinDay, msPerDay. now rewrite Z.mod_mul. Qed.

Lemma Day_bounds t : Day t * msPerDay <= t < Day t * msPerDay + msPerDay.
Proof. unfold Day, msPerDay. Z.div_mod_to_equations. lia. Qed.

(** [endDefault]: midnight of the current day. *)
Lemma endDefault_value now :
  0 <= now <= maxTime ->
  Date_UTC (getUTCFullYear (Some now)) (getUTCMonth (Some now))
           (getUTCDate (Some now)) 0 0 0 = Some (Day now * msPerDay).
Proof.
  intros Hn. pose proof (Day_bounds now) as Hb.
  rewrite Date_UTC_fields; unfold MakeDate, MakeTime, msPerDay, maxTime in *;
    cbv zeta; try lia.
  f_equal. lia.
Qed.

(** [startDefault]: 29 days before [endDefault]. *)
Lemma startDefault_value d :
  0 <= d * msPerDay <= maxTime ->
  setUTCDate (Some (d * msPerDay))
    (option_map (fun x => x - (DEFAULT_RANGE_DAYS - 1))
                (getUTCDate (Some (d * msPerDay))))
  = Some ((d - 29) * msPerDay).
Proof.
  intros Hd. unfold setUTCDate, getUTCDate, option_map.
  replace (DateFromTime (d * msPerDay) - (DEFAULT_RANGE_DAYS - 1))
    with (DateFromTime (d * msPerDay) + (-29)) by (unfold DEFAULT_RANGE_DAYS; lia).
  rewrite MakeDay_fields, Day_of_midnight, TimeWithinDay_of_midnight.
  unfold MakeDate. rewrite TimeClip_in_range; [f_equal; lia|].
  unfold msPerDay, maxTime in *. lia.
Qed.

(** Both parameters missing: the trailing window runs to the last second of
    the current day. *)
Lemma getDateRange_missing now :
  0 <= now -> now + msPerDay <= maxTime ->
  getDateRange now None None =
  {| start := Some ((Day now - 29) * msPerDay);
     end_ := Some (Day now * msPerDay + 86399000) |}.
Proof.
  intros H0 H1. pose proof (Day_bounds now) as Hb.
  assert (Hm : 0 <= Day now * msPerDay <= maxTime) by (unfold msPerDay, maxTime in *; lia).
  unfold getDateRange. cbv zeta. unfold parseDateParam.
  rewrite endDefault_value by (unfold msPerDay in *; lia).
  rewrite startDefault_value by assumption.
  assert (Hs : Date_UTC (getUTCFullYear (Some ((Day now - 29) * msPerDay)))
                        (getUTCMonth (Some ((Day now - 29) * msPerDay)))
                        (getUTCDate (Some ((Day now - 29) * msPerDay))) 0 0 0
               = Some ((Day now - 29) * msPerDay)).
  { rewrite Date_UTC_fields; rewrite ?Day_of_midnight;
      unfold MakeDate, MakeTime, msPerDay, maxTime in *; cbv zeta; try lia.
    f_equal; lia. }
  assert (He : Date_UTC (getUTCFullYear (Some (Day now * msPerDay)))
                        (getUTCMonth (Some (Day now * msPerDay)))
                        (getUTCDate (Some (Day now * msPerDay))) 23 59 59
               = Some (Day now * msPerDay + 86399000)).
  { rewrite Date_UTC_fields; rewrite ?Day_of_midnight;
      unfold MakeDate, MakeTime, msPerDay, maxTime in *; cbv zeta; try lia.
    f_equal; lia. }
  rewrite Hs, He. unfold Date_gt.
  destruct (Z.gtb_spec ((Day now - 29) * msPerDay) (Day now * msPerDay + 86399000));
    [unfold msPerDay in *; lia | reflexivity].
Qed.

(** An inverted range: the defaults are handed back as computed, the end
    at midnight. *)
Lemma getDateRange_inverted now s e ts te :
  0 <= now <= maxTime ->
  string_truthy s = true -> string_truthy e = true ->
  Date_parse (s ++ "T00:00:00Z") = Some ts ->
  Date_parse (e ++ "T00:00:00Z") = Some te ->
  Date_gt
    (Date_UTC (getUTCFullYear (Some ts)) (getUTCMonth (Some ts))
              (getUTCDate (Some ts)) 0 0 0)
    (Date_UTC (getUTCFullYear (Some te)) (getUTCMonth (Some te))
              (getUTCDate (Some te)) 23 59 59) = true ->
  getDateRange now (Some s) (Some e) =
  {| start := Some ((Day now - 29) * msPerDay);
     end_ := Some (Day now * msPerDay) |}.
Proof.
  intros Hn Hs He Hps Hpe Hgt. pose proof (Day_bounds now) as Hb.
  assert (Hm : 0 <= Day now * msPerDay <= maxTime) by (unfold msPerDay, maxTime in *; lia).
  unfold getDateRange. cbv zeta. unfold parseDateParam.
  rewrite Hs, He, Hps, Hpe, Hgt.
  rewrite endDefault_value by assumption.
  now rewrite startDefault_value by assumption.
Qed.

End WithHost.

(** C1, evaluated: on 2024-03-15 the inverted pair start=2024-03-10,
    end=2024-03-01 gets the window ending 2024-03-15T00:00:00Z, while the
    request without parameters gets the window ending 2024-03-15T23:59:59Z;
    the two pairs differ. *)
Theorem C1_inverted_range_end_at_midnight :
  let inverted :=
    getDateRange 1710505800000 (Some "2024-03-10") (Some "2024-03-01") in
  let missing := getDateRange 1710505800000 None None in
  inverted = {| start := Some 1707955200000; end_ := Some 1710460800000 |}
  /\ missing = {| start := Some 1707955200000; end_ := Some 1710547199000 |}
  /\ inverted <> missing.
Proof.
  cbv zeta. split; [vm_compute; reflexivity|]. split; [vm_compute; reflexivity|].
  vm_compute. discriminate.
Qed.

End DateRangeFacts.

(* ================================================================== *)
(** * Histogram buckets *)

Module BucketFacts.
Import Report Notions.

Lemma findIndex_from_range {A : Type} (p : A -> Z -> bool) (l : list A) :
  forall i, findIndex_from p i l = -1
            \/ i <= findIndex_from p i l < i + Z.of_nat (List.length l).
Proof.
  induction l as [|x l IH]; intros i; simpl.
  - now left.
  - destruct (p x i).
    + right. lia.
    + destruct (IH (i + 1)) as [E|R]; [now left | right; lia].
Qed.

Lemma Array_get_in_range {A : Type} (l : list A) (i : Z) :
  0 <= i < Z.of_nat (List.length l) -> exists x, Array_get l i = Some x.
Proof.
  intros Hi. unfold Array_get.
  destruct (Z.ltb_spec i 0); [lia|].
  destruct (nth_error l (Z.to_nat i)) eqn:E; [now exists a|].
  apply nth_error_None in E. lia.
Qed.

Lemma replace_nth_length {A : Type} (v : A) (l : list A) :
  forall n, List.length (replace_nth n v l) = List.length l.
Proof.
  induction l as [|x l IH]; intros [|n]; simpl; auto.
Qed.

Lemma sumCounts_bump (l : list Bucket) :
  forall n b, nth_error l n = Some b ->
    sumCounts (replace_nth n {| label := label b; count := count b + 1 |} l)
    = sumCounts l + 1.
Proof.
  induction l as [|x l IH]; intros [|n] b E; simpl in *; try discriminate.
  - injection E as ->. lia.
  - rewrite (IH _ _ E). lia.
Qed.

Section WithHost.
Context `{Host}.

(** One increment: with at least one bucket it lands in a bucket. *)
Lemma bumpCount_ok edges value buckets :
  List.length buckets = List.length edges -> edges <> [] ->
  let index := bucketOf edges value in
  exists buckets',
    bumpCount buckets
      (if index =? -1 then Z.of_nat (List.length buckets) - 1 else index)
    = Normal buckets'
    /\ List.length buckets' = List.length buckets
    /\ sumCounts buckets' = sumCounts buckets + 1.
Proof.
  intros Hlen Hne index.
  assert (Hpos : (0 < List.length edges)%nat)
    by (destruct edges; [contradiction | simpl; lia]).
  set (bucketIndex := if index =? -1 then _ else _).
  assert (Hr : 0 <= bucketIndex < Z.of_nat (List.length buckets)).
  { subst bucketIndex. destruct (Z.eqb_spec index (-1)) as [|Hn]; [lia|].
    subst index. unfold bucketOf, Array_findIndex in *.
    match goal with
    | |- context [findIndex_from ?p 0 edges] =>
        destruct (findIndex_from_range p edges 0) as [E|R]
    end; [contradiction | lia]. }
  unfold bumpCount.
  destruct (Array_get_in_range buckets bucketIndex Hr) as [b Eb].
  rewrite Eb. eexists. split; [reflexivity|]. split.
  - apply replace_nth_length.
  - apply sumCounts_bump. unfold Array_get in Eb.
    destruct (Z.ltb_spec bucketIndex 0); [lia | exact Eb].
Qed.

Lemma countValues_total edges values :
  edges <> [] ->
  forall buckets, List.length buckets = List.length edges ->
  exists result,
    countValues edges values buckets = Normal result
    /\ List.length result = List.length edges
    /\ sumCounts result = sumCounts buckets + Z.of_nat (List.length values).
Proof.
  intros Hne. induction values as [|value rest IH]; intros buckets Hlen.
  - exists buckets. simpl. repeat split; auto; lia.
  - cbn [countValues]. cbv zeta.
    destruct (bumpCount_ok edges value buckets Hlen Hne) as (b' & E & L & S).
    rewrite E.
    destruct (IH b') as (r & Er & Lr & Sr); [congruence|].
    exists r. repeat split; auto.
    rewrite Sr, S. cbn [List.length]. lia.
Qed.

Lemma mapi_from_fresh {A : Type} (mk : A -> Z -> string) (l : list A) :
  forall i,
    let buckets := mapi_from (fun x k => {| label := mk x k; count := 0 |}) i l in
    List.length buckets = List.length l /\ sumCounts buckets = 0.
Proof.
  induction l as [|x l IH]; intros i; simpl; [auto|].
  destruct (IH (i + 1)) as [L S]. split; [now f_equal | lia].
Qed.

(** C2 (amended): with at least one edge, or with nothing to count,
    [buildBuckets] returns one bucket per edge and the counts add up to the
    number of values. *)
Theorem C2_bucket_counts_sum (values edges : list Q) :
  edges <> [] \/ values = [] ->
  exists buckets,
    buildBuckets values edges = Normal buckets
    /\ List.length buckets = List.length edges
    /\ sumCounts buckets = Z.of_nat (List.length values).
Proof.
  intros Hcase. unfold buildBuckets, Array_mapi. cbv zeta.
  match goal with
  | |- context [mapi_from (fun edge index => {| label := @?mk edge index; count := 0 |}) 0 edges] =>
      destruct (mapi_from_fresh mk edges 0) as [L S]
  end.
  cbv zeta in L, S.
  destruct Hcase as [Hne | ->].
  - destruct (countValues_total edges values Hne _ L) as (r & E & Lr & Sr).
    exists r. rewrite E. repeat split; auto. rewrite Sr, S. lia.
  - eexists. simpl. split; [reflexivity|]. split; [exact L | exact S].
Qed.

End WithHost.

(** The edges of the spend histogram with two values, one of them below
    every edge. *)
Lemma C2_bucket_counts_sum_witness :
  ([0; 50; 100]%Q <> [] \/ [75; -3]%Q = []) /\
  exists buckets,
    buildBuckets [75; -3]%Q [0; 50; 100]%Q = Normal buckets
    /\ List.length buckets = 3%nat
    /\ sumCounts buckets = 2.
Proof.
  split; [left; discriminate|].
  apply (C2_bucket_counts_sum [75; -3]%Q [0; 50; 100]%Q). left. discriminate.
Defined.

(** C2 as stated fails on the empty edge list: the first value finds no
    bucket and the increment throws. *)
Lemma C2_empty_edges_throw :
  buildBuckets [7%Q] [] = Throw TypeError
  /\ ~ (exists buckets,
          buildBuckets [7%Q] [] = Normal buckets
          /\ sumCounts buckets = Z.of_nat (List.length [7%Q])).
Proof.
  split; [reflexivity|]. intros (b & E & _). discriminate E.
Qed.

End BucketFacts.

(* ================================================================== *)
(** * The pagination loop *)

Module PaginateFacts.

Section Loop.
Context {Resp St : Type}.
Variable more : St -> bool.
Variable body : Resp -> St -> Completion St.

(** A walk that used up [pre] and asks for more goes on, from one and the
    same state, with whatever is served next. *)
Lemma paginate_reach (pre : list Resp) :
  forall st, paginate more body pre st = Unserved ->
  exists st', more st' = true
              /\ forall rest, paginate more body (pre ++ rest)%list st
                              = paginate more body rest st'.
Proof.
  induction pre as [|json pre IH]; intros st Hrun; simpl in Hrun.
  - destruct (more st) eqn:Hm; [|discriminate].
    exists st. split; [assumption | reflexivity].
  - destruct (more st) eqn:Hm; [|discriminate].
    destruct (body json st) as [st1|e] eqn:Hb; [|discriminate].
    destruct (IH st1 Hrun) as (st' & Hm' & Hgo).
    exists st'. split; [assumption|].
    intros rest. simpl. now rewrite Hm, Hb.
Qed.

(** A thrown walk was thrown by the body on one of the responses. *)
Lemma paginate_thrown (upstream : list Resp) :
  forall st e, paginate more body upstream st = Thrown e ->
  exists json st', In json upstream /\ body json st' = Throw e.
Proof.
  induction upstream as [|json rest IH]; intros st e Hrun; simpl in Hrun.
  - destruct (more st); discriminate.
  - destruct (more st); [|discriminate].
    destruct (body json st) as [st1|e1] eqn:Hb.
    + destruct (IH st1 e Hrun) as (j & st' & Hin & Hthrow).
      exists j, st'. split; [now right | assumption].
    + injection Hrun as <-. exists json, st. split; [now left | assumption].
Qed.

(** A property of the state kept by every turn holds when the walk
    returns. *)
Lemma paginate_invariant (P : St -> Prop) :
  (forall json st st', P st -> body json st = Normal st' -> P st') ->
  forall upstream st st',
    P st -> paginate more body upstream st = Returned st' -> P st'.
Proof.
  intros Hstep. induction upstream as [|json rest IH]; intros st st' HP Hrun;
    simpl in Hrun.
  - destruct (more st); [discriminate | now injection Hrun as <-].
  - destruct (more st); [|now injection Hrun as <-].
    destruct (body json st) as [st1|e] eqn:Hb; [|discriminate].
    eapply IH; [|exact Hrun]. eapply Hstep; eassumption.
Qed.

(** The walk returns as soon as a served page switches the loop condition
    off and no page before it throws. *)
Lemma paginate_returns (upstream : list Resp) :
  forall st,
    Forall (fun json => forall s, exists s', body json s = Normal s') upstream ->
    (exists json, In json upstream
                  /\ forall s s', body json s = Normal s' -> more s' = false) ->
    exists st', paginate more body upstream st = Returned st'.
Proof.
  induction upstream as [|json rest IH]; intros st Hok (last & Hin & Hstop).
  - destruct Hin.
  - simpl. destruct (more st) eqn:Hm; [|now exists st].
    inversion Hok as [|? ? Hj Hrest]; subst.
    destruct (Hj st) as [st1 Hb]. rewrite Hb.
    destruct Hin as [<- | Hin].
    + destruct rest; simpl; rewrite (Hstop _ _ Hb); now exists st1.
    + apply IH; [assumption|]. now exists last.
Qed.
End Loop.

End PaginateFacts.

(* ================================================================== *)
(** * Upstream errors *)

Module ErrorFacts.
Import PaginateFacts Notions.

(** The three loop bodies test [json.errors] the same way. *)
Ltac body_cases errs dat :=
  destruct (truthy errs) eqn:?; [|destruct dat eqn:?];
  try discriminate; try congruence.

Lemma analytics_body_throw json st errs :
  Analytics.pageBody json st = Throw (UpstreamError errs) ->
  errs = Analytics.errors json /\ truthy (Analytics.errors json) = true.
Proof.
  unfold Analytics.pageBody.
  body_cases (Analytics.errors json) (Analytics.data json).
  intros [= <-]. now split.
Qed.

Lemma report_body_throw `{Host} json st errs :
  Report.pageBody json st = Throw (UpstreamError errs) ->
  errs = Report.errors json /\ truthy (Report.errors json) = true.
Proof.
  unfold Report.pageBody.
  body_cases (Report.errors json) (Report.data json).
  intros [= <-]. now split.
Qed.

Lemma orders_body_throw `{Host} start end_ json st errs :
  Analytics.ordersPageBody start end_ json st = Throw (UpstreamError errs) ->
  errs = Analytics.o_errors json /\ truthy (Analytics.o_errors json) = true.
Proof.
  unfold Analytics.ordersPageBody.
  body_cases (Analytics.o_errors json) (Analytics.o_data json).
  intros [= <-]. now split.
Qed.

(** The analytics walk at the response it has reached. *)
Lemma analytics_errors_abort pre json rest :
  Analytics.walkCustomers pre Analytics.walkStart = Unserved ->
  (Analytics.fetchAllCustomers (pre ++ json :: rest)
     = Thrown (UpstreamError (Analytics.errors json))
   <-> truthy (Analytics.errors json) = true)
  /\ (truthy (Analytics.errors json) = false ->
      Analytics.data json <> None ->
      forall e, Analytics.fetchAllCustomers (pre ++ [json]) <> Thrown e).
Proof.
  intros Hreach. unfold Analytics.fetchAllCustomers, Analytics.walkCustomers in *.
  destruct (paginate_reach _ _ pre _ Hreach) as (st & Hmore & Hgo).
  rewrite !Hgo. simpl. rewrite Hmore. unfold Analytics.pageBody at 1 3.
  destruct (truthy (Analytics.errors json)) eqn:Ht.
  - split; [now split | discriminate].
  - split.
    + split; [|discriminate]. intros Hthrown. exfalso.
      destruct (Analytics.data json) as [page|]; [|discriminate].
      destruct (paginate _ _ rest _) as [st'|e|] eqn:Hrest; try discriminate.
      injection Hthrown as ->.
      destruct (paginate_thrown _ _ _ _ _ Hrest) as (j & s & Hin & Hb).
      apply analytics_body_throw in Hb. destruct Hb as [E T]. congruence.
    + intros _ Hdata e.
      destruct (Analytics.data json) as [page|]; [|contradiction].
      match goal with |- context [Analytics.wantsMore ?s] =>
        destruct (Analytics.wantsMore s) end; discriminate.
Qed.

(** The report walk at the response it has reached. *)
Lemma report_errors_abort `{Host} pre json rest :
  Report.walkCustomers pre Report.walkStart = Unserved ->
  (Report.fetchAllCustomers (pre ++ json :: rest)
     = Thrown (UpstreamError (Report.errors json))
   <-> truthy (Report.errors json) = true)
  /\ (truthy (Report.errors json) = false ->
      Report.data json <> None ->
      forall e, Report.fetchAllCustomers (pre ++ [json]) <> Thrown e).
Proof.
  intros Hreach. unfold Report.fetchAllCustomers, Report.walkCustomers in *.
  destruct (paginate_reach _ _ pre _ Hreach) as (st & Hmore & Hgo).
  rewrite !Hgo. simpl. rewrite Hmore. unfold Report.pageBody at 1 3.
  destruct (truthy (Report.errors json)) eqn:Ht.
  - split; [now split | discriminate].
  - split.
    + split; [|discriminate]. intros Hthrown. exfalso.
      destruct (Report.data json) as [page|]; [|discriminate].
      destruct (paginate _ _ rest _) as [st'|e|] eqn:Hrest; try discriminate.
      injection Hthrown as ->.
      destruct (paginate_thrown _ _ _ _ _ Hrest) as (j & s & Hin & Hb).
      apply report_body_throw in Hb. destruct Hb as [E T]. congruence.
    + intros _ Hdata e.
      destruct (Report.data json) as [page|]; [|contradiction].
      match goal with |- context [Report.w_hasNextPage ?s] =>
        destruct (Report.w_hasNextPage s) end; discriminate.
Qed.

(** The order scan at the response it has reached. *)
Lemma orders_errors_abort `{Host} start end_ pre json rest :
  start <> None -> end_ <> None ->
  Analytics.scanOrders start end_ pre Analytics.scanStart = Unserved ->
  truthy (Analytics.o_errors json) = true ->
  Analytics.fetchOrdersInRange start end_ (pre ++ json :: rest)
  = Thrown (UpstreamError (Analytics.o_errors json)).
Proof.
  intros Hstart Hend Hreach Ht.
  unfold Analytics.fetchOrdersInRange, Analytics.scanOrders in *.
  destruct start as [s|]; [|contradiction]. destruct end_ as [e|]; [|contradiction].
  cbn [Analytics.searchQuery].
  destruct (paginate_reach _ _ pre _ Hreach) as (st & Hmore & Hgo).
  rewrite Hgo. simpl. rewrite Hmore. unfold Analytics.ordersPageBody.
  now rewrite Ht.
Qed.

(** C3 (amended): at every response a customer walk reaches, the walk is
    aborted with the upstream failure, and nothing else is returned, exactly
    when the [errors] field of the response is truthy (an array of any
    length, the empty one included); a response whose [errors] field is falsy
    and which carries its data does not throw.  Both routes. *)
Theorem C3_truthy_errors_abort `{Host} :
  (forall pre json rest,
     Analytics.walkCustomers pre Analytics.walkStart = Unserved ->
     (Analytics.fetchAllCustomers (pre ++ json :: rest)
        = Thrown (UpstreamError (Analytics.errors json))
      <-> truthy (Analytics.errors json) = true)
     /\ (truthy (Analytics.errors json) = false ->
         Analytics.data json <> None ->
         forall e, Analytics.fetchAllCustomers (pre ++ [json]) <> Thrown e))
  /\
  (forall pre json rest,
     Report.walkCustomers pre Report.walkStart = Unserved ->
     (Report.fetchAllCustomers (pre ++ json :: rest)
        = Thrown (UpstreamError (Report.errors json))
      <-> truthy (Report.errors json) = true)
     /\ (truthy (Report.errors json) = false ->
         Report.data json <> None ->
         forall e, Report.fetchAllCustomers (pre ++ [json]) <> Thrown e)).
Proof.
  split.
  - intros pre json rest. apply analytics_errors_abort.
  - intros pre json rest. apply report_errors_abort.
Qed.

(** The first response of the analytics walk carries one error. *)
Lemma C3_truthy_errors_abort_witness :
  Analytics.walkCustomers [] Analytics.walkStart = Unserved
  /\ Analytics.fetchAllCustomers
       [ {| Analytics.errors := JsArray [JsString "Throttled"];
            Analytics.data := None |} ]
     = Thrown (UpstreamError (JsArray [JsString "Throttled"])).
Proof.
  split; [reflexivity|].
  apply (proj1 (proj1 (C3_truthy_errors_abort (H := SampleHost.host)) []
           {| Analytics.errors := JsArray [JsString "Throttled"];
              Analytics.data := None |} [] eq_refl)).
  reflexivity.
Defined.

(** C3 as stated fails on a response whose error array is empty: the
    array is truthy, and the walk throws. *)
Lemma C3_empty_error_array_throws :
  let json :=
    {| Analytics.errors := JsArray [];
       Analytics.data :=
         Some {| Analytics.nodes := []; Analytics.hasNextPage := false;
                 Analytics.endCursor := None |} |} in
  nonEmptyArray (Analytics.errors json) = false
  /\ Analytics.fetchAllCustomers [json] = Thrown (UpstreamError (JsArray [])).
Proof.
  split; reflexivity.
Qed.

End ErrorFacts.

(* ================================================================== *)
(** * Sorting *)

Module SortFacts.
Import Notions.

Lemma Number_positive_spec q : Number_positive q = true <-> (0 < q)%Q.
Proof.
  unfold Number_positive, Qlt. simpl. rewrite Z.ltb_lt. lia.
Qed.

Lemma num_or_positive a b :
  Number_positive (num_or a b) = true
  <-> (0 < a \/ (a == 0 /\ 0 < b))%Q.
Proof.
  unfold num_or. destruct (Qeq_bool a 0) eqn:E.
  - apply Qeq_bool_iff in E. rewrite Number_positive_spec. split.
    + intros Hb. right. now split.
    + intros [Ha | [_ Hb]]; [rewrite E in Ha; lra | assumption].
  - apply Qeq_bool_neq in E. rewrite Number_positive_spec. split.
    + now left.
    + intros [Ha | [Ha _]]; [assumption | contradiction].
Qed.

Section Sort.
Context {A : Type}.
Variable cmp : A -> A -> Q.
Variable le : A -> A -> Prop.
Hypothesis le_trans : forall x y z, le x y -> le y z -> le x z.
Hypothesis cmp_after : forall x y, Number_positive (cmp x y) = true -> le y x.
Hypothesis cmp_before : forall x y, Number_positive (cmp x y) = false -> le x y.

Lemma sort_insert_perm x l : Permutation (x :: l) (sort_insert cmp x l).
Proof.
  induction l as [|y l IH]; simpl; [reflexivity|].
  destruct (Number_positive (cmp x y)); [|reflexivity].
  rewrite perm_swap. now constructor.
Qed.

Lemma sort_insert_length x l :
  List.length (sort_insert cmp x l) = S (List.length l).
Proof. symmetry. apply (Permutation_length (sort_insert_perm x l)). Qed.

Lemma sort_insert_sorted x l :
  StronglySorted le l -> StronglySorted le (sort_insert cmp x l).
Proof.
  induction 1 as [|y l Hs IH Hall]; simpl.
  - repeat constructor.
  - destruct (Number_positive (cmp x y)) eqn:E.
    + constructor; [assumption|].
      apply (Permutation_Forall (sort_insert_perm x l)).
      constructor; [now apply cmp_after | assumption].
    + assert (Hxy : le x y) by now apply cmp_before.
      constructor; [now constructor|].
      constructor; [assumption|].
      eapply Forall_impl; [|exact Hall]. intros z Hz. now apply (le_trans x y z).
Qed.
End Sort.

(** [sort] only rearranges, whatever the comparator. *)
Lemma Array_sort_perm {A : Type} (cmp : A -> A -> Q) (l : list A) :
  Permutation l (Array_sort cmp l).
Proof.
  induction l as [|x l IH]; simpl; [reflexivity|].
  rewrite <- sort_insert_perm. now constructor.
Qed.

(** With a comparator that decides a transitive order, the result is in
    that order. *)
Lemma Array_sort_sorted {A : Type} (cmp : A -> A -> Q) (le : A -> A -> Prop) :
  (forall x y z, le x y -> le y z -> le x z) ->
  (forall x y, Number_positive (cmp x y) = true -> le y x) ->
  (forall x y, Number_positive (cmp x y) = false -> le x y) ->
  forall l, StronglySorted le (Array_sort cmp l).
Proof.
  intros Ht Ha Hb. induction l as [|x l IH]; simpl; [constructor|].
  now apply sort_insert_sorted.
Qed.

Lemma StronglySorted_firstn {A : Type} (le : A -> A -> Prop) (l : list A) :
  StronglySorted le l -> forall n, StronglySorted le (firstn n l).
Proof.
  induction 1 as [|x l Hs IH Hall]; intros [|n]; simpl; try constructor.
  - apply IH.
  - rewrite Forall_forall in *. intros y Hy. apply Hall.
    rewrite <- (firstn_skipn n l). apply in_or_app. now left.
Qed.

(** ** The report's sort *)

Section Lex.
Context {A : Type}.
Variables primary secondary : A -> Q.

Lemma lexLe_trans x y z :
  lexLe primary secondary x y -> lexLe primary secondary y z ->
  lexLe primary secondary x z.
Proof. unfold lexLe. intros [?|[? ?]] [?|[? ?]]; [left|left|left|right; split]; lra. Qed.

(** The comparator [primary a - primary b || secondary a - secondary b]
    is positive exactly when [a] must go after [b]. *)
Lemma lex_cmp_after x y :
  Number_positive (num_or (primary x - primary y) (secondary x - secondary y)) = true ->
  lexLe primary secondary y x.
Proof.
  rewrite num_or_positive. unfold lexLe.
  intros [?|[? ?]]; [left | right; split]; lra.
Qed.

Lemma lex_cmp_before x y :
  Number_positive (num_or (primary x - primary y) (secondary x - secondary y)) = false ->
  lexLe primary secondary x y.
Proof.
  intros Hn. unfold lexLe.
  destruct (Qlt_le_dec (primary x) (primary y)) as [?|Hge]; [now left|].
  right.
  assert (Hnot : ~ (0 < primary x - primary y
                    \/ (primary x - primary y == 0
                        /\ 0 < secondary x - secondary y))%Q).
  { rewrite <- num_or_positive. now rewrite Hn. }
  destruct (Qlt_le_dec (primary y) (primary x)).
  - exfalso. apply Hnot. left. lra.
  - assert (primary x == primary y) by lra. split; [assumption|].
    destruct (Qlt_le_dec (secondary y) (secondary x)); [|assumption].
    exfalso. apply Hnot. right. split; lra.
Qed.
End Lex.

Import Report.

(** C5: for each of the four keys [sortCustomers] rearranges the list into
    the order of the primary metric in the requested direction, ties in the
    order of the other metric in the same direction; and the three customers
    (100, 2), (500, 1), (500, 5) sorted by [ltv_desc] come out as (500, 5),
    (500, 1), (100, 2). *)
Theorem C5_sortCustomers_ordered :
  (forall (customers : list Row.t) (sort : SortKey),
     Permutation customers (sortCustomers customers sort)
     /\ StronglySorted (ordered sort) (sortCustomers customers sort))
  /\ sortCustomers
       [Samples.row 100 2; Samples.row 500 1; Samples.row 500 5] ltv_desc
     = [Samples.row 500 5; Samples.row 500 1; Samples.row 100 2].
Proof.
  split; [|reflexivity].
  intros customers sort. split.
  - destruct sort; apply Array_sort_perm.
  - destruct sort; unfold sortCustomers, ordered; apply Array_sort_sorted.
    + intros x y z Hxy Hyz. exact (lexLe_trans _ _ z y x Hyz Hxy).
    + intros x y. apply (lex_cmp_after Row.totalSpent Row.ordersCount y x).
    + intros x y. apply (lex_cmp_before Row.totalSpent Row.ordersCount y x).
    + apply lexLe_trans.
    + apply lex_cmp_after.
    + apply lex_cmp_before.
    + intros x y z Hxy Hyz. exact (lexLe_trans _ _ z y x Hyz Hxy).
    + intros x y. apply (lex_cmp_after Row.ordersCount Row.totalSpent y x).
    + intros x y. apply (lex_cmp_before Row.ordersCount Row.totalSpent y x).
    + apply lexLe_trans.
    + apply lex_cmp_after.
    + apply lex_cmp_before.
Qed.

(** ** The top-customers list *)

Import Analytics.

Lemma insertTopCustomer_sorted lst customer :
  StronglySorted spendDesc (insertTopCustomer lst customer).
Proof.
  unfold insertTopCustomer, Array_slice0. cbv zeta.
  apply StronglySorted_firstn. apply Array_sort_sorted; unfold spendDesc.
  - intros x y z ? ?. lra.
  - intros x y Hp. apply Number_positive_spec in Hp. lra.
  - intros x y Hn.
    destruct (Qlt_le_dec (Top.totalSpent x) (Top.totalSpent y)) as [Hlt|]; [|assumption].
    assert (Hp : Number_positive (Top.totalSpent y - Top.totalSpent x) = true)
      by (apply Number_positive_spec; lra).
    congruence.
Qed.

Lemma insertTopCustomer_length lst customer :
  (List.length (insertTopCustomer lst customer) <= 10)%nat.
Proof. unfold insertTopCustomer, Array_slice0. apply firstn_le_length. Qed.

(** C6: whatever the candidates and their order, the list built from the
    empty list by [insertTopCustomer] is sorted by descending spend and
    holds at most ten entries. *)
Theorem C6_top_customers_sorted_bounded (candidates : list Top.t) :
  let top := fold_left insertTopCustomer candidates [] in
  StronglySorted spendDesc top /\ (List.length top <= 10)%nat.
Proof.
  cbv zeta.
  destruct candidates as [|c cs] using rev_ind.
  - simpl. split; [constructor | lia].
  - rewrite fold_left_app. simpl. split.
    + apply insertTopCustomer_sorted.
    + apply insertTopCustomer_length.
Qed.

End SortFacts.

(* ================================================================== *)
(** * CSV fields *)

Module CsvFacts.
Import Report Notions.

Lemma append_assoc (a b c : string) : ((a ++ b) ++ c)%string = (a ++ (b ++ c))%string.
Proof. induction a as [|x a IH]; simpl; [reflexivity | now rewrite IH]. Qed.

Lemma append_empty_r (a : string) : (a ++ "")%string = a.
Proof. induction a as [|x a IH]; simpl; [reflexivity | now rewrite IH]. Qed.

Lemma append_char (a : string) (c : ascii) (b : string) :
  ((a ++ String c "") ++ b)%string = (a ++ String c b)%string.
Proof. now rewrite append_assoc. Qed.

Lemma needsQuoting_spec text :
  needsQuoting text = true
  <-> mentions quote text \/ mentions comma text \/ mentions newline text.
Proof.
  unfold mentions. induction text as [|c rest IH]; simpl.
  - split; [discriminate | tauto].
  - rewrite !orb_true_iff, IH, !Ascii.eqb_eq. split.
    + intros [[[->| ->]| ->]|[?|[?|?]]]; tauto.
    + intros [[<-|?]|[[<-|?]|[<-|?]]]; tauto.
Qed.

(** Inside a quoted field the reader undoes the doubling and stops at the
    closing quote. *)
Lemma readCsv_quoted text :
  forall field,
    readCsv (doubleQuotes text ++ String quote "") true field
    = [(field ++ text)%string].
Proof.
  induction text as [|c rest IH]; intros field.
  - simpl. now rewrite append_empty_r.
  - simpl. destruct (Ascii.eqb c quote) eqn:E.
    + apply Ascii.eqb_eq in E. subst c. simpl. rewrite IH. now rewrite append_char.
    + simpl. rewrite E, IH. now rewrite append_char.
Qed.

(** A text without special characters is read back as it stands. *)
Lemma readCsv_plain text :
  needsQuoting text = false ->
  forall field, readCsv text false field = [(field ++ text)%string].
Proof.
  induction text as [|c rest IH]; intros Hplain field.
  - simpl. now rewrite append_empty_r.
  - simpl in Hplain. apply orb_false_iff in Hplain as [Hc Hrest].
    apply orb_false_iff in Hc as [Hc Hnl]. apply orb_false_iff in Hc as [Hq Hcomma].
    simpl. rewrite Hcomma, Hq. simpl. rewrite (IH Hrest). now rewrite append_char.
Qed.

Section WithHost.
Context `{Host}.

(** C7: [escapeCsv] wraps a text in double quotes, its own double quotes
    doubled, when the text holds a double quote, a comma or a line feed, and
    leaves it as it is otherwise; read back as a CSV record the result is
    the single field [text]; and the sample name comes out as one quoted
    field. *)
Theorem C7_escapeCsv_round_trip :
  (forall text : string,
     (mentions quote text \/ mentions comma text \/ mentions newline text ->
      escapeCsv (CsvText text)
      = String quote (doubleQuotes text ++ String quote ""))
     /\ (~ (mentions quote text \/ mentions comma text \/ mentions newline text) ->
         escapeCsv (CsvText text) = text)
     /\ readCsv (escapeCsv (CsvText text)) false "" = [text])
  /\ escapeCsv (CsvText Samples.obrien) = Samples.obrienCsv.
Proof.
  split; [|reflexivity].
  intros text. unfold escapeCsv. rewrite <- needsQuoting_spec.
  destruct (needsQuoting text) eqn:E.
  - split; [reflexivity|]. split; [intros C; now contradiction C|].
    simpl. apply readCsv_quoted.
  - split; [discriminate|]. split; [reflexivity|].
    apply (readCsv_plain text E "").
Qed.

End WithHost.

(** The sample name: escaped, then read back. *)
Lemma C7_escapeCsv_round_trip_witness :
  (mentions quote Samples.obrien \/ mentions comma Samples.obrien
   \/ mentions newline Samples.obrien)
  /\ escapeCsv (CsvText Samples.obrien)
     = String quote (doubleQuotes Samples.obrien ++ String quote "")
  /\ readCsv Samples.obrienCsv false "" = [Samples.obrien].
Proof.
  assert (Hm : mentions quote Samples.obrien \/ mentions comma Samples.obrien
               \/ mentions newline Samples.obrien).
  { right. left. unfold mentions. simpl. tauto. }
  split; [exact Hm|]. split.
  - exact (proj1 (proj1 C7_escapeCsv_round_trip Samples.obrien) Hm).
  - exact (proj2 (proj2 (proj1 C7_escapeCsv_round_trip Samples.obrien))).
Defined.

End CsvFacts.

(* ================================================================== *)
(** * The tag filter *)

Module FilterFacts.
Import Report Notions.

Lemma every_some {A : Type} (p : A -> bool) (l : list A) :
  l <> [] -> forallb p l = true -> existsb p l = true.
Proof.
  destruct l as [|x l]; [contradiction|].
  simpl. intros _ Hall. apply andb_true_iff in Hall as [Hx _]. now rewrite Hx.
Qed.

Lemma tagsMatch_all_any (tagsList : list string) (customer : Row.t) :
  tagsList <> [] ->
  tagsMatch all tagsList customer = true ->
  tagsMatch any tagsList customer = true.
Proof. unfold tagsMatch. apply every_some. Qed.

Section WithHost.
Context `{Host}.

Lemma keepCustomer_all_any (c : Criteria) (customer : Row.t) :
  keepCustomer (withTagsMode all c) customer = true ->
  keepCustomer (withTagsMode any c) customer = true.
Proof.
  unfold keepCustomer, withTagsMode. cbn [query minOrdersValue maxOrdersValue
    minSpentValue maxSpentValue tagsList tagsMode createdStartDate createdEndDate
    firstOrderStartDate firstOrderEndDate].
  repeat match goal with
  | |- (if ?b then false else _) = true -> (if ?b then false else _) = true =>
      destruct b; [discriminate|]
  end.
  destruct (tagsList c) as [|t ts] eqn:Et; [simpl; exact (fun h => h)|].
  cbn [List.length Nat.eqb negb andb].
  destruct (tagsMatch all (t :: ts) customer) eqn:Eall; [|discriminate].
  rewrite (tagsMatch_all_any (t :: ts) customer ltac:(discriminate) Eall).
  exact (fun h => h).
Qed.

(** C8: for the same request and the same customers, whoever passes the
    filter with [tags_mode=all] passes it with [tags_mode=any]. *)
Theorem C8_all_subset_of_any (c : Criteria) (customers : list Row.t) :
  incl (filtered (withTagsMode all c) customers)
       (filtered (withTagsMode any c) customers).
Proof.
  intros customer. unfold filtered. rewrite !filter_In.
  intros [Hin Hkeep]. split; [assumption|]. now apply keepCustomer_all_any.
Qed.

End WithHost.

End FilterFacts.

(* ================================================================== *)
(** * The customer walks *)

Module WalkFacts.
Import PaginateFacts Notions.

Lemma last_cons_default {A : Type} (l : list A) :
  forall (a d d' : A), last (a :: l) d = last (a :: l) d'.
Proof.
  induction l as [|b l IH]; intros a d d'; [reflexivity|].
  change (last (b :: l) d = last (b :: l) d'). apply IH.
Qed.

Lemma last_app_default {A : Type} (l1 l2 : list A) (d : A) :
  last (l1 ++ l2) d = last l2 (last l1 d).
Proof.
  revert d. induction l1 as [|x l1 IH]; intros d; [reflexivity|].
  destruct l1 as [|y l1].
  - destruct l2 as [|a l2]; [reflexivity|].
    change (last (a :: l2) d = last (a :: l2) x). apply last_cons_default.
  - change (last ((y :: l1) ++ l2) d = last l2 (last (y :: l1) d)). apply IH.
Qed.

Lemma currencyCodes_app {Node : Type} (currencyOf : Node -> option string) l1 l2 :
  currencyCodes currencyOf (l1 ++ l2)
  = (currencyCodes currencyOf l1 ++ currencyCodes currencyOf l2)%list.
Proof. unfold currencyCodes. apply flat_map_app. Qed.

(** ** Analytics route *)

Section AnalyticsWalk.
Import Analytics.

(** What one page does to the loop variables. *)
Lemma visit_currency nodes :
  forall st,
    w_currencyCode (fold_left visitCustomer nodes st)
    = last (currencyCodes currencyOf nodes) (w_currencyCode st).
Proof.
  induction nodes as [|c nodes IH]; intros st; [reflexivity|].
  cbn [fold_left]. rewrite IH.
  change (currencyCodes currencyOf (c :: nodes))
    with ((match currencyOf c with Some code => [code] | None => [] end)
          ++ currencyCodes currencyOf nodes)%list.
  rewrite last_app_default. cbn [visitCustomer w_currencyCode].
  destruct (currencyOf c); reflexivity.
Qed.

Lemma visit_count nodes :
  forall st,
    w_customersCount (fold_left visitCustomer nodes st)
    = w_customersCount st + Z.of_nat (List.length nodes).
Proof.
  induction nodes as [|c nodes IH]; intros st; cbn [fold_left List.length].
  - lia.
  - rewrite IH. cbn [visitCustomer w_customersCount]. lia.
Qed.

Lemma pageBody_normal json st st' :
  pageBody json st = Normal st' ->
  exists page,
    data json = Some page
    /\ st' = turnPage (fold_left visitCustomer (nodes page) st) page.
Proof.
  unfold pageBody. destruct (truthy (errors json)); [discriminate|].
  destruct (data json) as [page|]; [|discriminate].
  intros [= <-]. now exists page.
Qed.

Lemma walk_currency upstream :
  forall st st',
    walkCustomers upstream st = Returned st' ->
    w_currencyCode st'
    = last (currencyCodes currencyOf
              (flat_map (fun json => match data json with
                                     | Some page => nodes page
                                     | None => []
                                     end)
                        (awaited wantsMore pageBody upstream st)))
           (w_currencyCode st).
Proof.
  unfold walkCustomers.
  induction upstream as [|json rest IH]; intros st st' Hrun; simpl in *.
  - destruct (wantsMore st); [discriminate|]. now injection Hrun as <-.
  - destruct (wantsMore st); [|now injection Hrun as <-].
    destruct (pageBody json st) as [st1|e] eqn:Hb; [|discriminate].
    destruct (pageBody_normal _ _ _ Hb) as (page & Hd & ->).
    cbn [flat_map]. rewrite Hd, currencyCodes_app, last_app_default.
    rewrite (IH _ _ Hrun). cbn [turnPage w_currencyCode].
    now rewrite visit_currency.
Qed.

Lemma walk_count_nonneg upstream st st' :
  0 <= w_customersCount st ->
  walkCustomers upstream st = Returned st' ->
  0 <= w_customersCount st'.
Proof.
  unfold walkCustomers.
  apply (paginate_invariant wantsMore pageBody (fun s => 0 <= w_customersCount s)).
  intros json s s' Hs Hb.
  destruct (pageBody_normal _ _ _ Hb) as (page & _ & ->).
  cbn [turnPage w_customersCount]. rewrite visit_count. lia.
Qed.

(** The walk returns once the upstream serves clean pages up to one that
    reports no next page. *)
Lemma analytics_walk_returns upstream :
  Forall (fun json => truthy (errors json) = false /\ data json <> None) upstream ->
  (exists json page, In json upstream /\ data json = Some page
                     /\ hasNextPage page = false) ->
  exists summary, fetchAllCustomers upstream = Returned summary.
Proof.
  intros Hclean (last & page & Hin & Hd & Hstop).
  destruct (paginate_returns wantsMore pageBody upstream walkStart) as [st Hst].
  - eapply Forall_impl; [|exact Hclean]. intros json [Ht Hdata] s.
    unfold pageBody. rewrite Ht.
    destruct (data json); [eexists; reflexivity | contradiction].
  - exists last. split; [assumption|]. intros s s' Hb.
    destruct (pageBody_normal _ _ _ Hb) as (page' & Hd' & ->).
    rewrite Hd in Hd'. injection Hd' as <-.
    unfold wantsMore. cbn [turnPage w_hasNextPage]. now rewrite Hstop.
  - exists (summarize st). unfold fetchAllCustomers, walkCustomers.
    now rewrite Hst.
Qed.

End AnalyticsWalk.

(** ** Report route *)

Section ReportWalk.
Import Report.
Context `{Host}.

Lemma report_visit_currency nodes :
  forall st,
    w_currencyCode (fold_left visitCustomer nodes st)
    = last (currencyCodes currencyOf nodes) (w_currencyCode st).
Proof.
  induction nodes as [|c nodes IH]; intros st; [reflexivity|].
  cbn [fold_left]. rewrite IH.
  change (currencyCodes currencyOf (c :: nodes))
    with ((match currencyOf c with Some code => [code] | None => [] end)
          ++ currencyCodes currencyOf nodes)%list.
  rewrite last_app_default. cbn [visitCustomer w_currencyCode].
  destruct (currencyOf c); reflexivity.
Qed.

Lemma report_pageBody_normal json st st' :
  pageBody json st = Normal st' ->
  exists page,
    data json = Some page
    /\ st' = turnPage (fold_left visitCustomer (nodes page) st) page.
Proof.
  unfold pageBody. destruct (truthy (errors json)); [discriminate|].
  destruct (data json) as [page|]; [|discriminate].
  intros [= <-]. now exists page.
Qed.

Lemma report_walk_currency upstream :
  forall st st',
    walkCustomers upstream st = Returned st' ->
    w_currencyCode st'
    = last (currencyCodes currencyOf
              (flat_map (fun json => match data json with
                                     | Some page => nodes page
                                     | None => []
                                     end)
                        (awaited w_hasNextPage pageBody upstream st)))
           (w_currencyCode st).
Proof.
  unfold walkCustomers.
  induction upstream as [|json rest IH]; intros st st' Hrun; simpl in *.
  - destruct (w_hasNextPage st); [discriminate|]. now injection Hrun as <-.
  - destruct (w_hasNextPage st); [|now injection Hrun as <-].
    destruct (pageBody json st) as [st1|e] eqn:Hb; [|discriminate].
    destruct (report_pageBody_normal _ _ _ Hb) as (page & Hd & ->).
    cbn [flat_map]. rewrite Hd, currencyCodes_app, last_app_default.
    rewrite (IH _ _ Hrun). cbn [turnPage w_currencyCode].
    now rewrite report_visit_currency.
Qed.

Lemma report_walk_returns upstream :
  Forall (fun json => truthy (errors json) = false /\ data json <> None) upstream ->
  (exists json page, In json upstream /\ data json = Some page
                     /\ hasNextPage page = false) ->
  exists fetched, fetchAllCustomers upstream = Returned fetched.
Proof.
  intros Hclean (last & page & Hin & Hd & Hstop).
  destruct (paginate_returns w_hasNextPage pageBody upstream walkStart) as [st Hst].
  - eapply Forall_impl; [|exact Hclean]. intros json [Ht Hdata] s.
    unfold pageBody. rewrite Ht.
    destruct (data json); [eexists; reflexivity | contradiction].
  - exists last. split; [assumption|]. intros s s' Hb.
    destruct (report_pageBody_normal _ _ _ Hb) as (page' & Hd' & ->).
    rewrite Hd in Hd'. injection Hd' as <-.
    cbn [turnPage w_hasNextPage]. exact Hstop.
  - eexists. unfold fetchAllCustomers, walkCustomers. rewrite Hst. reflexivity.
Qed.

End ReportWalk.

(** The last code of the list, read as a split of the customers: the
    codes come from the customers for whom [currencyOf] gives one. *)
Lemma last_code_split {Node : Type} (currencyOf : Node -> option string)
  (customers : list Node) :
  forall default,
    (exists before customer after,
       customers = (before ++ customer :: after)%list
       /\ currencyOf customer
          = Some (last (currencyCodes currencyOf customers) default)
       /\ forall later, In later after -> currencyOf later = None)
    \/ ((forall customer, In customer customers -> currencyOf customer = None)
        /\ last (currencyCodes currencyOf customers) default = default).
Proof.
  induction customers as [|c customers IH]; intros default.
  - right. split; [intros ? []|reflexivity].
  - change (currencyCodes currencyOf (c :: customers))
      with ((match currencyOf c with Some code => [code] | None => [] end)
            ++ currencyCodes currencyOf customers)%list.
    rewrite last_app_default.
    destruct (IH (last (match currencyOf c with Some code => [code] | None => [] end)
                       default))
      as [(before & customer & after & -> & Hcode & Hafter)|[Hnone Hlast]].
    + left. exists (c :: before), customer, after. now repeat split.
    + rewrite Hlast. destruct (currencyOf c) as [code|] eqn:Hc.
      * left. exists [], c, customers. repeat split; assumption.
      * right. split; [|reflexivity]. intros customer [<-|Hin]; auto.
Qed.

Lemma lastCurrencyCode_carried {Node : Type} (currencyOf : Node -> option string)
  (carries : Node -> string -> Prop) (customers : list Node) :
  (forall customer code, currencyOf customer = Some code <-> carries customer code) ->
  lastCarried carries customers (lastCurrencyCode currencyOf customers).
Proof.
  intros Hagree. unfold lastCarried, lastCurrencyCode.
  destruct (last_code_split currencyOf customers "USD")
    as [(before & customer & after & Hsplit & Hcode & Hafter)|[Hnone Hlast]].
  - left. exists before, customer, after. split; [exact Hsplit|].
    split; [now apply Hagree|].
    intros later code Hin Hcarries. apply Hagree in Hcarries.
    rewrite (Hafter _ Hin) in Hcarries. discriminate.
  - right. split; [|exact Hlast].
    intros customer code Hin Hcarries. apply Hagree in Hcarries.
    rewrite (Hnone _ Hin) in Hcarries. discriminate.
Qed.

(** The test of the analytics walk picks the customers that carry a code. *)
Lemma analytics_currencyOf_carries customer code :
  Analytics.currencyOf customer = Some code <-> analyticsCarries customer code.
Proof.
  unfold Analytics.currencyOf, analyticsCarries. split.
  - destruct (Analytics.amountSpent customer) as [money|]; [|discriminate].
    destruct (string_truthy (Analytics.currencyCode money)) eqn:Ht; [|discriminate].
    intros [= <-]. exists money. repeat split.
    intros He. rewrite He in Ht. discriminate.
  - intros (money & -> & <- & Hne).
    destruct (Analytics.currencyCode money); [contradiction | reflexivity].
Qed.

Lemma report_currencyOf_carries customer code :
  Report.currencyOf customer = Some code <-> reportCarries customer code.
Proof.
  unfold Report.currencyOf, reportCarries. split.
  - destruct (Report.amountSpent customer) as [money|]; [|discriminate].
    destruct (string_truthy (Report.currencyCode money)) eqn:Ht; [|discriminate].
    intros [= <-]. exists money. repeat split.
    intros He. rewrite He in Ht. discriminate.
  - intros (money & -> & <- & Hne).
    destruct (Report.currencyCode money); [contradiction | reflexivity].
Qed.

(** C9: when a customer walk returns, the currency code it reports is the
    one carried by the last fetched customer, in upstream page order, that
    has an amount spent whose currency code is not empty, and it is USD when
    no fetched customer carries one.  Both routes. *)
Theorem C9_last_seen_currency `{Host} :
  (forall upstream summary,
     Analytics.fetchAllCustomers upstream = Returned summary ->
     lastCarried analyticsCarries (analyticsFetched upstream)
                 (Analytics.summaryCurrencyCode summary))
  /\
  (forall upstream fetched,
     Report.fetchAllCustomers upstream = Returned fetched ->
     lastCarried reportCarries (reportFetched upstream)
                 (Report.fetchedCurrencyCode fetched)).
Proof.
  split.
  - intros upstream summary. unfold Analytics.fetchAllCustomers.
    destruct (Analytics.walkCustomers upstream Analytics.walkStart) as [st| |] eqn:Hw;
      try discriminate.
    intros [= <-]. cbn [Analytics.summarize Analytics.summaryCurrencyCode].
    rewrite (walk_currency _ _ _ Hw).
    apply (lastCurrencyCode_carried Analytics.currencyOf analyticsCarries).
    apply analytics_currencyOf_carries.
  - intros upstream fetched. unfold Report.fetchAllCustomers.
    destruct (Report.walkCustomers upstream Report.walkStart) as [st| |] eqn:Hw;
      try discriminate.
    intros [= <-]. cbn [Report.fetchedCurrencyCode].
    rewrite (report_walk_currency _ _ _ Hw).
    apply (lastCurrencyCode_carried Report.currencyOf reportCarries).
    apply report_currencyOf_carries.
Qed.

(** The sample pages: EUR from the first customer outlives the empty code
    and the missing amount that follow. *)
Lemma C9_last_seen_currency_witness :
  (exists summary,
     Analytics.fetchAllCustomers Samples.analyticsPages = Returned summary
     /\ Analytics.summaryCurrencyCode summary = "EUR"
     /\ lastCarried analyticsCarries (analyticsFetched Samples.analyticsPages)
                    (Analytics.summaryCurrencyCode summary))
  /\
  (exists fetched,
     Report.fetchAllCustomers Samples.reportPages = Returned fetched
     /\ Report.fetchedCurrencyCode fetched = "CAD"
     /\ lastCarried reportCarries (reportFetched Samples.reportPages)
                    (Report.fetchedCurrencyCode fetched)).
Proof.
  split; eexists; (split; [reflexivity|]); (split; [reflexivity|]).
  - apply (proj1 (C9_last_seen_currency (H := SampleHost.host))
             Samples.analyticsPages _ eq_refl).
  - apply (proj2 (C9_last_seen_currency (H := SampleHost.host))
             Samples.reportPages _ eq_refl).
Defined.

(** ** The average *)

Lemma inject_Z_nonzero n : n <> 0 -> Qeq_bool (inject_Z n) 0 = false.
Proof.
  intros Hn. destruct (Qeq_bool (inject_Z n) 0) eqn:E; [|reflexivity].
  apply Qeq_bool_iff in E. unfold Qeq in E. simpl in E. lia.
Qed.

(** C10: in the summary the analytics walk returns, [averageClv] is
    [totalClv / customersCount] when the count is positive and 0 when the
    count is 0; the count is never negative, so the quotient is never taken
    with a zero divisor. *)
Theorem C10_average_guarded upstream summary :
  Analytics.fetchAllCustomers upstream = Returned summary ->
  0 <= Analytics.customersCount summary
  /\ (0 < Analytics.customersCount summary ->
      Analytics.averageClv summary
      = Some (Analytics.totalClv summary
              / inject_Z (Analytics.customersCount summary))%Q)
  /\ (Analytics.customersCount summary = 0 ->
      Analytics.averageClv summary = Some 0%Q)
  /\ Analytics.averageClv summary <> None.
Proof.
  unfold Analytics.fetchAllCustomers.
  destruct (Analytics.walkCustomers upstream Analytics.walkStart) as [st| |] eqn:Hw;
    try discriminate.
  intros [= <-].
  assert (Hc : 0 <= Analytics.w_customersCount st).
  { apply (walk_count_nonneg upstream Analytics.walkStart st); [simpl; lia|exact Hw]. }
  cbn [Analytics.summarize Analytics.customersCount Analytics.averageClv
       Analytics.totalClv].
  split; [exact Hc|].
  destruct (Z.eqb_spec (Analytics.w_customersCount st) 0) as [E|E].
  - repeat split; [lia | discriminate].
  - unfold Number_div. rewrite (inject_Z_nonzero _ E).
    repeat split; [contradiction | discriminate].
Qed.

(** The sample pages: three customers, 200 spent in all. *)
Lemma C10_average_guarded_witness :
  exists summary,
    Analytics.fetchAllCustomers Samples.analyticsPages = Returned summary
    /\ Analytics.customersCount summary = 3
    /\ Analytics.averageClv summary
       = Some (Analytics.totalClv summary / inject_Z 3)%Q.
Proof.
  eexists. split; [reflexivity|]. split; [reflexivity|].
  apply (C10_average_guarded Samples.analyticsPages _ eq_refl). reflexivity.
Defined.

End WalkFacts.

(* ================================================================== *)
(** * The order-window scanner *)

Module ScanFacts.
Import PaginateFacts Notions Analytics.

(** ** The map of new customers *)

Lemma Map_has_spec (m : NewCustomersMap) key :
  Map_has m key = true <-> In key (map fst m).
Proof.
  unfold Map_has. rewrite existsb_exists. split.
  - intros ((k, v) & Hin & Heq). simpl in Heq. apply String.eqb_eq in Heq.
    subst. now apply (in_map fst) in Hin.
  - intros Hin. apply in_map_iff in Hin as ((k, v) & <- & Hin).
    exists (k, v). split; [assumption | apply String.eqb_refl].
Qed.

Lemma Map_set_fresh (m : NewCustomersMap) key v :
  Map_has m key = false -> Map_set m key v = (m ++ [(key, v)])%list.
Proof.
  induction m as [|(k, old) m IH]; simpl; [reflexivity|].
  intros Hfresh. apply orb_false_iff in Hfresh as [Hk Hm].
  simpl in Hk. rewrite Hk. now rewrite IH.
Qed.

Lemma wellKeyed_unique (m : NewCustomersMap) k v v' :
  wellKeyed m -> In (k, v) m -> In (k, v') m -> v = v'.
Proof.
  intros [Hnd _]. induction m as [|(k0, v0) m IH]; simpl in *; [tauto|].
  inversion Hnd as [|? ? Hnotin Hnd']; subst.
  intros [E1|H1] [E2|H2].
  - congruence.
  - injection E1 as -> ->. exfalso. apply Hnotin. now apply (in_map fst) in H2.
  - injection E2 as -> ->. exfalso. apply Hnotin. now apply (in_map fst) in H1.
  - now apply IH.
Qed.

Lemma wellKeyed_add (m : NewCustomersMap) key v :
  wellKeyed m -> Map_has m key = false -> New.id v = key ->
  wellKeyed (m ++ [(key, v)])%list.
Proof.
  intros [Hnd Hid] Hfresh Hv. split.
  - rewrite map_app. simpl. apply NoDup_app.
    + assumption.
    + repeat constructor. intros [].
    + intros k Hk Hk'. destruct Hk' as [<-|[]].
      apply Map_has_spec in Hk. congruence.
  - intros k v' Hin. apply in_app_or in Hin as [Hin|[E|[]]].
    + now apply Hid.
    + now injection E as <- <-.
Qed.

Section WithHost.
Context `{Host}.
Variables start end_ : JsDate.

(** ** One order *)

(** What a visit may do to the map: nothing, or file a customer not yet in
    it under the customer's id. *)
Lemma visitOrder_map st order :
  s_newCustomersMap (visitOrder start end_ st order) = s_newCustomersMap st
  \/ exists c entry,
       customer order = Some c
       /\ Map_has (s_newCustomersMap st) (id c) = false
       /\ New.id entry = id c
       /\ s_newCustomersMap (visitOrder start end_ st order)
          = (s_newCustomersMap st ++ [(id c, entry)])%list.
Proof.
  unfold visitOrder. destruct (customer order) as [c|]; [|now left].
  destruct (string_truthy (id c)); cbn [negb]; [|now left].
  destruct (firstOrderDateRawOf c) as [raw|].
  - destruct (Date_ge (Date_parse raw) start && Date_le (Date_parse raw) end_);
      cbn [negb]; [|now left].
    destruct (Map_has (s_newCustomersMap st) (id c)) eqn:Hhas; [now left|].
    right. eexists c, _. cbn [s_newCustomersMap].
    rewrite (Map_set_fresh _ _ _ Hhas). repeat split; try reflexivity; exact Hhas.
  - destruct (Qeq_bool (num_or_zero (numberOfOrders c)) 1); cbn [negb]; [|now left].
    destruct (Map_has (s_newCustomersMap st) (id c)) eqn:Hhas; [now left|].
    right. eexists c, _. cbn [s_newCustomersMap].
    rewrite (Map_set_fresh _ _ _ Hhas). repeat split; try reflexivity; exact Hhas.
Qed.

Lemma visitOrder_flag st order :
  s_usedFallback st = true ->
  s_usedFallback (visitOrder start end_ st order) = true.
Proof.
  intros Hflag. unfold visitOrder.
  destruct (customer order) as [c|]; [|exact Hflag].
  destruct (string_truthy (id c)); cbn [negb]; [|exact Hflag].
  destruct (firstOrderDateRawOf c) as [raw|].
  - destruct (Date_ge (Date_parse raw) start && Date_le (Date_parse raw) end_);
      cbn [negb]; [|exact Hflag].
    destruct (Map_has (s_newCustomersMap st) (id c)); exact Hflag.
  - destruct (Qeq_bool (num_or_zero (numberOfOrders c)) 1); cbn [negb];
      [|exact Hflag].
    destruct (Map_has (s_newCustomersMap st) (id c)); reflexivity.
Qed.

(** The fallback branch: the flag is raised, and the customer is in the map
    afterwards, filed with the creation timestamp of this order unless
    the map already held the customer. *)
Lemma visitOrder_fallback st order c :
  viaFallback order c ->
  let st' := visitOrder start end_ st order in
  s_usedFallback st' = true
  /\ Map_has (s_newCustomersMap st') (id c) = true
  /\ (Map_has (s_newCustomersMap st) (id c) = false ->
      exists entry,
        New.firstOrderDate entry = createdAt order
        /\ In (id c, entry) (s_newCustomersMap st')).
Proof.
  intros (Hc & Hid & Hraw & Hone). cbv zeta.
  apply Qeq_bool_iff in Hone.
  unfold visitOrder. rewrite Hc, Hid, Hraw, Hone. cbn [negb].
  destruct (Map_has (s_newCustomersMap st) (id c)) eqn:Hhas.
  - cbn [s_usedFallback s_newCustomersMap]. repeat split; [assumption|discriminate].
  - cbn [s_usedFallback s_newCustomersMap].
    rewrite (Map_set_fresh _ _ _ Hhas). split; [reflexivity|]. split.
    + apply Map_has_spec. rewrite map_app. apply in_or_app. right. now left.
    + intros _. eexists. split; [|apply in_or_app; right; left; reflexivity].
      cbn [New.firstOrderDate]. now destruct (string_truthy (createdAt order)).
Qed.

(** ** A run of orders *)

Lemma visits_keep st orders :
  wellKeyed (s_newCustomersMap st) ->
  let st' := fold_left (visitOrder start end_) orders st in
  wellKeyed (s_newCustomersMap st')
  /\ (s_usedFallback st = true -> s_usedFallback st' = true)
  /\ (forall kv, In kv (s_newCustomersMap st) -> In kv (s_newCustomersMap st')).
Proof.
  cbv zeta. revert st. induction orders as [|order orders IH]; intros st Hwk.
  - simpl. auto.
  - cbn [fold_left].
    assert (Hstep : wellKeyed (s_newCustomersMap (visitOrder start end_ st order))
                    /\ forall kv, In kv (s_newCustomersMap st) ->
                                  In kv (s_newCustomersMap (visitOrder start end_ st order))).
    { destruct (visitOrder_map st order) as [->|(c & entry & _ & Hfresh & Hid & ->)].
      - auto.
      - split; [now apply wellKeyed_add|]. intros kv Hin. apply in_or_app. now left. }
    destruct Hstep as [Hwk' Hmono].
    destruct (IH _ Hwk') as (Hwk'' & Hflag & Hkeep).
    split; [assumption|]. split.
    + intros Hf. apply Hflag. now apply visitOrder_flag.
    + intros kv Hin. apply Hkeep. now apply Hmono.
Qed.

(** Customers with another id leave the key alone. *)
Lemma visits_unseen st orders key :
  unseen key orders ->
  Map_has (s_newCustomersMap st) key = false ->
  Map_has (s_newCustomersMap (fold_left (visitOrder start end_) orders st)) key
  = false.
Proof.
  revert st. induction orders as [|order orders IH]; intros st Hun Hfresh;
    [exact Hfresh|].
  inversion Hun as [|? ? Hother Hrest]; subst. cbn [fold_left].
  apply IH; [assumption|].
  destruct (visitOrder_map st order) as [->|(c & entry & Hc & _ & _ & ->)];
    [assumption|].
  destruct (Map_has (s_newCustomersMap st ++ [(id c, entry)])%list key) eqn:E;
    [|reflexivity].
  apply Map_has_spec in E. rewrite map_app in E. apply in_app_or in E as [E|[E|[]]].
  - apply Map_has_spec in E. congruence.
  - simpl in E. now apply Hother in Hc.
Qed.

(** ** The whole scan *)

Lemma ordersPageBody_normal json st st' :
  ordersPageBody start end_ json st = Normal st' ->
  exists page,
    o_data json = Some page
    /\ st' = turnOrdersPage
               (fold_left (visitOrder start end_) (o_nodes page) st) page.
Proof.
  unfold ordersPageBody. destruct (truthy (o_errors json)); [discriminate|].
  destruct (o_data json) as [page|]; [|discriminate].
  intros [= <-]. now exists page.
Qed.

(** The flag and the map depend on the earlier flag and map only. *)
Lemma visitOrder_core st1 st2 order :
  s_usedFallback st1 = s_usedFallback st2 ->
  s_newCustomersMap st1 = s_newCustomersMap st2 ->
  s_usedFallback (visitOrder start end_ st1 order)
  = s_usedFallback (visitOrder start end_ st2 order)
  /\ s_newCustomersMap (visitOrder start end_ st1 order)
     = s_newCustomersMap (visitOrder start end_ st2 order).
Proof.
  intros Hf Hm. unfold visitOrder.
  destruct (customer order) as [c|]; [|now split].
  destruct (string_truthy (id c)); cbn [negb]; [|now split].
  rewrite Hf, Hm.
  destruct (firstOrderDateRawOf c) as [raw|].
  - destruct (Date_ge (Date_parse raw) start && Date_le (Date_parse raw) end_);
      cbn [negb]; [|now split].
    destruct (Map_has (s_newCustomersMap st2) (id c)); cbn; now split.
  - destruct (Qeq_bool (num_or_zero (numberOfOrders c)) 1); cbn [negb];
      [|now split].
    destruct (Map_has (s_newCustomersMap st2) (id c)); cbn; now split.
Qed.

Lemma visits_core orders :
  forall st1 st2,
    s_usedFallback st1 = s_usedFallback st2 ->
    s_newCustomersMap st1 = s_newCustomersMap st2 ->
    s_usedFallback (fold_left (visitOrder start end_) orders st1)
    = s_usedFallback (fold_left (visitOrder start end_) orders st2)
    /\ s_newCustomersMap (fold_left (visitOrder start end_) orders st1)
       = s_newCustomersMap (fold_left (visitOrder start end_) orders st2).
Proof.
  induction orders as [|order orders IH]; intros st1 st2 Hf Hm; [now split|].
  cbn [fold_left]. destruct (visitOrder_core st1 st2 order Hf Hm) as [Hf' Hm'].
  now apply IH.
Qed.

(** A returned scan has folded [visitOrder] over the orders it visited. *)
Lemma scan_is_fold upstream :
  forall st st',
    scanOrders start end_ upstream st = Returned st' ->
    let orders :=
      flat_map (fun json => match o_data json with
                            | Some page => o_nodes page
                            | None => []
                            end)
               (awaited wantsMoreOrders (ordersPageBody start end_) upstream st) in
    s_usedFallback st'
    = s_usedFallback (fold_left (visitOrder start end_) orders st)
    /\ s_newCustomersMap st'
       = s_newCustomersMap (fold_left (visitOrder start end_) orders st).
Proof.
  unfold scanOrders. cbv zeta.
  induction upstream as [|json rest IH]; intros st st' Hrun; simpl in *.
  - destruct (wantsMoreOrders st); [discriminate|]. injection Hrun as <-. now split.
  - destruct (wantsMoreOrders st); [|injection Hrun as <-; now split].
    destruct (ordersPageBody start end_ json st) as [st1|e] eqn:Hb; [|discriminate].
    destruct (ordersPageBody_normal _ _ _ Hb) as (page & Hd & ->).
    cbn [flat_map]. rewrite Hd, fold_left_app.
    destruct (IH _ _ Hrun) as [Hf Hm]. rewrite Hf, Hm.
    apply visits_core; reflexivity.
Qed.

(** C4 (amended): every visited order whose customer has no resolvable
    first-order timestamp and a lifetime order count of exactly 1 raises
    [usedFallback], and its customer is among the new customers; the
    customer's [firstOrderDate] is the creation timestamp of that order when
    no earlier visited order was placed by the same customer (the first
    occurrence of a customer is the one that is kept). *)
Theorem C4_fallback_counts_new_customer upstream summary earlier order later c :
  fetchOrdersInRange start end_ upstream = Returned summary ->
  scannedOrders start end_ upstream = (earlier ++ order :: later)%list ->
  viaFallback order c ->
  usedFallback summary = true
  /\ (exists entry, In entry (newCustomers summary) /\ New.id entry = id c)
  /\ (unseen (id c) earlier ->
      forall entry,
        In entry (newCustomers summary) -> New.id entry = id c ->
        New.firstOrderDate entry = createdAt order).
Proof.
  unfold fetchOrdersInRange, scannedOrders.
  destruct (searchQuery start end_) as [query|e]; [|discriminate].
  destruct (scanOrders start end_ upstream scanStart) as [st'| |] eqn:Hscan;
    try discriminate.
  intros [= <-] Horders Hvia. cbn [usedFallback newCustomers bind].
  destruct (scan_is_fold upstream _ _ Hscan) as [Hflag Hmap].
  cbv zeta in Hflag, Hmap. rewrite Horders, fold_left_app in Hflag, Hmap.
  cbn [fold_left] in Hflag, Hmap.
  set (s0 := fold_left (visitOrder start end_) earlier scanStart) in *.
  set (s1 := visitOrder start end_ s0 order) in *.
  assert (Hwk0 : wellKeyed (s_newCustomersMap s0)).
  { apply (visits_keep scanStart earlier). split; [constructor | intros ? ? []]. }
  assert (Hwk1 : wellKeyed (s_newCustomersMap s1)).
  { apply (visits_keep s0 [order] Hwk0). }
  destruct (visits_keep s1 later Hwk1) as (Hwkf & Hflagf & Hkeep).
  destruct (visitOrder_fallback s0 order c Hvia) as (Hf1 & Hhas1 & Hfresh).
  fold s1 in Hf1, Hhas1, Hfresh.
  rewrite <- Hmap in Hwkf, Hkeep. rewrite <- Hflag in Hflagf.
  assert (Hvalues : forall entry,
            In entry (Array_sort
                        (fun a b => inject_Z (String_localeCompare
                                                (New.firstOrderDate a)
                                                (New.firstOrderDate b)))
                        (Map_values (s_newCustomersMap st')))
            <-> exists k, In (k, entry) (s_newCustomersMap st')).
  { intros entry. split.
    - intros Hin. apply (Permutation_in _ (Permutation_sym (SortFacts.Array_sort_perm _ _))) in Hin.
      unfold Map_values in Hin. apply in_map_iff in Hin as ((k, v) & <- & Hin).
      now exists k.
    - intros (k & Hin). apply (Permutation_in _ (SortFacts.Array_sort_perm _ _)).
      unfold Map_values. now apply (in_map snd) in Hin. }
  split; [now apply Hflagf|]. split.
  - apply Map_has_spec in Hhas1. apply in_map_iff in Hhas1 as ((k, v) & Hk & Hin).
    simpl in Hk. subst k. exists v. split.
    + apply Hvalues. exists (id c). now apply Hkeep.
    + destruct Hwkf as [_ Hid]. apply (Hid (id c) v). now apply Hkeep.
  - intros Hunseen entry Hin Hentry.
    assert (Hfresh0 : Map_has (s_newCustomersMap s0) (id c) = false).
    { apply (visits_unseen scanStart earlier (id c) Hunseen). reflexivity. }
    destruct (Hfresh Hfresh0) as (e0 & Hdate & Hin0).
    apply Hvalues in Hin as (k & Hin).
    assert (k = id c) by (destruct Hwkf as [_ Hid]; rewrite <- (Hid k entry Hin); exact Hentry).
    subst k.
    rewrite (wellKeyed_unique _ _ entry e0 Hwkf Hin (Hkeep _ Hin0)). exact Hdate.
Qed.

End WithHost.

(** The customer whose only order is that of 2024-01-05: counted as new,
    with that timestamp, and the fallback is flagged. *)
Lemma C4_fallback_counts_new_customer_witness :
  let upstream := Samples.ordersPage [Samples.order5] in
  exists summary,
    fetchOrdersInRange (fst Samples.january) (snd Samples.january) upstream
    = Returned summary
    /\ scannedOrders (fst Samples.january) (snd Samples.january) upstream
       = ([] ++ Samples.order5 :: [])%list
    /\ viaFallback Samples.order5 Samples.dee
    /\ usedFallback summary = true
    /\ (forall entry,
          In entry (newCustomers summary) -> New.id entry = id Samples.dee ->
          New.firstOrderDate entry = "2024-01-05T10:00:00Z").
Proof.
  cbv zeta. eexists. split; [reflexivity|]. split; [reflexivity|].
  assert (Hvia : viaFallback Samples.order5 Samples.dee).
  { repeat split. }
  split; [exact Hvia|].
  destruct (C4_fallback_counts_new_customer
              (fst Samples.january) (snd Samples.january)
              (Samples.ordersPage [Samples.order5]) _
              [] Samples.order5 [] Samples.dee eq_refl eq_refl Hvia)
    as (Hflag & _ & Hdate).
  split; [exact Hflag|].
  apply Hdate. constructor.
Defined.

(** C4 as stated fails for the second of two orders placed by one and the
    same such customer: the customer stays filed with the timestamp of the
    first. *)
Lemma C4_second_order_keeps_first_date :
  let upstream := Samples.ordersPage [Samples.order5; Samples.order6] in
  exists summary,
    fetchOrdersInRange (fst Samples.january) (snd Samples.january) upstream
    = Returned summary
    /\ scannedOrders (fst Samples.january) (snd Samples.january) upstream
       = ([Samples.order5] ++ Samples.order6 :: [])%list
    /\ viaFallback Samples.order6 Samples.dee
    /\ exists entry,
         In entry (newCustomers summary)
         /\ New.id entry = id Samples.dee
         /\ New.firstOrderDate entry = createdAt Samples.order5
         /\ New.firstOrderDate entry <> createdAt Samples.order6.
Proof.
  cbv zeta. eexists. split; [reflexivity|]. split; [reflexivity|].
  split; [repeat split|].
  eexists. split; [left; reflexivity|]. split; [reflexivity|].
  split; [reflexivity | discriminate].
Qed.

End ScanFacts.

(* ================================================================== *)
(** * More on the analytics walk *)

Module TopFacts.
Import Notions MoreNotions Analytics.

Lemma sorted_skipn_below {A : Type} (le : A -> A -> Prop) (l : list A) :
  StronglySorted le l ->
  forall n t d, In t (firstn n l) -> In d (skipn n l) -> le t d.
Proof.
  induction 1 as [|x l Hs IH Hall]; intros [|n] t d Ht Hd; simpl in *; try tauto.
  destruct Ht as [<-|Ht].
  - rewrite Forall_forall in Hall. apply Hall.
    rewrite <- (firstn_skipn n l). apply in_or_app. now right.
  - eapply IH; eassumption.
Qed.

(** One insertion, seen as a split of the old list plus the newcomer into
    the kept part and the part cut off. *)
Lemma insertTopCustomer_split lst customer :
  exists cut,
    Permutation (lst ++ [customer]) (insertTopCustomer lst customer ++ cut)
    /\ (forall t d, In t (insertTopCustomer lst customer) -> In d cut ->
                    (Top.totalSpent d <= Top.totalSpent t)%Q)
    /\ List.length (insertTopCustomer lst customer)
       = Nat.min 10 (S (List.length lst))
    /\ (cut <> [] -> List.length (insertTopCustomer lst customer) = 10%nat).
Proof.
  unfold insertTopCustomer, Array_slice0. cbv zeta.
  set (cmp := fun a b : Top.t => (Top.totalSpent b - Top.totalSpent a)%Q).
  set (s := Array_sort cmp (lst ++ [customer])).
  assert (Hperm : Permutation (lst ++ [customer]) s) by apply SortFacts.Array_sort_perm.
  assert (Hsorted : StronglySorted spendDesc s).
  { apply SortFacts.Array_sort_sorted; unfold spendDesc, cmp.
    - intros x y z ? ?. lra.
    - intros x y Hp. apply SortFacts.Number_positive_spec in Hp. lra.
    - intros x y Hn.
      destruct (Qlt_le_dec (Top.totalSpent x) (Top.totalSpent y)) as [Hlt|]; [|assumption].
      assert (Hp : Number_positive (Top.totalSpent y - Top.totalSpent x) = true)
        by (apply SortFacts.Number_positive_spec; lra).
      congruence. }
  assert (Hlen : List.length s = S (List.length lst)).
  { rewrite <- (Permutation_length Hperm), length_app. simpl. lia. }
  exists (skipn 10 s). split; [|split; [|split]].
  - now rewrite firstn_skipn.
  - intros t d Ht Hd. apply (sorted_skipn_below spendDesc s Hsorted 10 t d Ht Hd).
  - rewrite length_firstn, Hlen. reflexivity.
  - intros Hcut. rewrite length_firstn.
    assert (10 < List.length s)%nat.
    { destruct (Nat.lt_ge_cases 10 (List.length s)) as [|Hle]; [assumption|].
      exfalso. apply Hcut. now apply skipn_all2. }
    lia.
Qed.

(** The list built by successive insertions holds the highest spenders. *)
Lemma top_split (candidates : list Top.t) :
  let top := fold_left insertTopCustomer candidates [] in
  exists dropped,
    Permutation candidates (top ++ dropped)
    /\ (forall t d, In t top -> In d dropped ->
                    (Top.totalSpent d <= Top.totalSpent t)%Q)
    /\ List.length top = Nat.min 10 (List.length candidates)
    /\ (dropped <> [] -> List.length top = 10%nat).
Proof.
  cbv zeta. induction candidates as [|c cs IH] using rev_ind.
  - exists []. simpl. repeat split; auto; tauto.
  - destruct IH as (dropped & Hperm & Hle & Hlen & Hfull).
    rewrite fold_left_app. cbn [fold_left].
    set (top := fold_left insertTopCustomer cs []) in *.
    destruct (insertTopCustomer_split top c) as (cut & Hp & Hcutle & Hl & Hcutfull).
    set (top' := insertTopCustomer top c) in *.
    exists (cut ++ dropped)%list. split; [|split; [|split]].
    + apply Permutation_trans with ((top ++ [c]) ++ dropped)%list.
      * rewrite Hperm, <- !app_assoc. apply Permutation_app_head.
        apply Permutation_app_comm.
      * rewrite Hp. now rewrite app_assoc.
    + intros t d Ht Hd. apply in_app_or in Hd as [Hd|Hd]; [now apply Hcutle|].
      assert (Hne : dropped <> []) by (intros ->; destruct Hd).
      specialize (Hfull Hne).
      assert (Hin : In t (top ++ [c])).
      { apply (Permutation_in _ (Permutation_sym Hp)). apply in_or_app. now left. }
      apply in_app_or in Hin as [Hin|[<-|[]]]; [now apply Hle|].
      (* the newcomer is kept while the list was full: someone was cut *)
      assert (Hcut1 : exists x, In x cut).
      { assert (Hl2 : List.length (top ++ [c]) = List.length (top' ++ cut))
          by (apply Permutation_length; exact Hp).
        rewrite !length_app in Hl2. simpl in Hl2.
        destruct cut as [|x cut]; [|exists x; now left].
        exfalso. simpl in Hl2. rewrite Hl, Hfull in Hl2. simpl in Hl2. lia. }
      destruct Hcut1 as (x & Hx).
      assert (Hxin : In x (top ++ [c])).
      { apply (Permutation_in _ (Permutation_sym Hp)). apply in_or_app. now right. }
      apply in_app_or in Hxin as [Hxin|[<-|[]]].
      * specialize (Hle x d Hxin Hd). specialize (Hcutle c x Ht Hx). lra.
      * (* the newcomer is also the one cut: it equals an old entry *)
        assert (Hc : In c top).
        { destruct (in_split _ _ Hx) as (c1 & c2 & Ec).
          assert (Hperm2 : Permutation (c :: top) (c :: (top' ++ c1) ++ c2)).
          { transitivity (top ++ [c])%list; [apply Permutation_cons_append|].
            rewrite Hp, Ec, app_assoc. symmetry. apply Permutation_middle. }
          apply Permutation_cons_inv in Hperm2.
          apply (Permutation_in _ (Permutation_sym Hperm2)).
          apply in_or_app. left. apply in_or_app. now left. }
        now apply Hle.
    + rewrite Hl, Hlen, length_app. cbn [List.length]. lia.
    + intros Hne. destruct cut as [|x cut].
      * simpl in Hne. rewrite Hl, (Hfull Hne). reflexivity.
      * apply Hcutfull. discriminate.
Qed.

End TopFacts.

Module WalkMoreFacts.
Import PaginateFacts Notions MoreNotions Analytics.

(** What a run of customers does to the loop variables. *)
Lemma visits_fold nodes :
  forall st,
    let st' := fold_left visitCustomer nodes st in
    w_customersCount st' = w_customersCount st + Z.of_nat (List.length nodes)
    /\ w_totalClv st'
       = fold_left (fun acc c => (acc + amountOf c)%Q) nodes (w_totalClv st)
    /\ w_topCustomers st'
       = fold_left insertTopCustomer (map topEntryOf nodes) (w_topCustomers st)
    /\ w_hasNextPage st' = w_hasNextPage st
    /\ w_truncated st' = w_truncated st.
Proof.
  cbv zeta. induction nodes as [|c nodes IH]; intros st.
  - cbn. repeat split; lia.
  - cbn [fold_left map List.length].
    destruct (IH (visitCustomer st c)) as (Hc & Ht & Htop & Hn & Htr).
    rewrite Hc, Ht, Htop, Hn, Htr. cbn [visitCustomer w_customersCount w_totalClv
      w_topCustomers w_hasNextPage w_truncated].
    repeat split. lia.
Qed.

(** The loop variables of a returned walk, as folds over the customers it
    fetched. *)
Lemma walk_fold upstream :
  forall st st',
    walkCustomers upstream st = Returned st' ->
    let fetched :=
      flat_map (fun json => match data json with
                            | Some page => nodes page
                            | None => []
                            end)
               (awaited wantsMore pageBody upstream st) in
    w_customersCount st' = w_customersCount st + Z.of_nat (List.length fetched)
    /\ w_totalClv st'
       = fold_left (fun acc c => (acc + amountOf c)%Q) fetched (w_totalClv st)
    /\ w_topCustomers st'
       = fold_left insertTopCustomer (map topEntryOf fetched) (w_topCustomers st).
Proof.
  unfold walkCustomers. cbv zeta.
  induction upstream as [|json rest IH]; intros st st' Hrun; simpl in *.
  - destruct (wantsMore st); [discriminate|]. injection Hrun as <-.
    cbn. repeat split; lia.
  - destruct (wantsMore st); [|injection Hrun as <-; cbn; repeat split; lia].
    destruct (pageBody json st) as [st1|e] eqn:Hb; [|discriminate].
    destruct (WalkFacts.pageBody_normal _ _ _ Hb) as (page & Hd & ->).
    cbn [flat_map]. rewrite Hd.
    destruct (IH _ _ Hrun) as (Hc & Ht & Htop).
    destruct (visits_fold (nodes page) st) as (Vc & Vt & Vtop & _ & _).
    rewrite Hc, Ht, Htop. cbn [turnPage w_customersCount w_totalClv w_topCustomers].
    rewrite Vc, Vt, Vtop, length_app, map_app, !fold_left_app.
    repeat split. lia.
Qed.

(** X1: the customer count of the summary is the number of customers on
    the pages the walk fetched: every node of every page is counted once,
    whatever its fields hold. *)
Theorem X1_summary_counts_fetched upstream summary :
  fetchAllCustomers upstream = Returned summary ->
  customersCount summary = Z.of_nat (List.length (analyticsFetched upstream)).
Proof.
  unfold fetchAllCustomers.
  destruct (walkCustomers upstream walkStart) as [st| |] eqn:Hw; try discriminate.
  intros [= <-]. destruct (walk_fold _ _ _ Hw) as (Hc & _ & _).
  cbn [summarize customersCount]. unfold analyticsFetched.
  rewrite Hc. reflexivity.
Qed.

Lemma X1_summary_counts_fetched_witness :
  exists summary,
    fetchAllCustomers Samples.analyticsPages = Returned summary
    /\ customersCount summary = 3.
Proof.
  eexists. split; [reflexivity|].
  exact (X1_summary_counts_fetched Samples.analyticsPages _ eq_refl).
Defined.

(** X2: the top customers of the summary are the highest spenders among
    the fetched customers: the fetched customers split into the top list and
    the rest, nobody in the rest spent more than anybody in the list, and
    the list holds ten entries or, with fewer customers, all of them. *)
Theorem X2_summary_top_are_highest upstream summary :
  fetchAllCustomers upstream = Returned summary ->
  exists rest,
    Permutation (map topEntryOf (analyticsFetched upstream))
                (topCustomers summary ++ rest)
    /\ (forall t d, In t (topCustomers summary) -> In d rest ->
                    (Top.totalSpent d <= Top.totalSpent t)%Q)
    /\ List.length (topCustomers summary)
       = Nat.min 10 (List.length (analyticsFetched upstream)).
Proof.
  unfold fetchAllCustomers.
  destruct (walkCustomers upstream walkStart) as [st| |] eqn:Hw; try discriminate.
  intros [= <-]. destruct (walk_fold _ _ _ Hw) as (_ & _ & Htop).
  cbn [summarize topCustomers]. cbv zeta in Htop. cbn [walkStart w_topCustomers] in Htop.
  fold (analyticsFetched upstream) in Htop. rewrite Htop.
  destruct (TopFacts.top_split (map topEntryOf (analyticsFetched upstream)))
    as (rest & Hp & Hle & Hlen & _).
  exists rest. rewrite length_map in Hlen. auto.
Qed.

Lemma X2_summary_top_are_highest_witness :
  exists summary,
    fetchAllCustomers Samples.analyticsPages = Returned summary
    /\ List.length (topCustomers summary) = 3%nat.
Proof.
  eexists. split; [reflexivity|].
  destruct (X2_summary_top_are_highest Samples.analyticsPages _ eq_refl)
    as (rest & _ & _ & Hlen).
  exact Hlen.
Defined.

(** ** Where the walk stops *)

(** A returned walk that awaited something ended with a turn of the loop:
    from a state that wanted more, on the page awaited last. *)
Lemma walk_last_turn upstream :
  forall st st',
    walkCustomers upstream st = Returned st' ->
    match rev (awaited wantsMore pageBody upstream st) with
    | json :: _ =>
        exists page before,
          data json = Some page
          /\ wantsMore before = true
          /\ (w_truncated st = false -> w_truncated before = false)
          /\ st' = turnPage (fold_left visitCustomer (nodes page) before) page
    | [] => st' = st /\ wantsMore st = false
    end.
Proof.
  unfold walkCustomers.
  induction upstream as [|json rest IH]; intros st st' Hrun; simpl in *.
  - destruct (wantsMore st) eqn:Hm; [discriminate|]. injection Hrun as <-. now split.
  - destruct (wantsMore st) eqn:Hm; [|injection Hrun as <-; now split].
    destruct (pageBody json st) as [st1|e] eqn:Hb; [|discriminate].
    destruct (WalkFacts.pageBody_normal _ _ _ Hb) as (page & Hd & Est1).
    specialize (IH _ _ Hrun). simpl.
    destruct (rev (awaited wantsMore pageBody rest st1)) as [|j js] eqn:Hrev.
    + destruct IH as [-> _]. simpl. exists page, st. repeat split; auto.
    + simpl. destruct IH as (p & before & Hp & Hmore & Htr & Hst').
      exists p, before. repeat split; auto.
      intros Hst. apply Htr.
      assert (Hmore1 : wantsMore st1 = true).
      { destruct (wantsMore st1) eqn:E; [reflexivity|].
        destruct rest; simpl in Hrev; rewrite E in Hrev; discriminate Hrev. }
      subst st1. cbn [turnPage w_truncated].
      destruct (visits_fold (nodes page) st) as (Vc & _ & _ & _ & Vtr).
      rewrite Vtr, Hst. unfold wantsMore in Hmore1.
      cbn [turnPage w_hasNextPage w_customersCount] in Hmore1.
      apply andb_true_iff in Hmore1 as [Hn Hlt]. apply Z.ltb_lt in Hlt.
      destruct (Z.geb_spec (w_customersCount (fold_left visitCustomer (nodes page) st))
                           MAX_CUSTOMERS); [lia|reflexivity].
Qed.

(** X3: when the walk returns, [truncated] tells whether the page fetched
    last still announced a next page; a truncated walk has counted at least
    2000 customers, and a walk that is not truncated went to the end of the
    upstream list. *)
Theorem X3_truncated_iff_more_upstream upstream summary :
  fetchAllCustomers upstream = Returned summary ->
  exists page,
    lastCustomersPage upstream = Some page
    /\ truncated summary = hasNextPage page
    /\ (truncated summary = true -> MAX_CUSTOMERS <= customersCount summary).
Proof.
  unfold fetchAllCustomers, lastCustomersPage.
  destruct (walkCustomers upstream walkStart) as [st| |] eqn:Hw; try discriminate.
  intros [= <-]. pose proof (walk_last_turn _ _ _ Hw) as Hlast.
  (* the loop condition is off at the end *)
  assert (Hoff : wantsMore st = false).
  { clear Hlast. revert Hw. unfold walkCustomers. generalize walkStart.
    induction upstream as [|json rest IH]; intros s Hrun; simpl in Hrun.
    - destruct (wantsMore s) eqn:Hm; [discriminate|]. now injection Hrun as <-.
    - destruct (wantsMore s) eqn:Hm; [|now injection Hrun as <-].
      destruct (pageBody json s); [|discriminate]. now apply (IH _ Hrun). }
  destruct (rev (awaited wantsMore pageBody upstream walkStart)) as [|json js].
  - destruct Hlast as [_ Hfalse]. discriminate Hfalse.
  - destruct Hlast as (page & before & Hd & Hmore & Htr & ->).
    exists page. split; [exact Hd|].
    specialize (Htr eq_refl).
    destruct (visits_fold (nodes page) before) as (Vc & _ & _ & _ & Vtr).
    cbn [summarize truncated customersCount turnPage w_truncated w_customersCount].
    unfold wantsMore in Hoff. cbn [turnPage w_hasNextPage w_customersCount] in Hoff.
    rewrite Vtr, Htr.
    destruct (hasNextPage page); cbn [andb] in *.
    + apply Z.ltb_ge in Hoff.
      destruct (Z.geb_spec (w_customersCount (fold_left visitCustomer (nodes page) before))
                           MAX_CUSTOMERS); [|lia].
      split; [reflexivity|]. intros _. lia.
    + rewrite andb_false_r. split; [reflexivity | discriminate].
Qed.

Lemma X3_truncated_iff_more_upstream_witness :
  exists summary page,
    fetchAllCustomers Samples.analyticsPages = Returned summary
    /\ lastCustomersPage Samples.analyticsPages = Some page
    /\ truncated summary = hasNextPage page.
Proof.
  destruct (X3_truncated_iff_more_upstream Samples.analyticsPages _ eq_refl)
    as (page & Hlast & Htr & _).
  eexists _, page. split; [reflexivity|]. split; [exact Hlast | exact Htr].
Defined.

(** X4: the cap is tested between pages only: before the page fetched
    last fewer than 2000 customers were counted, so with pages of at most
    250 customers the count stays below 2250; and the count can exceed the
    cap: an upstream whose pages hold at most 250 customers each is counted
    to 2249. *)
Theorem X4_cap_overshoot_bounded :
  (forall upstream summary,
     fetchAllCustomers upstream = Returned summary ->
     exists page,
       lastCustomersPage upstream = Some page
       /\ customersCount summary - Z.of_nat (List.length (nodes page)) < MAX_CUSTOMERS
       /\ (Z.of_nat (List.length (nodes page)) <= PAGE_SIZE ->
           customersCount summary < MAX_CUSTOMERS + PAGE_SIZE))
  /\ (exists upstream summary,
        Forall (fun json => forall page, data json = Some page ->
                  Z.of_nat (List.length (nodes page)) <= PAGE_SIZE) upstream
        /\ fetchAllCustomers upstream = Returned summary
        /\ customersCount summary = MAX_CUSTOMERS + PAGE_SIZE - 1
        /\ MAX_CUSTOMERS < customersCount summary).
Proof.
  split.
  - intros upstream summary. unfold fetchAllCustomers, lastCustomersPage.
    destruct (walkCustomers upstream walkStart) as [st| |] eqn:Hw; try discriminate.
    intros [= <-]. pose proof (walk_last_turn _ _ _ Hw) as Hlast.
    destruct (rev (awaited wantsMore pageBody upstream walkStart)) as [|json js].
    + destruct Hlast as [-> Hfalse]. discriminate Hfalse.
    + destruct Hlast as (page & before & Hd & Hmore & _ & ->).
      exists page. split; [exact Hd|].
      destruct (visits_fold (nodes page) before) as (Vc & _).
      cbn [summarize customersCount turnPage w_customersCount]. rewrite Vc.
      unfold wantsMore in Hmore. apply andb_true_iff in Hmore as [_ Hlt].
      apply Z.ltb_lt in Hlt. split; lia.
  - assert (Hcount : match fetchAllCustomers crowdedPages with
                     | Returned summary => Some (customersCount summary)
                     | _ => None
                     end = Some (MAX_CUSTOMERS + PAGE_SIZE - 1))
      by (vm_compute; reflexivity).
    destruct (fetchAllCustomers crowdedPages) as [summary| |] eqn:Hrun;
      try discriminate.
    injection Hcount as Hcount.
    exists crowdedPages, summary. split; [|split; [exact Hrun|split; [exact Hcount|]]].
    + unfold crowdedPages. apply Forall_forall. intros json Hin page Hpage.
      apply in_map_iff in Hin as (n & <- & Hn).
      cbn [pageOf data] in Hpage. injection Hpage as <-.
      cbn [nodes]. rewrite repeat_length.
      assert (n <= 250)%nat.
      { apply in_app_or in Hn as [Hn|Hn].
        - apply repeat_spec in Hn. lia.
        - destruct Hn as [<-|[<-|[]]]; lia. }
      unfold PAGE_SIZE. lia.
    + rewrite Hcount. unfold MAX_CUSTOMERS, PAGE_SIZE. lia.
Qed.

Lemma X4_cap_overshoot_bounded_witness :
  exists summary page,
    fetchAllCustomers Samples.analyticsPages = Returned summary
    /\ lastCustomersPage Samples.analyticsPages = Some page
    /\ customersCount summary - Z.of_nat (List.length (nodes page)) < MAX_CUSTOMERS.
Proof.
  destruct (proj1 X4_cap_overshoot_bounded Samples.analyticsPages _ eq_refl)
    as (page & Hlast & Hlt & _).
  eexists _, page. split; [reflexivity|]. split; [exact Hlast | exact Hlt].
Defined.

End WalkMoreFacts.

(* ================================================================== *)
(** * More on the order-window scanner *)

Module ScanMoreFacts.
Import PaginateFacts Notions MoreNotions Analytics.

Section WithHost.
Context `{Host}.
Variables start end_ : JsDate.

(** One visit, in full: the map is left alone unless the order qualifies
    its customer and the customer is not filed yet; the flag is raised by the
    fallback only. *)
Lemma visitOrder_effect st order :
  (s_newCustomersMap (visitOrder start end_ st order) = s_newCustomersMap st
   /\ forall c, qualifies start end_ order c ->
                Map_has (s_newCustomersMap st) (id c) = true)
  \/ (exists c entry,
        filedFor start end_ order c entry
        /\ Map_has (s_newCustomersMap st) (id c) = false
        /\ s_newCustomersMap (visitOrder start end_ st order)
           = (s_newCustomersMap st ++ [(id c, entry)])%list).
Proof.
  unfold visitOrder, filedFor, qualifies, firstOrderInWindow, viaFallback.
  destruct (customer order) as [c|] eqn:Hc.
  2:{ left. split; [reflexivity|]. intros c (Hcust & _). discriminate. }
  destruct (string_truthy (id c)) eqn:Hid; cbn [negb].
  2:{ left. split; [reflexivity|]. intros c' ([= <-] & Hid' & _). congruence. }
  destruct (firstOrderDateRawOf c) as [raw|] eqn:Hraw.
  - destruct (Date_ge (Date_parse raw) start && Date_le (Date_parse raw) end_) eqn:Hin;
      cbn [negb].
    + destruct (Map_has (s_newCustomersMap st) (id c)) eqn:Hhas.
      * left. split; [reflexivity|]. now intros c' ([= <-] & _).
      * right. exists c. eexists. cbn [s_newCustomersMap].
        rewrite (ScanFacts.Map_set_fresh _ _ _ Hhas).
        split; [|split; [exact Hhas|reflexivity]].
        cbn [New.id New.name New.email New.totalSpent New.ordersCount New.firstOrderDate].
        assert (Hraw_truthy : string_truthy raw = true).
        { unfold firstOrderDateRawOf in Hraw.
          destruct (orders c) as [conn|]; [|discriminate].
          destruct (first_nodes conn) as [[|node ?]|]; try discriminate.
          unfold str_or_null in Hraw. destruct (first_createdAt node) as [v|]; [|discriminate].
          destruct (string_truthy v) eqn:E; [|discriminate]. now injection Hraw as <-. }
        rewrite Hraw_truthy.
        assert (Hwin : exists r, firstOrderDateRawOf c = Some r
                       /\ Date_ge (Date_parse r) start && Date_le (Date_parse r) end_ = true)
          by (exists raw; now split).
        split; [split; [first [reflexivity|assumption]|split; [first [reflexivity|assumption]|now left]]|].
        do 5 (split; [reflexivity|]).
        left. exists raw. now split.
    + left. split; [reflexivity|]. intros c' ([= <-] & _ & [(raw' & Hr & Hw)|(_ & _ & Hr & _)]).
      * rewrite Hraw in Hr. injection Hr as <-. congruence.
      * congruence.
  - destruct (Qeq_bool (num_or_zero (numberOfOrders c)) 1) eqn:Hone; cbn [negb].
    + destruct (Map_has (s_newCustomersMap st) (id c)) eqn:Hhas.
      * left. split; [reflexivity|]. now intros c' ([= <-] & _).
      * right. exists c. eexists. cbn [s_newCustomersMap].
        rewrite (ScanFacts.Map_set_fresh _ _ _ Hhas).
        split; [|split; [exact Hhas|reflexivity]].
        cbn [New.id New.name New.email New.totalSpent New.ordersCount New.firstOrderDate].
        apply Qeq_bool_iff in Hone.
        assert (Hdate : (if string_truthy (createdAt order) then createdAt order
                         else createdAt order) = createdAt order)
          by now destruct (string_truthy (createdAt order)).
        rewrite Hdate.
        assert (Hvia : customer order = Some c /\ string_truthy (id c) = true
                       /\ firstOrderDateRawOf c = None
                       /\ (num_or_zero (numberOfOrders c) == 1)%Q)
          by (repeat split; assumption).
        split; [split; [first [reflexivity|assumption]|split; [first [reflexivity|assumption]|now right]]|].
        do 5 (split; [reflexivity|]).
        right. now split.
    + left. split; [reflexivity|]. intros c' ([= <-] & _ & [(raw' & Hr & _)|(_ & _ & _ & Hq)]).
      * congruence.
      * apply Qeq_bool_iff in Hq. congruence.
Qed.

Lemma visitOrder_flag_origin st order :
  s_usedFallback (visitOrder start end_ st order) = true ->
  s_usedFallback st = true \/ exists c, viaFallback order c.
Proof.
  unfold visitOrder, viaFallback.
  destruct (customer order) as [c|] eqn:Hc; [|now left].
  destruct (string_truthy (id c)) eqn:Hid; cbn [negb]; [|now left].
  destruct (firstOrderDateRawOf c) as [raw|] eqn:Hraw.
  - destruct (Date_ge (Date_parse raw) start && Date_le (Date_parse raw) end_);
      cbn [negb]; [|now left].
    destruct (Map_has (s_newCustomersMap st) (id c)); now left.
  - destruct (Qeq_bool (num_or_zero (numberOfOrders c)) 1) eqn:Hone; cbn [negb];
      [|now left].
    intros _. right. exists c. apply Qeq_bool_iff in Hone. repeat split; assumption.
Qed.

Lemma visits_has_mono orders key :
  forall st,
    Map_has (s_newCustomersMap st) key = true ->
    Map_has (s_newCustomersMap (fold_left (visitOrder start end_) orders st)) key
    = true.
Proof.
  induction orders as [|order orders IH]; intros st Hhas; [exact Hhas|].
  cbn [fold_left]. apply IH.
  destruct (ScanFacts.visitOrder_map start end_ st order) as [->|(c & e & _ & _ & _ & ->)];
    [assumption|].
  apply ScanFacts.Map_has_spec. rewrite map_app. apply in_or_app. left.
  now apply ScanFacts.Map_has_spec.
Qed.

(** A run of visits: where the entries and the flag come from, and who is
    filed at the end. *)
Lemma visits_origin orders :
  forall st,
    let st' := fold_left (visitOrder start end_) orders st in
    (forall k v, In (k, v) (s_newCustomersMap st') ->
       In (k, v) (s_newCustomersMap st)
       \/ (Map_has (s_newCustomersMap st) k = false
           /\ exists earlier order later c,
                orders = (earlier ++ order :: later)%list
                /\ k = id c
                /\ filedFor start end_ order c v
                /\ forall o' c', In o' earlier -> qualifies start end_ o' c' ->
                                 id c' <> id c))
    /\ (s_usedFallback st' = true ->
        s_usedFallback st = true
        \/ exists order c, In order orders /\ viaFallback order c)
    /\ (forall order c, In order orders -> qualifies start end_ order c ->
                        Map_has (s_newCustomersMap st') (id c) = true).
Proof.
  cbv zeta. induction orders as [|order orders IH]; intros st.
  - simpl. split; [auto|]. split; [auto|]. intros ? ? [].
  - cbn [fold_left]. destruct (IH (visitOrder start end_ st order)) as (Hmap & Hflag & Hq).
    split; [|split].
    + intros k v Hin.
      destruct (Hmap k v Hin) as [Hold|(Hfresh & earlier & o & later & c & Ho & Hk & Hf & Hno)].
      * destruct (visitOrder_effect st order) as [[E _]|(c & entry & Hf & Hfresh & E)].
        -- left. now rewrite <- E.
        -- rewrite E in Hold. apply in_app_or in Hold as [Hold|[[= <- <-]|[]]].
           ++ now left.
           ++ right. split; [exact Hfresh|].
              exists [], order, orders, c.
              split; [reflexivity|]. split; [reflexivity|]. split; [exact Hf|].
              intros ? ? [].
      * right. split.
        -- destruct (Map_has (s_newCustomersMap st) k) eqn:E; [|reflexivity].
           pose proof (visits_has_mono [order] k st E) as Hm. cbn [fold_left] in Hm.
           congruence.
        -- exists (order :: earlier), o, later, c. rewrite Ho.
           split; [reflexivity|]. split; [exact Hk|]. split; [exact Hf|].
           intros o' c' [<-|Hin'] Hqual; [|now apply (Hno o' c')].
           intros Heq. subst k.
           destruct (visitOrder_effect st order) as [[E Hall]|(c2 & entry & Hf2 & _ & E)].
           ++ rewrite E, <- Heq, (Hall c' Hqual) in Hfresh. discriminate.
           ++ rewrite E in Hfresh.
              assert (Hhas : Map_has (s_newCustomersMap st ++ [(id c2, entry)])%list (id c)
                             = true).
              { apply ScanFacts.Map_has_spec. rewrite map_app. apply in_or_app. right.
                destruct Hqual as (Hc & _). destruct Hf2 as ((Hc2 & _) & _).
                rewrite Hc in Hc2. injection Hc2 as <-. left. exact Heq. }
              congruence.
    + intros Hf. destruct (Hflag Hf) as [Hold|(o & c & Ho & Hv)].
      * destruct (visitOrder_flag_origin st order Hold) as [?|(c & Hv)]; [now left|].
        right. exists order, c. split; [now left | assumption].
      * right. exists o, c. split; [now right | assumption].
    + intros o c [<-|Ho] Hqual; [|now apply (Hq o c)].
      assert (Hnow : Map_has (s_newCustomersMap (visitOrder start end_ st order)) (id c) = true).
      { destruct (visitOrder_effect st order) as [[E Hall]|(c' & entry & Hf & _ & E)].
        - rewrite E. now apply Hall.
        - rewrite E. apply ScanFacts.Map_has_spec. rewrite map_app. apply in_or_app.
          destruct Hqual as (Hc & _). destruct Hf as ((Hc' & _) & _).
          rewrite Hc in Hc'. injection Hc' as <-. right. now left. }
      now apply visits_has_mono.
Qed.

(** The summary of a returned scan, read off the fold over the visited
    orders. *)
Lemma summary_view upstream summary :
  fetchOrdersInRange start end_ upstream = Returned summary ->
  let final :=
    fold_left (visitOrder start end_) (scannedOrders start end_ upstream)
              scanStart in
  usedFallback summary = s_usedFallback final
  /\ Permutation (Map_values (s_newCustomersMap final)) (newCustomers summary)
  /\ wellKeyed (s_newCustomersMap final).
Proof.
  unfold fetchOrdersInRange, scannedOrders.
  destruct (searchQuery start end_) as [query|e]; [|discriminate].
  destruct (scanOrders start end_ upstream scanStart) as [st'| |] eqn:Hscan;
    try discriminate.
  intros [= <-]. cbv zeta. cbn [usedFallback newCustomers].
  destruct (ScanFacts.scan_is_fold start end_ upstream _ _ Hscan) as [Hflag Hmap].
  cbv zeta in Hflag, Hmap. rewrite <- Hflag, <- Hmap. split; [reflexivity|]. split.
  - apply SortFacts.Array_sort_perm.
  - rewrite Hmap. apply (ScanFacts.visits_keep start end_ scanStart).
    split; [constructor | intros ? ? []].
Qed.

Lemma values_of_map (m : NewCustomersMap) entry :
  In entry (Map_values m) <-> exists k, In (k, entry) m.
Proof.
  unfold Map_values. rewrite in_map_iff. split.
  - intros ((k, v) & <- & Hin). now exists k.
  - intros (k & Hin). now exists (k, entry).
Qed.

(** X5: no two of the new customers returned carry the same id. *)
Theorem X5_new_customers_distinct upstream summary :
  fetchOrdersInRange start end_ upstream = Returned summary ->
  NoDup (map New.id (newCustomers summary)).
Proof.
  intros Hret. destruct (summary_view _ _ Hret) as (_ & Hperm & [Hnd Hid]).
  apply (Permutation_NoDup (Permutation_map New.id Hperm)).
  unfold Map_values. rewrite map_map.
  erewrite map_ext_in; [exact Hnd|].
  intros (k, v) Hin. simpl. now apply Hid.
Qed.

(** X6: a customer id is among the new customers exactly when some
    visited order qualifies a customer with that id: the order has a
    customer with an id, and either the customer's own first order lies in
    the window or the customer has no resolvable first order and a lifetime
    count of exactly 1. *)
Theorem X6_listed_iff_some_order_qualifies upstream summary key :
  fetchOrdersInRange start end_ upstream = Returned summary ->
  ((exists entry, In entry (newCustomers summary) /\ New.id entry = key)
   <-> exists order c,
         In order (scannedOrders start end_ upstream)
         /\ id c = key /\ qualifies start end_ order c).
Proof.
  intros Hret. destruct (summary_view _ _ Hret) as (_ & Hperm & [Hnd Hid]).
  destruct (visits_origin (scannedOrders start end_ upstream) scanStart)
    as (Horigin & _ & Hlisted).
  cbv zeta in *. split.
  - intros (entry & Hin & Hkey).
    apply (Permutation_in _ (Permutation_sym Hperm)) in Hin.
    apply values_of_map in Hin as (k & Hin).
    destruct (Horigin k entry Hin) as [[]|(_ & earlier & order & later & c & Ho & Hk & Hf & _)].
    exists order, c. split; [rewrite Ho; apply in_or_app; right; now left|].
    split; [|apply Hf]. rewrite <- Hkey, <- Hk. symmetry. now apply Hid.
  - intros (order & c & Hin & Hkey & Hqual).
    specialize (Hlisted order c Hin Hqual).
    apply ScanFacts.Map_has_spec in Hlisted.
    apply in_map_iff in Hlisted as ((k, v) & Hk & Hinm). simpl in Hk. subst k.
    exists v. split.
    + apply (Permutation_in _ Hperm). apply values_of_map. now exists (id c).
    + rewrite <- Hkey. now apply Hid.
Qed.

(** X7: every new customer returned was filed on the first visited order
    that qualifies a customer with that id, with that customer's name, email,
    spend and order count, and with the customer's own first-order timestamp
    or, by the fallback, the creation timestamp of that order. *)
Theorem X7_entry_filed_on_first_qualifying_order upstream summary entry :
  fetchOrdersInRange start end_ upstream = Returned summary ->
  In entry (newCustomers summary) ->
  exists earlier order later c,
    scannedOrders start end_ upstream = (earlier ++ order :: later)%list
    /\ filedFor start end_ order c entry
    /\ forall o' c', In o' earlier -> qualifies start end_ o' c' -> id c' <> id c.
Proof.
  intros Hret Hin. destruct (summary_view _ _ Hret) as (_ & Hperm & _).
  destruct (visits_origin (scannedOrders start end_ upstream) scanStart)
    as (Horigin & _ & _).
  cbv zeta in *.
  apply (Permutation_in _ (Permutation_sym Hperm)) in Hin.
  apply values_of_map in Hin as (k & Hin).
  destruct (Horigin k entry Hin) as [[]|(_ & earlier & order & later & c & Ho & Hk & Hf & Hno)].
  exists earlier, order, later, c. auto.
Qed.

(** X8: [usedFallback] is raised exactly when some visited order falls
    under the fallback rule. *)
Theorem X8_flag_iff_fallback_used upstream summary :
  fetchOrdersInRange start end_ upstream = Returned summary ->
  (usedFallback summary = true
   <-> exists order c,
         In order (scannedOrders start end_ upstream) /\ viaFallback order c).
Proof.
  intros Hret. destruct (summary_view _ _ Hret) as (Hflag & _ & _).
  destruct (visits_origin (scannedOrders start end_ upstream) scanStart)
    as (_ & Horigin & _).
  cbv zeta in *. rewrite Hflag. split.
  - intros Hf. destruct (Horigin Hf) as [Hstart|Hex]; [discriminate Hstart | exact Hex].
  - intros (order & c & Hin & Hvia).
    destruct (in_split _ _ Hin) as (earlier & later & ->).
    rewrite fold_left_app. cbn [fold_left].
    set (s0 := fold_left (visitOrder start end_) earlier scanStart).
    destruct (ScanFacts.visitOrder_fallback start end_ s0 order c Hvia) as (Hf1 & _).
    clear Horigin Hflag Hret Hin.
    revert Hf1. generalize (visitOrder start end_ s0 order).
    induction later as [|o later IH]; intros s Hs; [exact Hs|].
    cbn [fold_left]. apply IH. now apply ScanFacts.visitOrder_flag.
Qed.

End WithHost.

Lemma X5_new_customers_distinct_witness :
  exists summary,
    fetchOrdersInRange (fst Samples.january) (snd Samples.january)
      (Samples.ordersPage [Samples.order5; Samples.order6]) = Returned summary
    /\ NoDup (map New.id (newCustomers summary)).
Proof.
  eexists. split; [reflexivity|].
  apply (X5_new_customers_distinct (fst Samples.january) (snd Samples.january)
           (Samples.ordersPage [Samples.order5; Samples.order6]) _ eq_refl).
Defined.

Lemma X6_listed_iff_some_order_qualifies_witness :
  exists summary,
    fetchOrdersInRange (fst Samples.january) (snd Samples.january)
      (Samples.ordersPage [Samples.order5]) = Returned summary
    /\ exists order c,
         In order (scannedOrders (fst Samples.january) (snd Samples.january)
                     (Samples.ordersPage [Samples.order5]))
         /\ id c = id Samples.dee
         /\ qualifies (fst Samples.january) (snd Samples.january) order c.
Proof.
  eexists. split; [reflexivity|].
  apply (X6_listed_iff_some_order_qualifies
           (fst Samples.january) (snd Samples.january)
           (Samples.ordersPage [Samples.order5]) _ (id Samples.dee) eq_refl).
  eexists. split; [left; reflexivity | reflexivity].
Defined.

Lemma X7_entry_filed_on_first_qualifying_order_witness :
  exists summary entry,
    fetchOrdersInRange (fst Samples.january) (snd Samples.january)
      (Samples.ordersPage [Samples.order5; Samples.order6]) = Returned summary
    /\ In entry (newCustomers summary)
    /\ exists earlier order later c,
         scannedOrders (fst Samples.january) (snd Samples.january)
           (Samples.ordersPage [Samples.order5; Samples.order6])
         = (earlier ++ order :: later)%list
         /\ filedFor (fst Samples.january) (snd Samples.january) order c entry.
Proof.
  eexists. eexists. split; [reflexivity|]. split; [left; reflexivity|].
  destruct (X7_entry_filed_on_first_qualifying_order
              (fst Samples.january) (snd Samples.january)
              (Samples.ordersPage [Samples.order5; Samples.order6]) _ _ eq_refl
              (or_introl eq_refl))
    as (earlier & order & later & c & Hsplit & Hfiled & _).
  exists earlier, order, later, c. split; assumption.
Defined.

Lemma X8_flag_iff_fallback_used_witness :
  exists summary,
    fetchOrdersInRange (fst Samples.january) (snd Samples.january)
      (Samples.ordersPage [Samples.order5]) = Returned summary
    /\ exists order c,
         In order (scannedOrders (fst Samples.january) (snd Samples.january)
                     (Samples.ordersPage [Samples.order5]))
         /\ viaFallback order c.
Proof.
  eexists. split; [reflexivity|].
  apply (X8_flag_iff_fallback_used (fst Samples.january) (snd Samples.january)
           (Samples.ordersPage [Samples.order5]) _ eq_refl).
  reflexivity.
Defined.

Section Truncation.
Context `{Host}.
Variables start end_ : JsDate.

(** A visit counts its order and leaves the paging fields alone. *)
Lemma visitOrder_counts st order :
  s_ordersCount (visitOrder start end_ st order) = s_ordersCount st + 1
  /\ s_truncated (visitOrder start end_ st order) = s_truncated st
  /\ s_hasNextPage (visitOrder start end_ st order) = s_hasNextPage st.
Proof.
  unfold visitOrder.
  destruct (customer order) as [c|]; [|now repeat split].
  destruct (string_truthy (id c)); cbn [negb]; [|now repeat split].
  destruct (firstOrderDateRawOf c) as [raw|].
  - destruct (Date_ge (Date_parse raw) start && Date_le (Date_parse raw) end_);
      cbn [negb]; [|now repeat split].
    destruct (Map_has (s_newCustomersMap st) (id c)); now repeat split.
  - destruct (Qeq_bool (num_or_zero (numberOfOrders c)) 1); cbn [negb];
      [|now repeat split].
    destruct (Map_has (s_newCustomersMap st) (id c)); now repeat split.
Qed.

Lemma visits_count orders :
  forall st,
    s_ordersCount (fold_left (visitOrder start end_) orders st)
    = s_ordersCount st + Z.of_nat (List.length orders)
    /\ s_truncated (fold_left (visitOrder start end_) orders st) = s_truncated st.
Proof.
  induction orders as [|order orders IH]; intros st; cbn [fold_left List.length].
  - split; [lia | reflexivity].
  - destruct (IH (visitOrder start end_ st order)) as [Hc Ht].
    destruct (visitOrder_counts st order) as (Hc1 & Ht1 & _).
    rewrite Hc, Ht, Hc1, Ht1. split; [lia | reflexivity].
Qed.

(** The scan counts the orders it visits. *)
Lemma scan_count upstream :
  forall st st',
    scanOrders start end_ upstream st = Returned st' ->
    s_ordersCount st'
    = s_ordersCount st
      + Z.of_nat (List.length
                    (flat_map (fun json => match o_data json with
                                           | Some page => o_nodes page
                                           | None => []
                                           end)
                       (awaited wantsMoreOrders (ordersPageBody start end_)
                                upstream st)))
    /\ wantsMoreOrders st' = false.
Proof.
  unfold scanOrders.
  induction upstream as [|json rest IH]; intros st st' Hrun; simpl in *.
  - destruct (wantsMoreOrders st) eqn:Hm; [discriminate|]. injection Hrun as <-.
    split; [cbn; lia | exact Hm].
  - destruct (wantsMoreOrders st) eqn:Hm; [|injection Hrun as <-; split; [cbn; lia | exact Hm]].
    destruct (ordersPageBody start end_ json st) as [st1|e] eqn:Hb; [|discriminate].
    destruct (ScanFacts.ordersPageBody_normal _ _ _ _ _ Hb) as (page & Hd & Est1).
    destruct (IH _ _ Hrun) as [Hc Hoff]. split; [|exact Hoff].
    rewrite Hc. cbn [flat_map]. rewrite Hd, length_app. subst st1.
    cbn [turnOrdersPage s_ordersCount].
    destruct (visits_count (o_nodes page) st) as [Hv _]. rewrite Hv. lia.
Qed.

(** The page turned last: the scan still wanted a page before it, and no
    earlier page can have raised [truncated]. *)
Lemma scan_last_turn upstream :
  forall st st',
    scanOrders start end_ upstream st = Returned st' ->
    match rev (awaited wantsMoreOrders (ordersPageBody start end_) upstream st) with
    | json :: _ =>
        exists page before,
          o_data json = Some page
          /\ wantsMoreOrders before = true
          /\ (s_truncated st = false -> s_truncated before = false)
          /\ st' = turnOrdersPage
                     (fold_left (visitOrder start end_) (o_nodes page) before) page
    | [] => st' = st /\ wantsMoreOrders st = false
    end.
Proof.
  unfold scanOrders.
  induction upstream as [|json rest IH]; intros st st' Hrun; simpl in *.
  - destruct (wantsMoreOrders st) eqn:Hm; [discriminate|]. injection Hrun as <-. now split.
  - destruct (wantsMoreOrders st) eqn:Hm; [|injection Hrun as <-; now split].
    destruct (ordersPageBody start end_ json st) as [st1|e] eqn:Hb; [|discriminate].
    destruct (ScanFacts.ordersPageBody_normal _ _ _ _ _ Hb) as (page & Hd & Est1).
    specialize (IH _ _ Hrun). simpl.
    destruct (rev (awaited wantsMoreOrders (ordersPageBody start end_) rest st1))
      as [|j js] eqn:Hrev.
    + destruct IH as [-> _]. simpl. exists page, st. repeat split; auto.
    + simpl. destruct IH as (p & before & Hp & Hmore & Htr & Hst').
      exists p, before. repeat split; auto.
      intros Hst. apply Htr.
      assert (Hmore1 : wantsMoreOrders st1 = true).
      { destruct (wantsMoreOrders st1) eqn:E; [reflexivity|].
        destruct rest; simpl in Hrev; rewrite E in Hrev; discriminate Hrev. }
      subst st1. cbn [turnOrdersPage s_truncated].
      destruct (visits_count (o_nodes page) st) as [_ Vtr].
      rewrite Vtr, Hst. unfold wantsMoreOrders in Hmore1.
      cbn [turnOrdersPage s_hasNextPage s_ordersCount] in Hmore1.
      apply andb_true_iff in Hmore1 as [Hn Hlt]. apply Z.ltb_lt in Hlt.
      destruct (Z.geb_spec (s_ordersCount (fold_left (visitOrder start end_) (o_nodes page) st))
                           MAX_ORDERS); [lia|reflexivity].
Qed.

(** X25: when the order scan returns, [truncated] tells whether the page
    fetched last still announced a next page; a truncated scan has visited
    at least 2000 orders, and before its last page it had visited fewer. *)
Theorem X25_orders_truncated_iff_more_upstream upstream summary :
  fetchOrdersInRange start end_ upstream = Returned summary ->
  exists page,
    lastOrdersPage start end_ upstream = Some page
    /\ ordersTruncated summary = o_hasNextPage page
    /\ (ordersTruncated summary = true ->
        MAX_ORDERS <= Z.of_nat (List.length (scannedOrders start end_ upstream)))
    /\ Z.of_nat (List.length (scannedOrders start end_ upstream))
       - Z.of_nat (List.length (o_nodes page)) < MAX_ORDERS.
Proof.
  unfold fetchOrdersInRange, lastOrdersPage, scannedOrders.
  destruct (searchQuery start end_) as [query|e]; [|discriminate].
  destruct (scanOrders start end_ upstream scanStart) as [st| |] eqn:Hw;
    cbn [bind]; try discriminate.
  intros [= <-]. pose proof (scan_last_turn _ _ _ Hw) as Hlast.
  destruct (scan_count _ _ _ Hw) as [Hcount Hoff].
  cbn [scanStart s_ordersCount] in Hcount. rewrite Z.add_0_l in Hcount.
  destruct (rev (awaited wantsMoreOrders (ordersPageBody start end_) upstream scanStart))
    as [|json js].
  - destruct Hlast as [_ Hfalse]. discriminate Hfalse.
  - destruct Hlast as (page & before & Hd & Hmore & Htr & Hst).
    exists page. split; [exact Hd|].
    specialize (Htr eq_refl).
    destruct (visits_count (o_nodes page) before) as [Vc Vtr].
    rewrite <- Hcount. subst st.
    cbn [ordersTruncated turnOrdersPage s_truncated s_ordersCount].
    unfold wantsMoreOrders in Hoff, Hmore.
    cbn [turnOrdersPage s_hasNextPage s_ordersCount] in Hoff.
    apply andb_true_iff in Hmore as [_ Hbefore]. apply Z.ltb_lt in Hbefore.
    rewrite Vtr, Htr, Vc.
    rewrite Vc in Hoff.
    destruct (o_hasNextPage page); cbn [andb] in *.
    + apply Z.ltb_ge in Hoff.
      destruct (Z.geb_spec (s_ordersCount before + Z.of_nat (List.length (o_nodes page)))
                           MAX_ORDERS); [|lia].
      split; [reflexivity|]. split; [intros _; lia | lia].
    + rewrite andb_false_r. split; [reflexivity|]. split; [discriminate | lia].
Qed.

End Truncation.

Lemma X25_orders_truncated_iff_more_upstream_witness :
  exists summary page,
    fetchOrdersInRange (H := SampleHost.host) (fst Samples.january) (snd Samples.january)
      (Samples.ordersPage [Samples.order5; Samples.order6]) = Returned summary
    /\ lastOrdersPage (H := SampleHost.host) (fst Samples.january) (snd Samples.january)
         (Samples.ordersPage [Samples.order5; Samples.order6]) = Some page
    /\ ordersTruncated summary = o_hasNextPage page.
Proof.
  destruct (X25_orders_truncated_iff_more_upstream (H := SampleHost.host)
              (fst Samples.january) (snd Samples.january)
              (Samples.ordersPage [Samples.order5; Samples.order6]) _ eq_refl)
    as (page & Hlast & Htr & _).
  eexists _, page. split; [reflexivity|]. split; [exact Hlast | exact Htr].
Defined.

End ScanMoreFacts.

(* ================================================================== *)
(** * Paging of the report *)

Module PagingFacts.
Import Report ReportLoader ReportNotions.

Lemma Math_max_cases a b :
  (Math_max a b = a /\ b <= a)%Q \/ (Math_max a b = b /\ a <= b)%Q.
Proof.
  unfold Math_max. destruct (Qle_bool a b) eqn:E.
  - right. split; [reflexivity|]. now apply Qle_bool_iff.
  - left. split; [reflexivity|].
    destruct (Qlt_le_dec a b) as [Hlt|]; [|assumption].
    apply Qlt_le_weak, Qle_bool_iff in Hlt. congruence.
Qed.

Lemma Math_min_cases a b :
  (Math_min a b = a /\ a <= b)%Q \/ (Math_min a b = b /\ b <= a)%Q.
Proof.
  unfold Math_min. destruct (Qle_bool a b) eqn:E.
  - left. split; [reflexivity|]. now apply Qle_bool_iff.
  - right. split; [reflexivity|].
    destruct (Qlt_le_dec a b) as [Hlt|]; [|assumption].
    apply Qlt_le_weak, Qle_bool_iff in Hlt. congruence.
Qed.

Lemma Qfloor_unique (x : Q) (z : Z) :
  (inject_Z z <= x < inject_Z (z + 1))%Q -> Qfloor x = z.
Proof.
  intros [Hlo Hhi].
  pose proof (Qfloor_le x) as Hf. pose proof (Qlt_floor x) as Hc.
  assert (inject_Z z < inject_Z (Qfloor x + 1))%Q by lra.
  assert (inject_Z (Qfloor x) < inject_Z (z + 1))%Q by lra.
  rewrite <- Zlt_Qlt in *. lia.
Qed.

(** Rounding towards zero leaves an integer alone, whatever fraction
    writes it. *)
Lemma Number_trunc_integer (q : Q) (z : Z) :
  (q == inject_Z z)%Q -> Number_trunc q = z.
Proof.
  unfold Qeq, Number_trunc. simpl. intros E. rewrite Z.mul_1_r in E.
  rewrite E. apply Z.quot_mul. discriminate.
Qed.

Lemma slice_integers {A : Type} (l : list A) (lo hi : Q) (a b : Z) :
  (lo == inject_Z a)%Q -> (hi == inject_Z b)%Q -> 0 <= a <= b ->
  Array_slice l lo hi = firstn (Z.to_nat (b - a)) (skipn (Z.to_nat a) l).
Proof.
  intros Ha Hb Hab. unfold Array_slice. cbv zeta.
  rewrite (Number_trunc_integer _ _ Ha), (Number_trunc_integer _ _ Hb).
  destruct (Z.ltb_spec a 0); [lia|]. destruct (Z.ltb_spec b 0); [lia|].
  set (len := Z.of_nat (List.length l)).
  destruct (Z.le_gt_cases a len) as [Hal|Hal].
  - rewrite (Z.min_l a len) by lia.
    destruct (Z.le_gt_cases b len) as [Hbl|Hbl].
    + rewrite (Z.min_l b len), Z.max_l by lia. reflexivity.
    + rewrite (Z.min_r b len), Z.max_l by lia.
      rewrite !firstn_all2; try reflexivity; rewrite length_skipn; subst len; lia.
  - rewrite (Z.min_r a len), (Z.min_r b len), Z.max_r by lia.
    rewrite (skipn_all2 (n := Z.to_nat a)) by (subst len; lia).
    rewrite (skipn_all2 (n := Z.to_nat len)) by (subst len; lia).
    now rewrite !firstn_nil.
Qed.

Lemma Qceiling_unique (x : Q) (z : Z) :
  (inject_Z (z - 1) < x <= inject_Z z)%Q -> Qceiling x = z.
Proof.
  intros [Hlo Hhi].
  pose proof (Qle_ceiling x) as Hc. pose proof (Qceiling_lt x) as Hl.
  assert (inject_Z (z - 1) < inject_Z (Qceiling x))%Q by lra.
  assert (inject_Z (Qceiling x - 1) < inject_Z z)%Q by lra.
  rewrite <- Zlt_Qlt in *. lia.
Qed.

(** The number of pages needed for [n] rows, [p] to a page. *)
Lemma ceil_ratio (n p : Z) (P : Q) :
  0 <= n -> 0 < p -> (P == inject_Z p)%Q ->
  Qceiling (inject_Z n / P) = (n + p - 1) / p.
Proof.
  intros Hn Hp HP. apply Qceiling_unique. rewrite HP.
  set (z := (n + p - 1) / p).
  assert (Hz : z * p <= n + p - 1 < z * p + p).
  { subst z. pose proof (Z.div_mod (n + p - 1) p ltac:(lia)).
    pose proof (Z.mod_pos_bound (n + p - 1) p Hp). lia. }
  assert (Hpq : (0 < inject_Z p)%Q) by (rewrite (Zlt_Qlt 0 p) in Hp; exact Hp).
  assert (H1 : (inject_Z (z - 1) * inject_Z p < inject_Z n)%Q).
  { rewrite <- inject_Z_mult, <- Zlt_Qlt. lia. }
  assert (H2 : (inject_Z n <= inject_Z z * inject_Z p)%Q).
  { rewrite <- inject_Z_mult, <- Zle_Qle. lia. }
  split.
  - apply Qlt_shift_div_l; assumption.
  - apply Qle_shift_div_r; assumption.
Qed.

Lemma Qfloor_add_integer (x : Q) (P : Q) (p : Z) :
  (P == inject_Z p)%Q -> Qfloor (x + P) = Qfloor x + p.
Proof.
  intros HP. apply Qfloor_unique. rewrite HP.
  pose proof (Qfloor_le x). pose proof (Qlt_floor x).
  rewrite !inject_Z_plus in *. simpl in *. split; lra.
Qed.

Lemma Number_trunc_nonneg (q : Q) : (0 <= q)%Q -> Number_trunc q = Qfloor q.
Proof.
  unfold Number_trunc, Qfloor, Qle. destruct q as [n d]. simpl. intros Hn.
  apply Z.quot_div_nonneg; lia.
Qed.

Section WithHost.
Context `{Host} `{HostMore}.

Lemma parseNumber_positive value fallback :
  (0 < fallback)%Q -> (0 < parseNumber value fallback)%Q.
Proof.
  intros Hf. unfold parseNumber. destruct value as [v|]; [|assumption].
  destruct (string_truthy v); [|assumption].
  destruct (Number_parse v) as [parsed|]; [|assumption].
  destruct (Number_positive parsed) eqn:E; [|assumption].
  now apply SortFacts.Number_positive_spec.
Qed.

(** The page size is a whole number: the row count (at least 1) for
    ["all"], one of the four options otherwise. *)
Lemma perPage_integer params sorted :
  let n := Z.of_nat (List.length sorted) in
  exists p : Z,
    0 < p
    /\ (perPage (paging params sorted) == inject_Z p)%Q
    /\ ((entries_get params "per_page" = Some "all" /\ p = Z.max n 1)
        \/ (entries_get params "per_page" <> Some "all"
            /\ In p [50; 100; 250; 500])).
Proof.
  cbv zeta. unfold paging. cbv zeta. cbn [perPage].
  destruct (entries_get params "per_page") as [v|] eqn:Eget.
  - destruct (String.eqb_spec v "all") as [->|Hne].
    + exists (Z.max (Z.of_nat (List.length sorted)) 1). split; [lia|]. split; [|now left].
      destruct (Math_max_cases (inject_Z (Z.of_nat (List.length sorted))) 1)
        as [[-> Hle]|[-> Hle]].
      * change 1%Q with (inject_Z 1) in Hle. rewrite <- Zle_Qle in Hle.
        now rewrite Z.max_l.
      * change 1%Q with (inject_Z 1) in Hle. rewrite <- Zle_Qle in Hle.
        now rewrite Z.max_r.
    + set (chosen := if string_truthy v && negb false then _ else _).
      destruct (existsb (Qeq_bool chosen) PAGE_SIZE_OPTIONS) eqn:Ein.
      * unfold PAGE_SIZE_OPTIONS in Ein. cbn [existsb] in Ein.
        assert (Hnot : Some v <> Some "all") by congruence.
        repeat (apply orb_true_iff in Ein as [Ein|Ein]);
          try discriminate Ein; apply Qeq_bool_iff in Ein.
        -- exists 50. split; [lia|]. split; [exact Ein|]. right. split; [exact Hnot|]. simpl; tauto.
        -- exists 100. split; [lia|]. split; [exact Ein|]. right. split; [exact Hnot|]. simpl; tauto.
        -- exists 250. split; [lia|]. split; [exact Ein|]. right. split; [exact Hnot|]. simpl; tauto.
        -- exists 500. split; [lia|]. split; [exact Ein|]. right. split; [exact Hnot|]. simpl; tauto.
      * exists 250. split; [lia|]. split; [reflexivity|]. right.
        split; [congruence | simpl; tauto].
  - exists 250. split; [lia|]. split; [reflexivity|]. right.
    split; [discriminate | simpl; tauto].
Qed.

Lemma totalPages_integer params sorted (p : Z) :
  0 < p ->
  (perPage (paging params sorted) == inject_Z p)%Q ->
  let n := Z.of_nat (List.length sorted) in
  totalPagesOf (paging params sorted) = inject_Z (Z.max 1 ((n + p - 1) / p)).
Proof.
  intros Hp HP n. unfold totalPagesOf.
  assert (Hc : Qceiling (totalCustomers (paging params sorted)
                         / perPage (paging params sorted)) = (n + p - 1) / p).
  { apply ceil_ratio; [subst n; lia | assumption | assumption]. }
  unfold Math_ceil. rewrite Hc.
  destruct (Math_max_cases 1 (inject_Z ((n + p - 1) / p))) as [[-> Hle]|[-> Hle]];
    change 1%Q with (inject_Z 1) in *; rewrite <- Zle_Qle in Hle.
  - now rewrite Z.max_l.
  - now rewrite Z.max_r.
Qed.

Lemma slice_length_bound {A : Type} (l : list A) (lo hi : Q) (a b : Z) :
  Number_trunc lo = a -> Number_trunc hi = b -> 0 <= a <= b ->
  Z.of_nat (List.length (Array_slice l lo hi)) <= b - a.
Proof.
  intros <- <- Hab. unfold Array_slice. cbv zeta.
  destruct (Z.ltb_spec (Number_trunc lo) 0); [lia|].
  destruct (Z.ltb_spec (Number_trunc hi) 0); [lia|].
  rewrite length_firstn. lia.
Qed.

(** X9: the page shown is a page of the report: its number lies between 1
    and the number of pages; when that number is whole, the page holds at
    most a page size of rows; and the page size is one of 50, 100, 250 and
    500 unless all rows are asked for, in which case it is the number of
    rows, or 1 when there is none.  (For a page number that is not whole,
    such as 1.22, the indices are products and sums of fractions, which the
    engine rounds; nothing is stated about the rows shown then.) *)
Theorem X9_page_within_bounds params sorted :
  let pg := paging params sorted in
  (1 <= page pg <= totalPagesOf pg)%Q
  /\ ((exists n : Z, (page pg == inject_Z n)%Q) ->
      (inject_Z (Z.of_nat (List.length (shown pg))) <= perPage pg)%Q)
  /\ ((entries_get params "per_page" = Some "all"
       /\ (perPage pg
           == inject_Z (Z.max (Z.of_nat (List.length sorted)) 1))%Q)
      \/ (entries_get params "per_page" <> Some "all"
          /\ exists size, In size [50; 100; 250; 500]
                          /\ (perPage pg == inject_Z size)%Q)).
Proof.
  cbv zeta.
  destruct (perPage_integer params sorted) as (p & Hp & HP & Hsel). cbv zeta in Hsel.
  pose proof (totalPages_integer params sorted p Hp HP) as HT. cbv zeta in HT.
  set (pg := paging params sorted) in *.
  set (asked := parseNumber (entries_get params "page") 1).
  assert (Hpage : page pg = Math_min (Math_max 1 asked) (totalPagesOf pg)) by reflexivity.
  assert (Hshown : shown pg
                   = Array_slice sorted ((page pg - 1) * perPage pg)
                                 ((page pg - 1) * perPage pg + perPage pg))
    by reflexivity.
  assert (HT1 : (1 <= totalPagesOf pg)%Q).
  { rewrite HT. change 1%Q with (inject_Z 1). rewrite <- Zle_Qle. lia. }
  assert (Hbounds : (1 <= page pg <= totalPagesOf pg)%Q).
  { rewrite Hpage.
    destruct (Math_max_cases 1 asked) as [[-> ?]|[-> ?]];
      destruct (Math_min_cases 1 (totalPagesOf pg)) as [[E1 ?]|[E1 ?]];
      destruct (Math_min_cases asked (totalPagesOf pg)) as [[E2 ?]|[E2 ?]];
      try rewrite E1; try rewrite E2; split; lra. }
  split; [exact Hbounds|]. split.
  - intros _.
    apply Qle_trans with (inject_Z p); [|rewrite HP; apply Qle_refl].
    rewrite Hshown.
    set (lo := ((page pg - 1) * perPage pg)%Q).
    assert (Hlo : (0 <= lo)%Q).
    { subst lo. apply Qmult_le_0_compat; [lra|]. rewrite HP.
      change 0%Q with (inject_Z 0). rewrite <- Zle_Qle. lia. }
    assert (Hhi : (0 <= lo + perPage pg)%Q).
    { rewrite HP. assert (0 < inject_Z p)%Q
        by (change 0%Q with (inject_Z 0); rewrite <- Zlt_Qlt; lia). lra. }
    pose proof (slice_length_bound sorted lo (lo + perPage pg)
                  (Qfloor lo) (Qfloor lo + p)
                  (Number_trunc_nonneg lo Hlo)) as Hlen.
    rewrite <- Zle_Qle. 
    assert (0 <= Qfloor lo).
    { pose proof (Qfloor_resp_le 0 lo Hlo) as Hfl. exact Hfl. }
    specialize (Hlen ltac:(rewrite Number_trunc_nonneg by exact Hhi;
                           apply Qfloor_add_integer; exact HP) ltac:(lia)).
    lia.
  - destruct Hsel as [[Hall ->]|[Hnot Hin]].
    + left. now split.
    + right. split; [exact Hnot|]. now exists p.
Qed.

(** Asking for page [k] of a report that has it shows the [k]-th run of
    rows. *)
Lemma page_integer_shown params sorted text (k p : Z) :
  string_truthy text = true ->
  Number_parse text = Some (inject_Z k) ->
  0 < p -> (perPage (paging params sorted) == inject_Z p)%Q ->
  1 <= k <= Z.max 1 ((Z.of_nat (List.length sorted) + p - 1) / p) ->
  shown (paging (withPage text params) sorted)
  = firstn (Z.to_nat p) (skipn (Z.to_nat ((k - 1) * p)) sorted).
Proof.
  intros Htext Hparse Hp HP Hk.
  pose proof (totalPages_integer params sorted p Hp HP) as HT. cbv zeta in HT.
  set (pg := paging (withPage text params) sorted).
  assert (HP' : perPage pg = perPage (paging params sorted)) by reflexivity.
  assert (HT' : totalPagesOf pg = totalPagesOf (paging params sorted)) by reflexivity.
  assert (Hpage : page pg
                  = Math_min (Math_max 1 (parseNumber (Some text) 1)) (totalPagesOf pg))
    by reflexivity.
  assert (Hshown : shown pg
                   = Array_slice sorted ((page pg - 1) * perPage pg)
                                 ((page pg - 1) * perPage pg + perPage pg))
    by reflexivity.
  assert (Hasked : parseNumber (Some text) 1 = inject_Z k).
  { unfold parseNumber. rewrite Htext, Hparse.
    assert (Hpos : Number_positive (inject_Z k) = true).
    { apply SortFacts.Number_positive_spec. change 0%Q with (inject_Z 0).
      rewrite <- Zlt_Qlt. lia. }
    now rewrite Hpos. }
  assert (Hpk : (page pg == inject_Z k)%Q).
  { rewrite Hpage, Hasked, HT', HT.
    assert (Hk1 : (1 <= inject_Z k)%Q)
      by (change 1%Q with (inject_Z 1); rewrite <- Zle_Qle; lia).
    assert (Hk2 : (inject_Z k
                   <= inject_Z (Z.max 1 ((Z.of_nat (List.length sorted) + p - 1) / p)))%Q)
      by (rewrite <- Zle_Qle; lia).
    destruct (Math_max_cases 1 (inject_Z k)) as [[-> ?]|[-> ?]];
      match goal with |- (Math_min ?a ?b == _)%Q =>
        destruct (Math_min_cases a b) as [[-> ?]|[-> ?]] end; lra. }
  rewrite Hshown.
  rewrite (slice_integers sorted _ _ ((k - 1) * p) (k * p)).
  - f_equal. f_equal. lia.
  - rewrite Hpk, HP', HP. rewrite inject_Z_mult.
    replace (k - 1) with (k + -1) by lia. rewrite inject_Z_plus. simpl. ring.
  - rewrite Hpk, HP', HP. rewrite !inject_Z_mult. ring.
  - nia.
Qed.

Lemma chunks_cover {A : Type} (p : nat) :
  (0 < p)%nat ->
  forall (pages : nat) (l : list A),
    (List.length l <= pages * p)%nat ->
    flat_map (fun k => firstn p (skipn ((k - 1) * p) l)) (seq 1 pages) = l.
Proof.
  intros Hp. induction pages as [|pages IH]; intros l Hlen.
  - destruct l; [reflexivity | simpl in Hlen; lia].
  - cbn [seq flat_map]. cbn [Nat.sub Nat.mul skipn].
    rewrite <- seq_shift, flat_map_concat_map, map_map, <- flat_map_concat_map.
    transitivity (firstn p l ++ skipn p l)%list; [|apply firstn_skipn].
    f_equal.
    transitivity (flat_map (fun k => firstn p (skipn ((k - 1) * p) (skipn p l)))
                           (seq 1 pages)).
    + rewrite !flat_map_concat_map. f_equal. apply map_ext_in.
      intros k Hk. apply in_seq in Hk. f_equal. rewrite skipn_skipn. f_equal.
      replace (S k - 1)%nat with (S (k - 1)) by lia. cbn [Nat.mul]. lia.
    + apply IH. rewrite length_skipn. lia.
Qed.

(** X10: put one after the other, the pages 1 to the last of a report are
    the report: no row is lost and none is shown twice. *)
Theorem X10_pages_cover_report params sorted (pageText : nat -> string) :
  (forall k, (1 <= k <= pageCount params sorted)%nat ->
             string_truthy (pageText k) = true
             /\ Number_parse (pageText k) = Some (inject_Z (Z.of_nat k))) ->
  flat_map (fun k => shown (paging (withPage (pageText k) params) sorted))
           (seq 1 (pageCount params sorted))
  = sorted.
Proof.
  intros Htexts.
  destruct (perPage_integer params sorted) as (p & Hp & HP & _).
  pose proof (totalPages_integer params sorted p Hp HP) as HT. cbv zeta in HT.
  set (n := Z.of_nat (List.length sorted)) in *.
  assert (Hcount : pageCount params sorted = Z.to_nat (Z.max 1 ((n + p - 1) / p))).
  { unfold pageCount. now rewrite HT, Qfloor_Z. }
  rewrite Hcount in *.
  set (pages := Z.to_nat (Z.max 1 ((n + p - 1) / p))) in *.
  transitivity (flat_map (fun k => firstn (Z.to_nat p)
                                        (skipn ((k - 1) * Z.to_nat p) sorted))
                         (seq 1 pages));
    [|apply chunks_cover; [lia|]].
  - rewrite !flat_map_concat_map. f_equal. apply map_ext_in.
    intros k Hk. apply in_seq in Hk.
    destruct (Htexts k ltac:(lia)) as [Htruthy Hparse].
    rewrite (page_integer_shown params sorted (pageText k) (Z.of_nat k) p
               Htruthy Hparse Hp HP ltac:(fold n; lia)).
    f_equal. f_equal. rewrite Z2Nat.inj_mul by lia. f_equal. lia.
  - subst pages n.
    pose proof (Z.div_mod (Z.of_nat (List.length sorted) + p - 1) p ltac:(lia)).
    pose proof (Z.mod_pos_bound (Z.of_nat (List.length sorted) + p - 1) p Hp).
    nia.
Qed.

(** X11: with [per_page=all] the report is one page that shows every row,
    whatever page is asked for. *)
Theorem X11_all_shows_everything params sorted :
  entries_get params "per_page" = Some "all" ->
  let pg := paging params sorted in
  shown pg = sorted /\ (page pg == 1)%Q /\ (totalPagesOf pg == 1)%Q.
Proof.
  intros Hall. cbv zeta.
  destruct (perPage_integer params sorted) as (p & Hp & HP & Hsel). cbv zeta in Hsel.
  destruct Hsel as [[_ Hpn]|[Hnot _]]; [|contradiction].
  pose proof (totalPages_integer params sorted p Hp HP) as HT. cbv zeta in HT.
  set (n := Z.of_nat (List.length sorted)) in *.
  assert (Hone : Z.max 1 ((n + p - 1) / p) = 1).
  { assert ((n + p - 1) / p <= 1); [|lia].
    apply Z.lt_succ_r. apply Z.div_lt_upper_bound; lia. }
  rewrite Hone in HT.
  set (pg := paging params sorted) in *.
  set (asked := parseNumber (entries_get params "page") 1).
  assert (Hpage : page pg = Math_min (Math_max 1 asked) (totalPagesOf pg)) by reflexivity.
  assert (Hshown : shown pg
                   = Array_slice sorted ((page pg - 1) * perPage pg)
                                 ((page pg - 1) * perPage pg + perPage pg))
    by reflexivity.
  assert (Hp1 : (page pg == 1)%Q).
  { rewrite Hpage, HT. change (inject_Z 1) with 1%Q.
    destruct (Math_max_cases 1 asked) as [[-> ?]|[-> ?]];
      match goal with |- (Math_min ?a ?b == _)%Q =>
        destruct (Math_min_cases a b) as [[-> ?]|[-> ?]] end; lra. }
  split; [|split; [exact Hp1 | now rewrite HT]].
  rewrite Hshown. rewrite (slice_integers sorted _ _ 0 p).
  - cbn [Z.to_nat skipn]. apply firstn_all2. subst n. lia.
  - rewrite Hp1. ring.
  - rewrite Hp1, HP. ring.
  - lia.
Qed.

End WithHost.

Lemma X9_page_within_bounds_witness :
  let pg := paging [("per_page", "50"); ("page", "2")] sixtyRows in
  (page pg == inject_Z 2)%Q
  /\ (inject_Z (Z.of_nat (List.length (shown pg))) <= perPage pg)%Q.
Proof.
  cbv zeta.
  assert (Hwhole : (page (paging [("per_page", "50"); ("page", "2")] sixtyRows)
                    == inject_Z 2)%Q) by (vm_compute; reflexivity).
  split; [exact Hwhole|].
  exact (proj1 (proj2 (X9_page_within_bounds
                         [("per_page", "50"); ("page", "2")] sixtyRows))
               (ex_intro _ 2 Hwhole)).
Defined.

Lemma X10_pages_cover_report_witness :
  let params := [("per_page", "50")] in
  pageCount params sixtyRows = 2%nat
  /\ (forall k, (1 <= k <= pageCount params sixtyRows)%nat ->
                string_truthy (pageText12 k) = true
                /\ Number_parse (pageText12 k) = Some (inject_Z (Z.of_nat k)))
  /\ flat_map (fun k => shown (paging (withPage (pageText12 k) params) sixtyRows))
              (seq 1 (pageCount params sixtyRows))
     = sixtyRows.
Proof.
  cbv zeta.
  assert (Hcount : pageCount [("per_page", "50")] sixtyRows = 2%nat)
    by (vm_compute; reflexivity).
  assert (Htexts : forall k,
            (1 <= k <= pageCount [("per_page", "50")] sixtyRows)%nat ->
            string_truthy (pageText12 k) = true
            /\ Number_parse (pageText12 k) = Some (inject_Z (Z.of_nat k))).
  { rewrite Hcount. intros k Hk.
    assert (Hcases : k = 1%nat \/ k = 2%nat) by lia.
    destruct Hcases as [-> | ->]; split; reflexivity. }
  split; [exact Hcount|]. split; [exact Htexts|].
  exact (X10_pages_cover_report [("per_page", "50")] sixtyRows pageText12 Htexts).
Defined.

Lemma X11_all_shows_everything_witness :
  let params := [("per_page", "all"); ("page", "7")] in
  entries_get params "per_page" = Some "all"
  /\ shown (paging params sixtyRows) = sixtyRows.
Proof.
  cbv zeta. split; [reflexivity|].
  exact (proj1 (X11_all_shows_everything
                  [("per_page", "all"); ("page", "7")] sixtyRows eq_refl)).
Defined.

End PagingFacts.

(* ================================================================== *)
(** * The CSV export *)

Module ExportFacts.
Import Report ReportLoader ReportNotions.

Lemma readCsvRows_quoted text :
  forall field rest row,
    fieldEnds rest ->
    readCsvRows (doubleQuotes text ++ String quote rest) true field row
    = readCsvRows rest false (field ++ text) row.
Proof.
  induction text as [|c text IH]; intros field rest row Hends.
  - cbn [doubleQuotes append readCsvRows]. rewrite Ascii.eqb_refl.
    rewrite CsvFacts.append_empty_r.
    destruct rest as [|c' rest']; [reflexivity|].
    destruct Hends as [-> | ->]; reflexivity.
  - cbn [doubleQuotes]. destruct (Ascii.eqb c quote) eqn:E.
    + apply Ascii.eqb_eq in E. subst c.
      cbn [append readCsvRows]. rewrite Ascii.eqb_refl.
      rewrite (IH _ _ _ Hends). now rewrite CsvFacts.append_char.
    + cbn [append readCsvRows]. rewrite E.
      rewrite (IH _ _ _ Hends). now rewrite CsvFacts.append_char.
Qed.

Lemma readCsvRows_plain text :
  needsQuoting text = false -> hasReturn text = false ->
  forall field rest row,
    readCsvRows (text ++ rest) false field row
    = readCsvRows rest false (field ++ text) row.
Proof.
  induction text as [|c text IH]; intros Hplain Hreturn field rest row.
  - cbn [append]. now rewrite CsvFacts.append_empty_r.
  - cbn [needsQuoting] in Hplain. apply orb_false_iff in Hplain as [Hc Hrest].
    apply orb_false_iff in Hc as [Hc Hnl]. apply orb_false_iff in Hc as [Hq Hcomma].
    cbn [hasReturn] in Hreturn. apply orb_false_iff in Hreturn as [Hcr Hreturn].
    cbn [append readCsvRows]. rewrite Hcomma, Hnl, Hcr, Hq. cbn [andb].
    rewrite (IH Hrest Hreturn). now rewrite CsvFacts.append_char.
Qed.

Section WithHost.
Context `{Host}.

(** One escaped cell is read back as the text of the cell. *)
Lemma read_cell value rest row :
  bareReturn (cellText value) = false ->
  fieldEnds rest ->
  readCsvRows (escapeCsv value ++ rest) false "" row
  = readCsvRows rest false (cellText value) row.
Proof.
  intros Hbare Hends.
  assert (Htext : forall text,
            bareReturn text = false ->
            readCsvRows ((if needsQuoting text
                          then String quote (doubleQuotes text ++ String quote "")
                          else text) ++ rest) false "" row
            = readCsvRows rest false text row).
  { intros text Hb. unfold bareReturn in Hb. destruct (needsQuoting text) eqn:E.
    - cbn [append readCsvRows]. cbn.
      rewrite CsvFacts.append_assoc. cbn [append].
      now rewrite readCsvRows_quoted.
    - cbn [negb andb] in Hb. now rewrite (readCsvRows_plain text E Hb). }
  destruct value as [|s|n]; cbn [escapeCsv cellText] in *.
  - reflexivity.
  - now apply Htext.
  - now apply Htext.
Qed.

(** One line of the export is read back as one record. *)
Lemma read_line cells :
  cells <> [] ->
  Forall (fun cell => bareReturn (cellText cell) = false) cells ->
  forall rest row more,
    afterRecord rest (row ++ map cellText cells)%list more ->
    readCsvRows (Array_join "," (map escapeCsv cells) ++ rest) false "" row
    = more.
Proof.
  induction cells as [|cell cells IH]; [contradiction|].
  intros _ Hbare rest row more Hafter.
  inversion Hbare as [|? ? Hcell Hcells]; subst.
  destruct cells as [|cell2 cells].
  - cbn [map Array_join]. cbn [map] in Hafter.
    destruct rest as [|c tail]; cbn [afterRecord] in Hafter.
    + rewrite (read_cell _ _ _ Hcell) by exact I. now subst more.
    + destruct Hafter as [-> ->].
      rewrite (read_cell _ _ _ Hcell) by (right; reflexivity). reflexivity.
  - change (Array_join "," (map escapeCsv (cell :: cell2 :: cells)))
      with (escapeCsv cell ++ "," ++ Array_join "," (map escapeCsv (cell2 :: cells)))%string.
    rewrite !CsvFacts.append_assoc.
    rewrite (read_cell _ _ _ Hcell) by (left; reflexivity).
    cbn [append readCsvRows]. cbn.
    apply IH; [discriminate | exact Hcells |].
    rewrite <- app_assoc. exact Hafter.
Qed.

(** A table of non-empty rows, written line by line, is read back as it
    was. *)
Lemma read_table (rows : list (list CsvValue)) :
  rows <> [] ->
  Forall (fun cells =>
            cells <> []
            /\ Forall (fun cell => bareReturn (cellText cell) = false) cells)
         rows ->
  readCsvRows
    (Array_join (String newline "")
       (map (fun row => Array_join "," (map escapeCsv row)) rows))
    false "" []
  = map (map cellText) rows.
Proof.
  induction rows as [|cells rows IH]; [contradiction|]. intros _ Hall.
  inversion Hall as [|? ? [Hcells Hbare] Hrows]; subst.
  destruct rows as [|cells2 rows].
  - cbn [map Array_join].
    rewrite <- (CsvFacts.append_empty_r (Array_join "," (map escapeCsv cells))).
    apply read_line; [assumption | assumption |]. reflexivity.
  - change (Array_join (String newline "")
              (map (fun row => Array_join "," (map escapeCsv row))
                   (cells :: cells2 :: rows)))
      with (Array_join "," (map escapeCsv cells) ++ String newline "" ++
            Array_join (String newline "")
              (map (fun row => Array_join "," (map escapeCsv row))
                   (cells2 :: rows)))%string.
    apply read_line; [assumption | assumption |].
    cbn [append afterRecord]. split; [reflexivity|].
    change (map (map cellText) (cells :: cells2 :: rows))
      with (map cellText cells :: map (map cellText) (cells2 :: rows)).
    cbn [app]. f_equal. symmetry. apply IH; [discriminate | assumption].
Qed.

(** The header holds no carriage return. *)
Lemma header_plain :
  Forall (fun cell => bareReturn (cellText cell) = false) csvHeader.
Proof. repeat constructor. Qed.

(** X12: when no cell holds a bare carriage return (one that comes with no
    comma, double quote or line feed in the same cell, so that the cell is
    written without double quotes), a CSV reader gets back from the export
    exactly the table that was written: the header, then one record of seven
    fields per customer, each field the text of its cell, whatever commas,
    double quotes or line feeds the names, emails and tags hold. *)
Theorem X12_export_reads_back (sorted : list Row.t) :
  returnsQuoted sorted = true ->
  readCsvRows (exportCsv sorted) false "" []
  = map cellText csvHeader :: map (fun customer => map cellText (csvCells customer)) sorted.
Proof.
  intros Hquoted. unfold exportCsv. cbv zeta. rewrite read_table.
  - cbn [map]. f_equal. now rewrite map_map.
  - discriminate.
  - constructor; [split; [discriminate | exact header_plain]|].
    apply Forall_forall. intros cells Hin. apply in_map_iff in Hin as (c & <- & Hc).
    split; [discriminate|].
    unfold returnsQuoted in Hquoted. rewrite forallb_forall in Hquoted.
    specialize (Hquoted c Hc). rewrite forallb_forall in Hquoted.
    apply Forall_forall. intros cell Hcell.
    apply Hquoted in Hcell. now apply negb_true_iff in Hcell.
Qed.

(** X26: a carriage return alone does not make [escapeCsv] quote a cell:
    a text that holds one, and no comma, double quote or line feed, is
    written as it is, and the reader ends a record at the carriage return,
    so that the one cell comes back as the end of one record and the start
    of the next. *)
Theorem X26_bare_return_splits_record (before after : string) :
  needsQuoting before = false -> hasReturn before = false ->
  needsQuoting after = false ->
  let text := (before ++ String carriageReturn after)%string in
  escapeCsv (CsvText text) = text
  /\ readCsvRows (escapeCsv (CsvText text)) false "" []
     = [before] :: readCsvRows after false "" [].
Proof.
  intros Hbefore Hreturn Hafter. cbv zeta.
  assert (Hplain : needsQuoting (before ++ String carriageReturn after) = false).
  { clear Hreturn. induction before as [|c before IH].
    - cbn [append needsQuoting]. rewrite Hafter. reflexivity.
    - cbn [append needsQuoting] in *.
      apply orb_false_iff in Hbefore as [Hc Hrest].
      rewrite Hc, (IH Hrest). reflexivity. }
  assert (Hwritten : escapeCsv (CsvText (before ++ String carriageReturn after))
                     = (before ++ String carriageReturn after)%string).
  { cbn [escapeCsv]. now rewrite Hplain. }
  split; [exact Hwritten|]. rewrite Hwritten.
  rewrite (readCsvRows_plain before Hbefore Hreturn).
  cbn [append readCsvRows]. cbn [Ascii.eqb carriageReturn comma newline].
  cbn. destruct after as [|c after]; [reflexivity|].
  cbn [needsQuoting] in Hafter. apply orb_false_iff in Hafter as [Hc _].
  apply orb_false_iff in Hc as [_ Hnl]. now rewrite Hnl.
Qed.

End WithHost.

Lemma X12_export_reads_back_witness :
  returnsQuoted (H := SampleHost.host) [vipRow; returnRow] = true
  /\ readCsvRows (exportCsv (H := SampleHost.host) [vipRow; returnRow]) false "" []
     = map (cellText (H := SampleHost.host)) csvHeader
       :: map (fun customer => map (cellText (H := SampleHost.host))
                                   (csvCells customer))
              [vipRow; returnRow].
Proof.
  split; [reflexivity|].
  exact (X12_export_reads_back (H := SampleHost.host) [vipRow; returnRow] eq_refl).
Defined.

Lemma X26_bare_return_splits_record_witness :
  escapeCsv (H := SampleHost.host) (CsvText ("Ann" ++ String carriageReturn "Lee"))
  = ("Ann" ++ String carriageReturn "Lee")%string
  /\ readCsvRows (escapeCsv (H := SampleHost.host)
                            (CsvText ("Ann" ++ String carriageReturn "Lee")))
                 false "" []
     = [["Ann"]; ["Lee"]].
Proof.
  exact (X26_bare_return_splits_record (H := SampleHost.host) "Ann" "Lee"
           eq_refl eq_refl eq_refl).
Defined.

End ExportFacts.

(* ================================================================== *)
(** * More on the histogram *)

Module BucketMoreFacts.
Import Report ReportNotions Notions.

Lemma findIndex_from_spec {A : Type} (p : A -> Z -> bool) (l : list A) :
  forall i,
    let r := findIndex_from p i l in
    (r = -1 /\ forall j x, nth_error l j = Some x -> p x (i + Z.of_nat j) = false)
    \/ (exists j x, r = i + Z.of_nat j /\ nth_error l j = Some x
                    /\ p x r = true
                    /\ forall j' y, (j' < j)%nat -> nth_error l j' = Some y ->
                                    p y (i + Z.of_nat j') = false).
Proof.
  cbv zeta. induction l as [|a l IH]; intros i; cbn [findIndex_from].
  - left. split; [reflexivity|]. intros [|j] x; discriminate.
  - destruct (p a i) eqn:E.
    + right. exists 0%nat, a. rewrite Z.add_0_r. repeat split; auto.
      intros j' y Hlt. lia.
    + destruct (IH (i + 1)) as [[Hr Hall]|(j & x & Hr & Hx & Hp & Hbefore)].
      * left. split; [exact Hr|]. intros [|j] x Hx.
        -- injection Hx as <-. now rewrite Z.add_0_r.
        -- replace (i + Z.of_nat (S j)) with (i + 1 + Z.of_nat j) by lia.
           now apply Hall.
      * right. exists (S j), x. repeat split; auto.
        -- lia.
        -- intros [|j'] y Hlt Hy.
           ++ injection Hy as <-. now rewrite Z.add_0_r.
           ++ replace (i + Z.of_nat (S j')) with (i + 1 + Z.of_nat j') by lia.
              apply Hbefore; [lia | exact Hy].
Qed.

Lemma Array_get_nat {A : Type} (l : list A) (j : nat) :
  Array_get l (Z.of_nat j) = nth_error l j.
Proof.
  unfold Array_get. destruct (Z.ltb_spec (Z.of_nat j) 0); [lia|].
  now rewrite Nat2Z.id.
Qed.

Lemma Array_get_succ {A : Type} (l : list A) (j : nat) :
  Array_get l (0 + Z.of_nat j + 1) = nth_error l (S j).
Proof.
  replace (0 + Z.of_nat j + 1) with (Z.of_nat (S j)) by lia. apply Array_get_nat.
Qed.

Section WithHost.
Context `{Host}.

(** A value that no bucket takes lies below every edge. *)
Lemma missed_below_all edges value :
  (forall j e, nth_error edges j = Some e ->
     match Array_get edges (0 + Z.of_nat j + 1) with
     | None => Qle_bool e value
     | Some next => Qle_bool e value && negb (Qle_bool next value)
     end = false) ->
  forall e, In e edges -> (value < e)%Q.
Proof.
  intros Hmiss.
  assert (Hall : forall n j e, (j + n = List.length edges)%nat ->
                   nth_error edges j = Some e -> Qle_bool e value = false).
  { induction n as [|n IH]; intros j e Hj He.
    - assert (j < List.length edges)%nat by (apply nth_error_Some; congruence). lia.
    - specialize (Hmiss j e He). rewrite Array_get_succ in Hmiss.
      destruct (nth_error edges (S j)) as [next|] eqn:Hnext; [|exact Hmiss].
      assert (Hn : Qle_bool next value = false).
      { destruct n as [|n'].
        - assert (S j < List.length edges)%nat by (apply nth_error_Some; congruence).
          lia.
        - apply (IH (S j) next); [lia | exact Hnext]. }
      rewrite Hn in Hmiss. cbn [negb] in Hmiss. now rewrite andb_true_r in Hmiss. }
  intros e Hin. apply In_nth_error in Hin as (j & Hj).
  assert (Hlt : (j < List.length edges)%nat) by (apply nth_error_Some; congruence).
  specialize (Hall (List.length edges - j)%nat j e ltac:(lia) Hj).
  destruct (Qlt_le_dec value e) as [|Hle]; [assumption|].
  apply Qle_bool_iff in Hle. congruence.
Qed.

(** X13: with at least one edge, a value is counted in the first bucket
    whose lower edge it reaches and whose upper edge, when there is one, it
    stays below; a value taken by no bucket lies below every edge and is
    counted in the last bucket. *)
Theorem X13_bucket_of_value edges value :
  edges <> [] ->
  let k := bucketIndexOf edges value in
  0 <= k < Z.of_nat (List.length edges)
  /\ ((exists e, nth_error edges (Z.to_nat k) = Some e
                 /\ (e <= value)%Q
                 /\ (forall next, nth_error edges (S (Z.to_nat k)) = Some next ->
                                  (value < next)%Q))
      \/ (k = Z.of_nat (List.length edges) - 1
          /\ forall e, In e edges -> (value < e)%Q)).
Proof.
  intros Hne. cbv zeta. unfold bucketIndexOf, bucketOf, Array_findIndex. cbv zeta.
  assert (Hlen : (0 < List.length edges)%nat)
    by (destruct edges; [contradiction | simpl; lia]).
  match goal with |- context [findIndex_from ?p 0 edges] =>
    destruct (findIndex_from_spec p edges 0) as [[Hr Hall]|(j & e & Hr & He & Hp & _)]
  end; cbv zeta in *.
  - rewrite Hr, Z.eqb_refl. split; [lia|]. right. split; [reflexivity|].
    now apply missed_below_all.
  - rewrite Hr in *. rewrite Z.add_0_l in *.
    assert (Hj : (j < List.length edges)%nat) by (apply nth_error_Some; congruence).
    destruct (Z.eqb_spec (Z.of_nat j) (-1)); [lia|].
    split; [lia|]. left. exists e. rewrite Nat2Z.id. split; [exact He|].
    replace (Z.of_nat j + 1) with (0 + Z.of_nat j + 1) in Hp by lia.
    rewrite Array_get_succ in Hp.
    destruct (nth_error edges (S j)) as [next|] eqn:Hnext.
    + apply andb_true_iff in Hp as [Hle Hnot]. apply Qle_bool_iff in Hle.
      split; [exact Hle|]. intros next' [= <-].
      destruct (Qlt_le_dec value next) as [|Hge]; [assumption|].
      apply Qle_bool_iff in Hge. rewrite Hge in Hnot. discriminate.
    + apply Qle_bool_iff in Hp. split; [exact Hp|]. intros next' Hn. discriminate.
Qed.

Lemma nth_error_replace_nth {A : Type} (v : A) (l : list A) :
  forall n i,
    nth_error (replace_nth n v l) i
    = if (i =? n)%nat then (if (n <? List.length l)%nat then Some v else None)
      else nth_error l i.
Proof.
  induction l as [|x l IH]; intros [|n] [|i]; cbn; try reflexivity.
  - now destruct (i =? n)%nat.
  - rewrite IH. reflexivity.
Qed.

Lemma bumpCount_effect buckets k buckets' :
  bumpCount buckets k = Normal buckets' ->
  0 <= k < Z.of_nat (List.length buckets)
  /\ List.length buckets' = List.length buckets
  /\ forall i b, nth_error buckets' i = Some b ->
       exists b0, nth_error buckets i = Some b0
                  /\ label b = label b0
                  /\ count b = count b0 + (if Z.of_nat i =? k then 1 else 0).
Proof.
  unfold bumpCount, Array_get. destruct (Z.ltb_spec k 0); [discriminate|].
  destruct (nth_error buckets (Z.to_nat k)) as [b0|] eqn:Hk; [|discriminate].
  intros [= <-].
  assert (Hlt : (Z.to_nat k < List.length buckets)%nat)
    by (apply nth_error_Some; congruence).
  split; [lia|]. split; [apply BucketFacts.replace_nth_length|].
  intros i b. rewrite nth_error_replace_nth.
  destruct (Nat.eqb_spec i (Z.to_nat k)) as [->|Hne].
  - apply Nat.ltb_lt in Hlt. rewrite Hlt. intros [= <-]. exists b0.
    rewrite Z2Nat.id, Z.eqb_refl by lia. cbn. repeat split; auto.
  - intros Hb. exists b. destruct (Z.eqb_spec (Z.of_nat i) k); [lia|].
    repeat split; auto. lia.
Qed.

Lemma countValues_tally edges values :
  forall buckets result,
    List.length buckets = List.length edges ->
    countValues edges values buckets = Normal result ->
    forall i b, nth_error result i = Some b ->
      exists b0, nth_error buckets i = Some b0
                 /\ label b = label b0
                 /\ count b
                    = count b0
                      + Z.of_nat (List.length
                                    (filter (fun v => bucketIndexOf edges v =? Z.of_nat i)
                                            values)).
Proof.
  induction values as [|value rest IH]; intros buckets result Hlen Hrun i b Hb.
  - cbn in Hrun. injection Hrun as <-. exists b. cbn. repeat split; auto. lia.
  - cbn [countValues] in Hrun. cbv zeta in Hrun.
    destruct (bumpCount buckets _) as [buckets'|e] eqn:Hbump; [|discriminate].
    destruct (bumpCount_effect _ _ _ Hbump) as (_ & Hlen' & Hstep).
    destruct (IH buckets' result ltac:(congruence) Hrun i b Hb) as (b1 & Hb1 & Hl1 & Hc1).
    destruct (Hstep i b1 Hb1) as (b0 & Hb0 & Hl0 & Hc0).
    exists b0. split; [exact Hb0|]. split; [congruence|].
    rewrite Hc1, Hc0. cbn [filter]. unfold bucketIndexOf at 2. cbv zeta.
    rewrite <- Hlen.
    destruct (Z.eqb_spec (Z.of_nat i)
                (if bucketOf edges value =? -1
                 then Z.of_nat (List.length buckets) - 1
                 else bucketOf edges value)) as [E|E].
    + rewrite <- E, Z.eqb_refl. cbn [List.length]. lia.
    + destruct (Z.eqb_spec (if bucketOf edges value =? -1
                            then Z.of_nat (List.length buckets) - 1
                            else bucketOf edges value) (Z.of_nat i)); [congruence|].
      lia.
Qed.

Lemma mapi_from_counts {A : Type} (mk : A -> Z -> string) (l : list A) :
  forall s i b,
    nth_error (mapi_from (fun x k => {| label := mk x k; count := 0 |}) s l) i
    = Some b -> count b = 0.
Proof.
  induction l as [|x l IH]; intros s [|i] b; cbn; try discriminate.
  - now intros [= <-].
  - apply IH.
Qed.

(** X14: in the histogram returned, the count of each bucket is the number
    of values counted in that bucket. *)
Theorem X14_histogram_tallies values edges buckets :
  buildBuckets values edges = Normal buckets ->
  List.length buckets = List.length edges
  /\ forall i b, nth_error buckets i = Some b ->
       count b
       = Z.of_nat (List.length
                     (filter (fun v => bucketIndexOf edges v =? Z.of_nat i) values)).
Proof.
  unfold buildBuckets, Array_mapi. cbv zeta. intros Hrun.
  match type of Hrun with
  | countValues _ _ (mapi_from (fun edge index => {| label := @?mk edge index; count := 0 |}) 0 edges) = _ =>
      pose proof (BucketFacts.mapi_from_fresh mk edges 0) as [Hlen _];
      pose proof (mapi_from_counts mk edges 0) as Hzero
  end.
  cbv zeta in Hlen. split.
  - destruct values as [|v vs].
    + cbn in Hrun. injection Hrun as <-. exact Hlen.
    + destruct edges as [|e es].
      * cbn in Hrun. discriminate.
      * destruct (BucketFacts.countValues_total (e :: es) (v :: vs) ltac:(discriminate) _ Hlen)
          as (r & Hr & Hl & _).
        rewrite Hr in Hrun. now injection Hrun as <-.
  - intros i b Hb.
    destruct (countValues_tally _ _ _ _ Hlen Hrun i b Hb) as (b0 & Hb0 & _ & Hc).
    rewrite Hc, (Hzero i b0 Hb0). lia.
Qed.

End WithHost.

Lemma X14_histogram_tallies_witness :
  exists buckets,
    buildBuckets [75; -3; 120]%Q [0; 50; 100]%Q = Normal buckets
    /\ forall b, nth_error buckets 2 = Some b -> count b = 2.
Proof.
  eexists. split; [reflexivity|]. intros b Hb.
  exact (proj2 (X14_histogram_tallies [75; -3; 120]%Q [0; 50; 100]%Q _ eq_refl) 2%nat b Hb).
Defined.

Lemma X13_bucket_of_value_witness :
  [0; 50; 100]%Q <> []
  /\ 0 <= bucketIndexOf [0; 50; 100]%Q (-3)%Q < 3
  /\ bucketIndexOf [0; 50; 100]%Q (-3)%Q = 2.
Proof.
  split; [discriminate|]. split; [|reflexivity].
  exact (proj1 (X13_bucket_of_value [0; 50; 100]%Q (-3)%Q ltac:(discriminate))).
Defined.

End BucketMoreFacts.

(* ================================================================== *)
(** * More on the report: sort, rows, filter *)

Module ReportMoreFacts.
Import Report ReportNotions Notions.

(** ** Sorting twice *)

Lemma Array_sort_fixed {A : Type} (cmp : A -> A -> Q) (le : A -> A -> Prop) :
  (forall x y, le x y -> Number_positive (cmp x y) = false) ->
  forall l, StronglySorted le l -> Array_sort cmp l = l.
Proof.
  intros Hle. induction 1 as [|x l Hs IH Hall]; [reflexivity|].
  cbn [Array_sort]. rewrite IH. destruct l as [|y l]; [reflexivity|].
  cbn [sort_insert]. inversion Hall as [|? ? Hxy _]; subst.
  now rewrite (Hle x y Hxy).
Qed.

Lemma lex_cmp_keeps {A : Type} (primary secondary : A -> Q) x y :
  lexLe primary secondary x y ->
  Number_positive (num_or (primary x - primary y) (secondary x - secondary y))
  = false.
Proof.
  intros Hle.
  destruct (Number_positive _) eqn:E; [|reflexivity].
  apply SortFacts.num_or_positive in E. unfold lexLe in Hle.
  destruct Hle as [?|[? ?]], E as [?|[? ?]]; lra.
Qed.

(** X15: sorting a sorted report again by the same key changes nothing. *)
Theorem X15_sort_idempotent (customers : list Row.t) (sort : SortKey) :
  sortCustomers (sortCustomers customers sort) sort = sortCustomers customers sort.
Proof.
  destruct sort; unfold sortCustomers; cbv zeta.
  - apply (Array_sort_fixed _ (ordered ltv_desc)).
    + intros x y. apply (lex_cmp_keeps Row.totalSpent Row.ordersCount y x).
    + apply SortFacts.Array_sort_sorted.
      * intros x y z Hxy Hyz. exact (SortFacts.lexLe_trans _ _ z y x Hyz Hxy).
      * intros x y. apply (SortFacts.lex_cmp_after Row.totalSpent Row.ordersCount y x).
      * intros x y. apply (SortFacts.lex_cmp_before Row.totalSpent Row.ordersCount y x).
  - apply (Array_sort_fixed _ (ordered ltv_asc)).
    + intros x y. apply (lex_cmp_keeps Row.totalSpent Row.ordersCount x y).
    + apply SortFacts.Array_sort_sorted.
      * apply SortFacts.lexLe_trans.
      * apply SortFacts.lex_cmp_after.
      * apply SortFacts.lex_cmp_before.
  - apply (Array_sort_fixed _ (ordered orders_desc)).
    + intros x y. apply (lex_cmp_keeps Row.ordersCount Row.totalSpent y x).
    + apply SortFacts.Array_sort_sorted.
      * intros x y z Hxy Hyz. exact (SortFacts.lexLe_trans _ _ z y x Hyz Hxy).
      * intros x y. apply (SortFacts.lex_cmp_after Row.ordersCount Row.totalSpent y x).
      * intros x y. apply (SortFacts.lex_cmp_before Row.ordersCount Row.totalSpent y x).
  - apply (Array_sort_fixed _ (ordered orders_asc)).
    + intros x y. apply (lex_cmp_keeps Row.ordersCount Row.totalSpent x y).
    + apply SortFacts.Array_sort_sorted.
      * apply SortFacts.lexLe_trans.
      * apply SortFacts.lex_cmp_after.
      * apply SortFacts.lex_cmp_before.
Qed.

(** ** The rows of the report *)

Lemma str_or_truthy value fallback :
  string_truthy fallback = true -> string_truthy (str_or value fallback) = true.
Proof.
  intros Hf. unfold str_or. destruct value as [v|]; [|exact Hf].
  destruct (string_truthy v) eqn:E; [exact E | exact Hf].
Qed.

Section WithHost.
Context `{Host}.

Lemma report_visits_rows nodes :
  forall st,
    let st' := fold_left visitCustomer nodes st in
    map Row.id (w_customers st')
    = (map Row.id (w_customers st) ++ map id nodes)%list
    /\ (Forall (fun r => string_truthy (Row.name r) = true
                         /\ string_truthy (Row.email r) = true) (w_customers st) ->
        Forall (fun r => string_truthy (Row.name r) = true
                         /\ string_truthy (Row.email r) = true) (w_customers st')).
Proof.
  cbv zeta. induction nodes as [|c nodes IH]; intros st.
  - cbn. rewrite app_nil_r. auto.
  - cbn [fold_left]. destruct (IH (visitCustomer st c)) as [Hids Hok].
    split.
    + rewrite Hids. cbn [visitCustomer w_customers]. rewrite map_app. cbn [map Row.id].
      now rewrite <- app_assoc.
    + intros Hst. apply Hok. cbn [visitCustomer w_customers].
      apply Forall_app. split; [exact Hst|]. constructor; [|constructor].
      cbn [Row.name Row.email]. split.
      * apply str_or_truthy. now apply str_or_truthy.
      * now apply str_or_truthy.
Qed.

Lemma report_walk_rows upstream :
  forall st st',
    walkCustomers upstream st = Returned st' ->
    map Row.id (w_customers st')
    = (map Row.id (w_customers st)
       ++ map id (flat_map (fun json => match data json with
                                        | Some page => nodes page
                                        | None => []
                                        end)
                           (awaited w_hasNextPage pageBody upstream st)))%list
    /\ (Forall (fun r => string_truthy (Row.name r) = true
                         /\ string_truthy (Row.email r) = true) (w_customers st) ->
        Forall (fun r => string_truthy (Row.name r) = true
                         /\ string_truthy (Row.email r) = true) (w_customers st')).
Proof.
  unfold walkCustomers.
  induction upstream as [|json rest IH]; intros st st' Hrun; simpl in *.
  - destruct (w_hasNextPage st); [discriminate|]. injection Hrun as <-.
    cbn. rewrite app_nil_r. auto.
  - destruct (w_hasNextPage st); [|injection Hrun as <-; cbn; rewrite app_nil_r; auto].
    destruct (pageBody json st) as [st1|e] eqn:Hb; [|discriminate].
    destruct (WalkFacts.report_pageBody_normal _ _ _ Hb) as (page & Hd & ->).
    destruct (IH _ _ Hrun) as [Hids Hok].
    destruct (report_visits_rows (nodes page) st) as [Vids Vok].
    cbn [turnPage w_customers] in Hids, Hok. cbn [flat_map]. rewrite Hd. split.
    + rewrite Hids, Vids, map_app, <- app_assoc. reflexivity.
    + intros Hst. apply Hok. now apply Vok.
Qed.

(** X16: the report walk returns one row per customer fetched, in upstream
    order, and every row has a name and an email that are not empty. *)
Theorem X16_report_rows_in_upstream_order upstream fetched :
  fetchAllCustomers upstream = Returned fetched ->
  map Row.id (customers fetched) = map id (reportFetched upstream)
  /\ Forall (fun r => string_truthy (Row.name r) = true
                      /\ string_truthy (Row.email r) = true)
            (customers fetched).
Proof.
  unfold fetchAllCustomers.
  destruct (walkCustomers upstream walkStart) as [st| |] eqn:Hw; try discriminate.
  intros [= <-]. cbn [customers].
  destruct (report_walk_rows _ _ _ Hw) as [Hids Hok]. split.
  - exact Hids.
  - apply Hok. constructor.
Qed.

(** ** The filter *)

Lemma keepCustomer_tags_only (c : Criteria) customer tags tags' :
  (negb (List.length tags =? 0)%nat && negb (tagsMatch (tagsMode c) tags customer)
   = false ->
   negb (List.length tags' =? 0)%nat && negb (tagsMatch (tagsMode c) tags' customer)
   = false) ->
  keepCustomer (withTagsList tags c) customer = true ->
  keepCustomer (withTagsList tags' c) customer = true.
Proof.
  intros Htags. unfold keepCustomer, withTagsList.
  cbn [query minOrdersValue maxOrdersValue minSpentValue maxSpentValue tagsList
       tagsMode createdStartDate createdEndDate firstOrderStartDate firstOrderEndDate].
  repeat match goal with
  | |- (if ?b then false else _) = true -> (if ?b then false else _) = true =>
      destruct b; [discriminate|]
  end.
  destruct (negb (List.length tags =? 0)%nat
            && negb (tagsMatch (tagsMode c) tags customer)) eqn:E; [discriminate|].
  rewrite (Htags eq_refl). exact (fun h => h).
Qed.

(** X17: asking for more tags never adds customers in mode [all]; in mode
    [any] it never removes customers, provided a tag was asked for to begin
    with (an empty tag list switches the tag filter off). *)
Theorem X17_tag_list_monotone (c : Criteria) (tags tags' : list string)
  (customers : list Row.t) :
  incl tags tags' ->
  (tagsMode c = all ->
   incl (filtered (withTagsList tags' c) customers)
        (filtered (withTagsList tags c) customers))
  /\ (tagsMode c = any -> tags <> [] ->
      incl (filtered (withTagsList tags c) customers)
           (filtered (withTagsList tags' c) customers)).
Proof.
  intros Hincl. split.
  - intros Hmode customer. unfold filtered. rewrite !filter_In.
    intros [Hin Hkeep]. split; [assumption|].
    revert Hkeep. apply keepCustomer_tags_only. rewrite Hmode.
    intros Hall. destruct tags as [|t ts]; [reflexivity|].
    destruct tags' as [|t' ts']; [destruct (Hincl t (or_introl eq_refl))|].
    cbn [List.length Nat.eqb negb andb] in *.
    apply negb_false_iff in Hall. apply negb_false_iff.
    unfold tagsMatch in *. rewrite forallb_forall in *.
    intros tag Htag. apply Hall. now apply Hincl.
  - intros Hmode Hne customer. unfold filtered. rewrite !filter_In.
    intros [Hin Hkeep]. split; [assumption|].
    revert Hkeep. apply keepCustomer_tags_only. rewrite Hmode.
    intros Hany. destruct tags as [|t ts]; [contradiction|].
    destruct tags' as [|t' ts']; [destruct (Hincl t (or_introl eq_refl))|].
    cbn [List.length Nat.eqb negb andb] in *.
    apply negb_false_iff in Hany. apply negb_false_iff.
    unfold tagsMatch in *. rewrite existsb_exists in *.
    destruct Hany as (tag & Htag & Hhas). exists tag. split; [now apply Hincl | exact Hhas].
Qed.

Lemma outsideRange_false value lo hi :
  outsideRange value lo hi = false -> withinRange value lo hi.
Proof.
  unfold outsideRange, withinRange.
  assert (Hcore : match str_or_null value with
                  | None => true
                  | Some v =>
                      match lo with Some l => Date_lt (Date_parse v) (Some l) | None => false end
                      || match hi with Some h => Date_gt (Date_parse v) (Some h) | None => false end
                  end = false ->
                  exists v, value = Some v /\ string_truthy v = true
                    /\ forall t, Date_parse v = Some t ->
                         (forall l, lo = Some l -> l <= t)
                         /\ (forall h, hi = Some h -> t <= h)).
  { unfold str_or_null. destruct value as [v|]; [|discriminate].
    destruct (string_truthy v) eqn:Hv; [|discriminate].
    intros Hout. apply orb_false_iff in Hout as [Hlo Hhi].
    exists v. split; [reflexivity|]. split; [exact Hv|].
    intros t Ht. rewrite Ht in Hlo, Hhi. split.
    - intros l ->. unfold Date_lt, Date_gt in Hlo. 
      destruct (Z.gtb_spec l t); [discriminate | lia].
    - intros h ->. unfold Date_gt in Hhi.
      destruct (Z.gtb_spec t h); [discriminate | lia]. }
  destruct lo as [l|], hi as [h|]; intros Hout; try (right; now apply Hcore).
  left. now split.
Qed.

(** X18: every customer the filter keeps meets the bounds that are set:
    the order count and the spend lie within their minimum and maximum, and
    each date field with a requested range is present and, when it parses,
    lies within the range. *)
Theorem X18_kept_customers_meet_bounds (c : Criteria) (customer : Row.t) :
  keepCustomer c customer = true ->
  (forall v, minOrdersValue c = Some v -> (v <= Row.ordersCount customer)%Q)
  /\ (forall v, maxOrdersValue c = Some v -> (Row.ordersCount customer <= v)%Q)
  /\ (forall v, minSpentValue c = Some v -> (v <= Row.totalSpent customer)%Q)
  /\ (forall v, maxSpentValue c = Some v -> (Row.totalSpent customer <= v)%Q)
  /\ withinRange (Row.createdAt customer) (createdStartDate c) (createdEndDate c)
  /\ withinRange (Row.firstOrderDate customer)
                 (firstOrderStartDate c) (firstOrderEndDate c).
Proof.
  unfold keepCustomer.
  assert (Hlt : forall a b, Number_lt a b = false -> (b <= a)%Q).
  { intros a b E. unfold Number_lt in E. apply negb_false_iff in E.
    now apply Qle_bool_iff. }
  destruct (_ && _ && _); [discriminate|].
  destruct (minOrdersValue c) as [v1|];
    [destruct (Number_lt (Row.ordersCount customer) v1) eqn:E1; [discriminate|]|].
  all: destruct (maxOrdersValue c) as [v2|];
    [destruct (Number_lt v2 (Row.ordersCount customer)) eqn:E2; [discriminate|]|].
  all: destruct (minSpentValue c) as [v3|];
    [destruct (Number_lt (Row.totalSpent customer) v3) eqn:E3; [discriminate|]|].
  all: destruct (maxSpentValue c) as [v4|];
    [destruct (Number_lt v4 (Row.totalSpent customer)) eqn:E4; [discriminate|]|].
  all: destruct (negb _ && negb _); [discriminate|].
  all: destruct (outsideRange (Row.createdAt customer) _ _) eqn:Ec; [discriminate|].
  all: destruct (outsideRange (Row.firstOrderDate customer) _ _) eqn:Ef; [discriminate|].
  all: intros _; repeat split;
    try (intros v [= <-]; now apply Hlt); try discriminate;
    try (now apply outsideRange_false).
Qed.

End WithHost.

Lemma X16_report_rows_in_upstream_order_witness :
  exists fetched,
    fetchAllCustomers Samples.reportPages = Returned fetched
    /\ map Row.id (customers fetched) = ["gid://shopify/Customer/1"].
Proof.
  eexists. split; [reflexivity|].
  exact (proj1 (X16_report_rows_in_upstream_order Samples.reportPages _ eq_refl)).
Defined.

Lemma X17_tag_list_monotone_witness :
  incl ["vip"] ["vip"; "retail"]
  /\ tagsMode (tagsOnly []) = any
  /\ ["vip"] <> []
  /\ incl (filtered (withTagsList ["vip"] (tagsOnly [])) [vipRow])
          (filtered (withTagsList ["vip"; "retail"] (tagsOnly [])) [vipRow]).
Proof.
  assert (Hincl : incl ["vip"] ["vip"; "retail"]).
  { intros t [<-|[]]. now left. }
  split; [exact Hincl|]. split; [reflexivity|]. split; [discriminate|].
  apply (proj2 (X17_tag_list_monotone (tagsOnly []) ["vip"] ["vip"; "retail"]
                  [vipRow] Hincl) eq_refl).
  discriminate.
Defined.

Lemma X18_kept_customers_meet_bounds_witness :
  keepCustomer regularsOfJanuary vipRow = true
  /\ (2 <= Row.ordersCount vipRow)%Q.
Proof.
  split; [reflexivity|].
  destruct (X18_kept_customers_meet_bounds (H := SampleHost.host)
              regularsOfJanuary vipRow eq_refl)
    as (Hmin & _).
  apply Hmin. reflexivity.
Defined.

End ReportMoreFacts.

(* ================================================================== *)
(** * More on the date range *)

Module DateRangeMoreFacts.
Import TimeFacts Analytics.

(** The first day of the year 100, the first year [Date.UTC] takes as
    written. *)
Lemma year_100_onwards t :
  -683003 * msPerDay <= t -> 100 <= YearFromTime t.
Proof.
  intros Ht. apply YearFromTime_lower.
  assert (Hd : DayFromYear 100 = -683003) by reflexivity.
  rewrite Hd. unfold Day, msPerDay in *. Z.div_mod_to_equations. lia.
Qed.

Lemma Date_UTC_snaps t h mi s :
  -683003 * msPerDay <= t ->
  - maxTime <= MakeDate (Day t) (MakeTime h mi s 0) <= maxTime ->
  Date_UTC (getUTCFullYear (Some t)) (getUTCMonth (Some t)) (getUTCDate (Some t))
           h mi s
  = Some (MakeDate (Day t) (MakeTime h mi s 0)).
Proof.
  intros Ht Hr. unfold Date_UTC, getUTCFullYear, getUTCMonth, getUTCDate, option_map.
  rewrite MakeFullYear_modern by now apply year_100_onwards.
  replace (DateFromTime t) with (DateFromTime t + 0) by lia.
  rewrite MakeDay_fields, Z.add_0_r. now apply TimeClip_in_range.
Qed.

Section WithHost.
Context `{Host}.

(** X19: for two dates that parse, from the year 100 on, the start day not
    after the end day, [getDateRange] returns the start snapped to the first
    instant of its day and the end snapped to 23:59:59 of its day, whatever
    the current time. *)
Theorem X19_ordered_range_snapped now s e ts te :
  string_truthy s = true -> string_truthy e = true ->
  Date_parse (s ++ "T00:00:00Z") = Some ts ->
  Date_parse (e ++ "T00:00:00Z") = Some te ->
  -683003 * msPerDay <= ts -> -683003 * msPerDay <= te ->
  ts <= maxTime -> te + msPerDay <= maxTime ->
  Day ts <= Day te ->
  getDateRange now (Some s) (Some e)
  = {| start := Some (Day ts * msPerDay);
       end_ := Some (Day te * msPerDay + 86399000) |}.
Proof.
  intros Hs He Hps Hpe Hts Hte Htsmax Htemax Hdays.
  pose proof (DateRangeFacts.Day_bounds ts) as Hbs.
  pose proof (DateRangeFacts.Day_bounds te) as Hbe.
  unfold getDateRange. cbv zeta. unfold parseDateParam.
  rewrite Hs, He, Hps, Hpe.
  rewrite (Date_UTC_snaps ts 0 0 0 Hts)
    by (unfold MakeDate, MakeTime, msPerDay, maxTime in *; lia).
  rewrite (Date_UTC_snaps te 23 59 59 Hte)
    by (unfold MakeDate, MakeTime, msPerDay, maxTime in *; lia).
  unfold Date_gt, MakeDate, MakeTime.
  destruct (Z.gtb_spec (Day ts * msPerDay + (0 * 3600000 + 0 * 60000 + 0 * 1000 + 0))
                       (Day te * msPerDay + (23 * 3600000 + 59 * 60000 + 59 * 1000 + 0))).
  - unfold msPerDay in *. lia.
  - f_equal; f_equal; lia.
Qed.

End WithHost.

Lemma X19_ordered_range_snapped_witness :
  getDateRange 1710505800000 (Some "2024-03-01") (Some "2024-03-10")
  = {| start := Some (Day 1709251200000 * msPerDay);
       end_ := Some (Day 1710028800000 * msPerDay + 86399000) |}.
Proof.
  apply (X19_ordered_range_snapped 1710505800000 "2024-03-01" "2024-03-10"
           1709251200000 1710028800000); try reflexivity;
    unfold msPerDay, maxTime; try lia.
  vm_compute. discriminate.
Defined.

End DateRangeMoreFacts.

(* ================================================================== *)
(** * Customer lookup *)

Module LookupFacts.
Import Lookup.

Lemma utmPart_truthy label value part :
  utmPart label value = Some part -> string_truthy part = true.
Proof.
  unfold utmPart. destruct value as [v|]; [|discriminate].
  destruct (string_truthy v); [|discriminate]. intros [= <-].
  destruct label; [destruct v|]; reflexivity.
Qed.

Lemma utmPart_none label value :
  utmPart label value = None <-> present value = false.
Proof.
  unfold utmPart, present. destruct value as [v|]; [|tauto].
  destruct (string_truthy v); split; congruence.
Qed.

Lemma keepTruthy_part label value rest :
  keepTruthy (utmPart label value :: rest)
  = (match utmPart label value with Some p => [p] | None => [] end
     ++ keepTruthy rest)%list.
Proof.
  unfold keepTruthy. cbn [flat_map].
  destruct (utmPart label value) as [p|] eqn:E; [|reflexivity].
  now rewrite (utmPart_truthy _ _ _ E).
Qed.

(** X20: [formatUtm] gives null exactly when there are no UTM parameters
    or all five of them are empty or missing. *)
Theorem X20_formatUtm_null_iff_nothing_set (utm : option UtmParameters) :
  formatUtm utm = None
  <-> match utm with
      | None => True
      | Some u =>
          present (utm_source u) = false /\ present (utm_medium u) = false
          /\ present (utm_campaign u) = false /\ present (utm_term u) = false
          /\ present (utm_content u) = false
      end.
Proof.
  destruct utm as [u|]; [|cbn; tauto].
  unfold formatUtm. cbv zeta. rewrite !keepTruthy_part.
  rewrite <- (utmPart_none "source"), <- (utmPart_none "medium"),
    <- (utmPart_none "campaign"), <- (utmPart_none "term"),
    <- (utmPart_none "content").
  destruct (utmPart "source" (utm_source u)), (utmPart "medium" (utm_medium u)),
    (utmPart "campaign" (utm_campaign u)), (utmPart "term" (utm_term u)),
    (utmPart "content" (utm_content u)); cbn [app]; intuition congruence.
Qed.

Lemma Array_join_truthy sep part parts :
  string_truthy part = true -> string_truthy (Array_join sep (part :: parts)) = true.
Proof.
  intros Hp. destruct part as [|c part]; [discriminate|].
  destruct parts; reflexivity.
Qed.

Section WithHost.
Context `{HostMore}.

(** X21: a visit that recorded a UTM source or medium is shown as
    [UTM (...)] around its UTM summary; the bare text [UTM] never comes
    out. *)
Theorem X21_utm_channel_wraps_summary (visit : Visit) (utm : UtmParameters) :
  utmParameters visit = Some utm ->
  present (utm_source utm) || present (utm_medium utm) = true ->
  exists summary,
    formatUtm (Some utm) = Some summary
    /\ formatReferrerChannel (Some visit) = ("UTM (" ++ summary ++ ")")%string.
Proof.
  intros Hutm Hset. unfold formatReferrerChannel. rewrite Hutm, Hset.
  assert (Hsome : exists first parts,
            keepTruthy [ utmPart "source" (utm_source utm);
                         utmPart "medium" (utm_medium utm);
                         utmPart "campaign" (utm_campaign utm);
                         utmPart "term" (utm_term utm);
                         utmPart "content" (utm_content utm) ] = first :: parts
            /\ string_truthy first = true).
  { rewrite !keepTruthy_part.
    destruct (utmPart "source" (utm_source utm)) as [p|] eqn:Es.
    - exists p. eexists. split; [reflexivity|]. exact (utmPart_truthy _ _ _ Es).
    - apply utmPart_none in Es. rewrite Es in Hset. cbn [orb] in Hset.
      destruct (utmPart "medium" (utm_medium utm)) as [p|] eqn:Em.
      + exists p. eexists. split; [reflexivity|]. exact (utmPart_truthy _ _ _ Em).
      + apply utmPart_none in Em. congruence. }
  destruct Hsome as (first & parts & Hparts & Hfirst).
  unfold formatUtm. cbv zeta. rewrite Hparts.
  exists (Array_join ", " (first :: parts)). split; [reflexivity|].
  now rewrite (Array_join_truthy ", " first parts Hfirst).
Qed.

(** X22: on a response without a truthy [errors] field the lookup
    returns null exactly when no customer came back, and else a result for
    the first customer, with a name and an email that are not empty and the
    referrer channel of that customer's first visit. *)
Theorem X22_lookup_result (json : LookupResponse) (customers : list LookupCustomer) :
  truthy (errors json) = false -> data json = Some customers ->
  (fetchCustomerLookup json = Normal None <-> customers = [])
  /\ forall customer rest, customers = customer :: rest ->
       exists result,
         fetchCustomerLookup json = Normal (Some result)
         /\ r_id result = id customer
         /\ string_truthy (r_name result) = true
         /\ string_truthy (r_email result) = true
         /\ r_referrerChannel result = formatReferrerChannel (visitOf customer).
Proof.
  intros Herr Hdata. unfold fetchCustomerLookup. rewrite Herr, Hdata. split.
  - destruct customers; split; congruence.
  - intros customer rest ->. eexists. split; [reflexivity|].
    cbn [r_id r_name r_email r_referrerChannel]. split; [reflexivity|].
    split; [|split; [|reflexivity]].
    + apply ReportMoreFacts.str_or_truthy. now apply ReportMoreFacts.str_or_truthy.
    + now apply ReportMoreFacts.str_or_truthy.
Qed.

End WithHost.

Lemma X21_utm_channel_wraps_summary_witness :
  exists utm summary,
    Lookup.utmParameters ReportNotions.newsletterVisit = Some utm
    /\ present (utm_source utm) || present (utm_medium utm) = true
    /\ formatUtm (Some utm) = Some summary
    /\ formatReferrerChannel (Some ReportNotions.newsletterVisit)
       = ("UTM (" ++ summary ++ ")")%string.
Proof.
  eexists. 
  destruct (X21_utm_channel_wraps_summary (H := SampleHostMore.hostMore)
              ReportNotions.newsletterVisit _ eq_refl eq_refl)
    as (summary & Hsum & Hchannel).
  exists summary. split; [reflexivity|]. split; [reflexivity|].
  split; [exact Hsum | exact Hchannel].
Defined.

Lemma X22_lookup_result_witness :
  exists result,
    fetchCustomerLookup ReportNotions.lookupResponse = Normal (Some result)
    /\ string_truthy (r_name result) = true.
Proof.
  destruct (proj2 (X22_lookup_result (H := SampleHostMore.hostMore)
                     ReportNotions.lookupResponse _ eq_refl eq_refl)
                  _ _ eq_refl)
    as (result & Hres & _ & Hname & _).
  exists result. split; [exact Hres | exact Hname].
Defined.

End LookupFacts.

(* ================================================================== *)
(** * Saved presets *)

Module PresetFacts.
Import ReportLoader Presets ReportNotions.

Lemma pickEntries_In keys pick k v :
  In (k, v) (pickEntries keys pick) <-> In k keys /\ pick k = Some v.
Proof.
  unfold pickEntries. rewrite in_flat_map. split.
  - intros (key & Hkey & Hin). destruct (pick key) as [value|] eqn:E; [|destruct Hin].
    destruct Hin as [[= <- <-]|[]]. now split.
  - intros [Hin Hp]. exists k. split; [exact Hin|]. rewrite Hp. now left.
Qed.

Lemma pickEntries_keys keys pick k :
  In k (map fst (pickEntries keys pick)) -> In k keys.
Proof.
  intros Hin. apply in_map_iff in Hin as ((k', v) & Hk & Hin). simpl in Hk. subst k'.
  now apply pickEntries_In in Hin.
Qed.

Lemma pickEntries_NoDup keys pick :
  NoDup keys -> NoDup (map fst (pickEntries keys pick)).
Proof.
  induction 1 as [|key keys Hnotin Hnd IH]; [constructor|].
  unfold pickEntries. cbn [flat_map]. fold (pickEntries keys pick).
  destruct (pick key) as [value|]; [|exact IH].
  cbn. constructor; [|exact IH].
  intros Hin. apply Hnotin. now apply (pickEntries_keys keys pick).
Qed.

Lemma entries_get_absent {V : Type} (entries : list (string * V)) k :
  ~ In k (map fst entries) -> entries_get entries k = None.
Proof.
  induction entries as [|(k', v) entries IH]; [reflexivity|].
  cbn. intros Hnot. destruct (String.eqb_spec k' k) as [->|_]; [tauto|].
  apply IH. tauto.
Qed.

(** Looking a key up in the object gives what was filed under it. *)
Lemma pickEntries_get keys pick k :
  NoDup keys -> In k keys -> entries_get (pickEntries keys pick) k = pick k.
Proof.
  induction 1 as [|key keys Hnotin Hnd IH]; [intros []|].
  intros Hin. unfold pickEntries. cbn [flat_map]. fold (pickEntries keys pick).
  destruct (String.eqb_spec key k) as [->|Hne].
  - destruct (pick k) as [value|] eqn:E.
    + cbn. now rewrite String.eqb_refl.
    + cbn. apply entries_get_absent. intros Hk. apply Hnotin.
      now apply (pickEntries_keys keys pick).
  - destruct Hin as [->|Hin]; [contradiction|].
    destruct (pick key) as [value|]; cbn.
    + destruct (String.eqb_spec key k); [contradiction|]. now apply IH.
    + now apply IH.
Qed.

Lemma CONFIG_KEYS_NoDup : NoDup CONFIG_KEYS.
Proof.
  unfold CONFIG_KEYS.
  repeat (constructor; [cbn; intuition discriminate|]). constructor.
Qed.

Lemma truthy_length (value : string) :
  (0 <? String.length value)%nat = string_truthy value.
Proof. destruct value; reflexivity. Qed.

Lemma savedConfig_pick formData :
  savedConfig formData = pickEntries CONFIG_KEYS (formText formData).
Proof.
  unfold savedConfig, pickEntries. apply flat_map_ext. intros key.
  unfold formText. destruct (entries_get formData key) as [[value|]|]; try reflexivity.
  rewrite truthy_length. now destruct (string_truthy value).
Qed.

Lemma buildConfig_pick params :
  buildConfig params
  = pickEntries CONFIG_KEYS
      (fun key => match entries_get params key with
                  | Some value => if string_truthy value then Some value else None
                  | None => None
                  end).
Proof.
  unfold buildConfig, pickEntries. apply flat_map_ext. intros key.
  destruct (entries_get params key) as [value|]; [|reflexivity].
  now destruct (string_truthy value).
Qed.

(** What [configToParams] lists for an object made by going through the
    keys with non-empty values: the object itself. *)
Lemma configEntries_pick pick :
  (forall k v, pick k = Some v -> string_truthy v = true) ->
  configEntries (pickEntries CONFIG_KEYS pick) = pickEntries CONFIG_KEYS pick.
Proof.
  intros Htruthy. unfold configEntries.
  unfold pickEntries at 2. rewrite !flat_map_concat_map. f_equal.
  apply map_ext_in. intros key Hin.
  rewrite (pickEntries_get CONFIG_KEYS pick key CONFIG_KEYS_NoDup Hin).
  destruct (pick key) as [value|] eqn:E; [|reflexivity].
  now rewrite (Htruthy _ _ E).
Qed.

Section WithHost.
Context `{HostMore}.

(** X23: an action makes at most one call on the store, and none when it
    reports a failure.  A preset is created only for the intent [save] with
    a name that is not empty once trimmed, for the shop of the session; its
    settings hold exactly the keys of [CONFIG_KEYS] for which the form has a
    non-empty text, each once.  A preset is deleted by its id alone. *)
Theorem X23_action_store_calls (shop : string) (formData : FormData) :
  let result := fst (action shop formData) in
  let calls := snd (action shop formData) in
  (List.length calls <= 1)%nat
  /\ (ok result = false -> calls = [] /\ error result <> None)
  /\ forall call, In call calls ->
       ok result = true
       /\ match call with
          | CreatePreset shop' name config =>
              shop' = shop
              /\ formString formData "intent" = "save"
              /\ name = String_trim (formString formData "report_name")
              /\ string_truthy name = true
              /\ NoDup (map fst config)
              /\ forall k v, In (k, v) config
                             <-> In k CONFIG_KEYS
                                 /\ entries_get formData k = Some (FormText v)
                                 /\ string_truthy v = true
          | DeletePreset id =>
              formString formData "intent" = "delete"
              /\ id = formString formData "preset_id"
              /\ string_truthy id = true
          end.
Proof.
  cbv zeta. unfold action. cbv zeta.
  destruct (String.eqb_spec (formString formData "intent") "save") as [Hsave|Hnsave].
  - destruct (string_truthy (String_trim (formString formData "report_name"))) eqn:Hname;
      cbn [negb fst snd ok error List.length In].
    + split; [lia|]. split; [discriminate|].
      intros call [<-|[]]. split; [reflexivity|].
      split; [reflexivity|]. split; [exact Hsave|]. split; [reflexivity|].
      split; [exact Hname|]. rewrite savedConfig_pick. split.
      * apply pickEntries_NoDup, CONFIG_KEYS_NoDup.
      * intros k v. rewrite pickEntries_In. unfold formText.
        destruct (entries_get formData k) as [[value|]|]; 
          try (split; [intros [_ ?]; discriminate | intros (_ & ? & _); discriminate]).
        destruct (string_truthy value) eqn:Hv.
        -- split.
           ++ intros [Hin [= <-]]. auto.
           ++ intros (Hin & [= <-] & _). auto.
        -- split.
           ++ intros [_ ?]. discriminate.
           ++ intros (_ & [= <-] & Hv'). congruence.
    + split; [lia|]. split; [intros _; split; [reflexivity | discriminate]|].
      intros call [].
  - destruct (String.eqb_spec (formString formData "intent") "delete") as [Hdel|Hndel].
    + cbn [fst snd ok error].
      destruct (string_truthy (formString formData "preset_id")) eqn:Hid;
        cbn [List.length In].
      * split; [lia|]. split; [discriminate|].
        intros call [<-|[]]. repeat split; auto.
      * split; [lia|]. split; [discriminate|]. intros call [].
    + cbn [fst snd ok error List.length In].
      split; [lia|]. split; [intros _; split; [reflexivity | discriminate]|].
      intros call [].
Qed.

End WithHost.

(** X24: the settings saved from a form, and the settings read from a
    request, are listed back by [configToParams] entry for entry: the same
    keys, in the same order, with the same values. *)
Theorem X24_config_listed_back (formData : FormData) (params : SearchParams) :
  configEntries (savedConfig formData) = savedConfig formData
  /\ configEntries (buildConfig params) = buildConfig params.
Proof.
  split.
  - rewrite (savedConfig_pick formData). apply configEntries_pick.
    intros k v. unfold formText.
    destruct (entries_get formData k) as [[value|]|]; try discriminate.
    destruct (string_truthy value) eqn:E; [|discriminate]. now intros [= <-].
  - rewrite (buildConfig_pick params). apply configEntries_pick.
    intros k v. destruct (entries_get params k) as [value|]; [|discriminate].
    destruct (string_truthy value) eqn:E; [|discriminate]. now intros [= <-].
Qed.

Lemma X23_action_store_calls_witness :
  snd (action "demo.myshopify.com" saveForm)
  = [CreatePreset "demo.myshopify.com" "Big spenders"
       [("sort", "ltv_desc"); ("min_spent", "500")]]
  /\ ok (fst (action "demo.myshopify.com" saveForm)) = true.
Proof.
  split; [reflexivity|].
  destruct (X23_action_store_calls (H := SampleHostMore.hostMore)
              "demo.myshopify.com" saveForm) as (_ & _ & Hcalls).
  exact (proj1 (Hcalls _ (or_introl eq_refl))).
Defined.

End PresetFacts.
